(** * DICOM image loader: a shallow embedding of the viewer's loader modules

    The development follows the JavaScript sources of the viewer:

    - [dicomImageLoader.js]: the loader configuration ([defaultConfig],
      [config], [configure]), the decoder [createImageObjectFromDicom] and
      the cornerstone image loader [loadImage] with its list of reusable
      web workers ([availableWebworkers]);
    - [api.js]: [authenticatedFetch].

    JavaScript values are modelled by the types the code really uses:
    [option] for a value that may be [undefined], [Z] for integers read out
    of the payload, [Number] for the results of arithmetic (a rational or
    [NaN]), [Completion] for a computation that returns or throws, and
    explicit state passing for module-level mutable state. *)

From Stdlib Require Import ZArith QArith String Ascii List Bool Lia.
From Stdlib Require Strings.Byte.
From stdpp Require Import gmap strings list fin_maps.

Local Open Scope string_scope.
Local Open Scope list_scope.
Local Open Scope Z_scope.

(** ** JavaScript values and completions *)

(** Values that JavaScript code throws (or rejects a promise with). *)
Inductive Exn : Type :=
| TypeError (msg : string)
| RangeError (msg : string)
| Error (msg : string)
| Thrown (msg : string).

(** A computation either returns normally or throws. *)
Inductive Completion (A : Type) : Type :=
| Normal (a : A)
| Throw (e : Exn).
Arguments Normal {A} a.
Arguments Throw {A} e.

#[global] Instance Completion_ret : MRet Completion := fun A a => Normal a.
#[global] Instance Completion_bind : MBind Completion :=
  fun A B f c => match c with Normal a => f a | Throw e => Throw e end.

(** A JavaScript number as the loader produces it.  Every finite value
    computed here is an integer below 2^32 or half of one, which a double
    represents exactly, so rationals are a faithful model. *)
Inductive Number : Type :=
| NaN
| Num (q : Q).

(** [ToNumber] of a value that is [undefined] or an integer. *)
Definition ToNumber (v : option Z) : Number :=
  match v with
  | None => NaN
  | Some z => Num (inject_Z z)
  end.

Definition num_add (a b : Number) : Number :=
  match a, b with
  | Num x, Num y => Num (Qred (x + y))
  | _, _ => NaN
  end.

Definition num_sub (a b : Number) : Number :=
  match a, b with
  | Num x, Num y => Num (Qred (x - y))
  | _, _ => NaN
  end.

Definition num_mul (a b : Number) : Number :=
  match a, b with
  | Num x, Num y => Num (Qred (x * y))
  | _, _ => NaN
  end.

(** Division, as the loader uses it: by the constant 2.  The divisor 0,
    which does not occur, is given [NaN]; infinities are not modelled. *)
Definition num_div (a b : Number) : Number :=
  match a, b with
  | Num x, Num y => if Qeq_bool y 0 then NaN else Num (Qred (x / y))
  | _, _ => NaN
  end.

(** [!v] for a value that is [undefined] or an integer: [undefined] and
    [0] are the falsy ones. *)
Definition js_not (v : option Z) : bool :=
  match v with
  | None => true
  | Some z => z =? 0
  end.

(** [a < b] on values that are [undefined] or integers; a comparison with
    [undefined] is false. *)
Definition js_lt (a b : option Z) : bool :=
  match a, b with
  | Some x, Some y => x <? y
  | _, _ => false
  end.

(** [s == lit] for a value [s] that is [undefined] or a string and a string
    literal [lit]. *)
Definition js_eq_string (s : option string) (lit : string) : bool :=
  match s with
  | Some s' => String.eqb s' lit
  | None => false
  end.

(** ** Array buffers and typed-array views *)

(** An [ArrayBuffer]: its identity and its bytes.  Two views share storage
    when they hold the same buffer. *)
Record ArrayBuffer : Type := mkArrayBuffer {
  buf_id : nat;
  buf_bytes : list Byte.byte;
}.

Definition byteLength (b : ArrayBuffer) : Z :=
  Z.of_nat (List.length (buf_bytes b)).

(** A typed-array view ([Uint8Array] or [Int16Array]): the buffer it looks
    at, the byte offset of its first element and its number of elements. *)
Record TypedArray : Type := mkTypedArray {
  buffer : ArrayBuffer;
  byteOffset : Z;
  ta_length : Z;
}.

(** The byte of the buffer at absolute position [pos].  A view never
    extends beyond its buffer, so the 0 given outside of the buffer is
    never read through a view that JavaScript can build. *)
Definition byte_at (b : ArrayBuffer) (pos : Z) : Z :=
  if pos <? 0 then 0
  else match buf_bytes b !! Z.to_nat pos with
       | Some x => Z.of_N (Byte.to_N x)
       | None => 0
       end.

(** [byteArray[i]] on a [Uint8Array], for [i] within the view. *)
Definition u8 (a : TypedArray) (i : Z) : Z :=
  byte_at (buffer a) (byteOffset a + i).

(** Two's complement reading of a 16-bit pattern. *)
Definition to_int16 (v : Z) : Z :=
  if Z.testbit v 15 then v - 65536 else v.

(** [pixelData[i]] on an [Int16Array]: [undefined] outside of the view, the
    signed little-endian sample at byte [byteOffset + 2*i] inside. *)
Definition i16 (a : TypedArray) (i : Z) : option Z :=
  if (0 <=? i) && (i <? ta_length a) then
    Some (to_int16 (byte_at (buffer a) (byteOffset a + 2 * i)
                    + 256 * byte_at (buffer a) (byteOffset a + 2 * i + 1)))
  else None.

(** [new Int16Array(buffer, byteOffset)], without a length: the view runs
    from [byteOffset] to the end of the buffer.  The constructor throws a
    [RangeError] when the offset is negative or odd, when the buffer has an
    odd length, or when the offset lies beyond the buffer. *)
Definition new_Int16Array (b : ArrayBuffer) (offset : Z) : Completion TypedArray :=
  if offset <? 0 then Throw (RangeError "offset is out of bounds")
  else if negb (offset mod 2 =? 0) then
    Throw (RangeError "start offset of Int16Array should be a multiple of 2")
  else if negb (byteLength b mod 2 =? 0) then
    Throw (RangeError "byte length of Int16Array should be a multiple of 2")
  else if byteLength b - offset <? 0 then
    Throw (RangeError "offset is out of bounds")
  else Normal {| buffer := b; byteOffset := offset;
                 ta_length := (byteLength b - offset) / 2 |}.

(** The samples of an [Int16Array], in index order. *)
Definition samples (a : TypedArray) : list Z :=
  omap (fun i => i16 a (Z.of_nat i)) (seq 0 (Z.to_nat (ta_length a))).

(** ** The data-set interface of the dicom-parser package

    [dicomParser] is a dependency of the viewer, not part of it.  A parsed
    [DataSet] keeps the payload ([byteArray]) and a table from tag to
    element ([elements]); an element records where its value lies in the
    payload.  The accessors follow the package's little-endian byte-array
    parser: they answer [undefined] for a tag that is absent or has an empty
    value, and otherwise decode the value at the element's offset, throwing
    when that would read beyond the payload. *)
Module dicomParser.

Record Element : Type := mkElement {
  dataOffset : Z;
  el_length : Z;
}.

Record DataSet : Type := mkDataSet {
  byteArray : TypedArray;
  elements : gmap string Element;
}.

Definition readUint16 (a : TypedArray) (position : Z) : Completion Z :=
  if position <? 0 then Throw (Thrown "readUint16: position cannot be less than 0")
  else if ta_length a <? position + 2 then
    Throw (Thrown "readUint16: attempt to read past end of buffer")
  else Normal (u8 a position + u8 a (position + 1) * 256).

Definition readInt16 (a : TypedArray) (position : Z) : Completion Z :=
  if position <? 0 then Throw (Thrown "readInt16: position cannot be less than 0")
  else if ta_length a <? position + 2 then
    Throw (Thrown "readInt16: attempt to read past end of buffer")
  else Normal (to_int16 (u8 a position + Z.shiftl (u8 a (position + 1)) 8)).

(** Characters of the value up to its length or the first NUL byte. *)
Fixpoint fixedChars (a : TypedArray) (position : Z) (n : nat) : string :=
  match n with
  | O => ""
  | S n' =>
      let byte := u8 a position in
      if byte =? 0 then ""
      else String (ascii_of_nat (Z.to_nat byte)) (fixedChars a (position + 1) n')
  end.

Definition readFixedString (a : TypedArray) (position len : Z) : Completion string :=
  if len <? 0 then Throw (Thrown "readFixedString: length cannot be less than 0")
  else if ta_length a <? position + len then
    Throw (Thrown "readFixedString: attempt to read past end of buffer")
  else Normal (fixedChars a position (Z.to_nat len)).

(** White space of [String.prototype.trim] among the characters a byte
    can give: TAB, LF, VT, FF, CR, space and no-break space. *)
Definition isWhiteSpace (c : ascii) : bool :=
  let n := Z.of_nat (nat_of_ascii c) in
  ((9 <=? n) && (n <=? 13)) || (n =? 32) || (n =? 160).

Fixpoint trimStart (s : string) : string :=
  match s with
  | String c s' => if isWhiteSpace c then trimStart s' else s
  | EmptyString => EmptyString
  end.

Definition trim (s : string) : string :=
  String.rev (trimStart (String.rev (trimStart s))).

Definition uint16 (dataSet : DataSet) (tag : string) : Completion (option Z) :=
  match elements dataSet !! tag with
  | Some element =>
      if el_length element =? 0 then Normal None
      else v ← readUint16 (byteArray dataSet) (dataOffset element); Normal (Some v)
  | None => Normal None
  end.

Definition int16 (dataSet : DataSet) (tag : string) : Completion (option Z) :=
  match elements dataSet !! tag with
  | Some element =>
      if el_length element =? 0 then Normal None
      else v ← readInt16 (byteArray dataSet) (dataOffset element); Normal (Some v)
  | None => Normal None
  end.

Definition string (dataSet : DataSet) (tag : String.string)
  : Completion (option String.string) :=
  match elements dataSet !! tag with
  | Some element =>
      if 0 <? el_length element then
        fixedString ← readFixedString (byteArray dataSet) (dataOffset element)
                                      (el_length element);
        Normal (Some (trim fixedString))
      else Normal None
  | None => Normal None
  end.

End dicomParser.

(** ** dicomImageLoader.js: configuration *)

(** [String.prototype.replace] with a string pattern: the first occurrence
    of [pat] in [s] is replaced by [rep]. *)
Fixpoint replace (pat rep s : string) : string :=
  if String.prefix pat s then rep +:+ String.substring (String.length pat)
                                        (String.length s - String.length pat) s
  else match s with
       | EmptyString => EmptyString
       | String c s' => String c (replace pat rep s')
       end.

(** [Object.assign(target, source1, source2)]: the properties of [source1],
    then those of [source2], are written over [target]. *)
Definition Object_assign (target source1 source2 : gmap string bool)
  : gmap string bool :=
  source2 ∪ (source1 ∪ target).

Definition defaultConfig : gmap string bool :=
  {[ "useWebworkersToFetch" := false ]}.

(** [const config = Object.assign({}, defaultConfig)]. *)
Definition initialConfig : gmap string bool :=
  Object_assign ∅ defaultConfig ∅.

(** [configure(newConfig)], on the module's [config] object. *)
Definition configure (newConfig config : gmap string bool) : gmap string bool :=
  Object_assign config defaultConfig newConfig.

(** The test [if (config.useWebworkersToFetch)]: a missing property reads
    as [undefined], which is falsy. *)
Definition truthy (v : option bool) : bool :=
  match v with
  | Some true => true
  | _ => false
  end.

(** ** dicomImageLoader.js: the decoder *)

(** The cornerstone image object built by [createImageObjectFromDicom].
    [getPixelData] is the view the closure of that name returns. *)
Record Image : Type := mkImage {
  imageId : string;
  minPixelValue : option Z;
  maxPixelValue : option Z;
  slope : Number;
  intercept : Number;
  windowCenter : Number;
  windowWidth : Number;
  getPixelData : TypedArray;
  rows : option Z;
  columns : option Z;
  height : option Z;
  width : option Z;
  color : bool;
  columnPixelSpacing : Number;
  rowPixelSpacing : Number;
  invert : bool;
  sizeInBytes : Number;
}.

(** The indices [1 .. pixelData.length - 1] the two scanning loops visit. *)
Definition scanIndices (pixelData : TypedArray) : list Z :=
  Z.of_nat <$> seq 1 (Z.to_nat (ta_length pixelData) - 1).

(** [minPixelValue = pixelData[0]; for (i = 1; ...) if (pixelData[i] <
    minPixelValue) minPixelValue = pixelData[i]]. *)
Definition scanMin (pixelData : TypedArray) : option Z :=
  fold_left (fun minPixelValue i =>
               if js_lt (i16 pixelData i) minPixelValue then i16 pixelData i
               else minPixelValue)
            (scanIndices pixelData) (i16 pixelData 0).

(** The same loop with [pixelData[i] > maxPixelValue]. *)
Definition scanMax (pixelData : TypedArray) : option Z :=
  fold_left (fun maxPixelValue i =>
               if js_lt maxPixelValue (i16 pixelData i) then i16 pixelData i
               else maxPixelValue)
            (scanIndices pixelData) (i16 pixelData 0).

Section Decoder.

(** [dicomParser.parseDicom], the P10 parser of the dicom-parser package:
    it returns the data set of a payload or throws. *)
Variable parseDicom : TypedArray -> Completion dicomParser.DataSet.

Definition createImageObjectFromDicom (imageId : string)
    (dicomByteArray : TypedArray) : Completion Image :=
  dataSet ← parseDicom dicomByteArray;
  width ← dicomParser.uint16 dataSet "x00280011";
  height ← dicomParser.uint16 dataSet "x00280010";
  photoInterp ← dicomParser.string dataSet "x00280004";
  let invert := if js_eq_string photoInterp "MONOCHROME1" then true else false in
  let pixelDataElement := dicomParser.elements dataSet !! "x7fe00010" in
  dataOffset ← match pixelDataElement with
               | Some element => Normal (dicomParser.dataOffset element)
               | None => Throw (TypeError "Cannot read property 'dataOffset' of undefined")
               end;
  pixelData ← new_Int16Array (buffer (dicomParser.byteArray dataSet)) dataOffset;
  minPixelValue ← dicomParser.int16 dataSet "x00280106";
  let minPixelValue :=
    if js_not minPixelValue then scanMin pixelData else minPixelValue in
  maxPixelValue ← dicomParser.int16 dataSet "x00280107";
  let maxPixelValue :=
    if js_not maxPixelValue then scanMax pixelData else maxPixelValue in
  Normal {|
    imageId := imageId;
    minPixelValue := minPixelValue;
    maxPixelValue := maxPixelValue;
    slope := Num 1;
    intercept := Num 0;
    windowCenter :=
      num_div (num_add (ToNumber maxPixelValue) (ToNumber minPixelValue)) (Num 2);
    windowWidth := num_sub (ToNumber maxPixelValue) (ToNumber minPixelValue);
    getPixelData := pixelData;
    rows := height;
    columns := width;
    height := height;
    width := width;
    color := false;
    columnPixelSpacing := Num 1;
    rowPixelSpacing := Num 1;
    invert := invert;
    sizeInBytes := num_mul (ToNumber width) (ToNumber height);
  |}.

End Decoder.

(** ** dicomImageLoader.js: the image loader and its web workers *)

(** The message [loadImage] posts to a worker:
    [{action: 'fetchDicom', url: url}]. *)
Record Message : Type := mkMessage {
  action : string;
  url : string;
}.

(** The closure [(event) => { availableWebworkers.push(webworker); }] that
    one call of [loadImage] installs: [installedBy] is the promise of that
    call, [webworker] the worker the closure captured. *)
Record Handler : Type := mkHandler {
  installedBy : nat;
  webworker : nat;
}.

Inductive PromiseState : Type :=
| Pending
| Fulfilled (image : Image)
| Rejected (error : Exn).

(** The mutable state of the module and of the objects it creates:
    - [config] and [availableWebworkers], the module-level objects;
    - [workersCreated], how many times [new DicomWorker()] was evaluated
      (workers are named by their creation rank);
    - [onmessage], the [onmessage] property of each worker;
    - [posted], the messages posted to workers, oldest first;
    - [promises], the state of the promise of each call of [loadImage]
      (promises are named by the rank of the call);
    - [fetching], the calls of [api.fetchDicomFile] still in flight, by
      promise, with the [imageId] their continuation captured and the url
      they were given. *)
Record Loader : Type := mkLoader {
  config : gmap string bool;
  availableWebworkers : list nat;
  workersCreated : nat;
  onmessage : gmap nat Handler;
  posted : list (nat * Message);
  promises : list PromiseState;
  fetching : gmap nat (string * string);
}.

(** The module right after it was loaded. *)
Definition initialLoader : Loader :=
  {| config := initialConfig; availableWebworkers := [];
     workersCreated := 0%nat; onmessage := ∅; posted := [];
     promises := []; fetching := ∅ |}.

(** The state with its [config] object updated in place. *)
Definition withConfig (cfg : gmap string bool) (st : Loader) : Loader :=
  {| config := cfg; availableWebworkers := availableWebworkers st;
     workersCreated := workersCreated st; onmessage := onmessage st;
     posted := posted st; promises := promises st; fetching := fetching st |}.

(** [resolve(image)] and [reject(error)] of the promise [p]: a promise
    settles once, later calls do nothing. *)
Definition settle (p : nat) (outcome : PromiseState) (st : Loader) : Loader :=
  match promises st !! p with
  | Some Pending =>
      {| config := config st; availableWebworkers := availableWebworkers st;
         workersCreated := workersCreated st; onmessage := onmessage st;
         posted := posted st; promises := <[p := outcome]> (promises st);
         fetching := fetching st |}
  | _ => st
  end.

(** [availableWebworkers.length > 0 ? availableWebworkers.pop()
                                    : new DicomWorker()]:
    the worker obtained, the list and the creation count afterwards. *)
Definition acquireWebworker (st : Loader) : nat * list nat * nat :=
  if (0 <? List.length (availableWebworkers st))%nat then
    match last (availableWebworkers st) with
    | Some w => (w, removelast (availableWebworkers st), workersCreated st)
    | None => (workersCreated st, availableWebworkers st, S (workersCreated st))
    end
  else (workersCreated st, availableWebworkers st, S (workersCreated st)).

(** [loadImage(imageId)]: the promise it returns and the state after the
    promise's executor has run.  With [config.useWebworkersToFetch] the
    executor takes a worker, sets its [onmessage], posts the request and
    returns; otherwise it calls [api.fetchDicomFile(url)], whose outcome
    arrives later (see [step]). *)
Definition loadImage (imageId : string) (st : Loader) : nat * Loader :=
  let url := replace "dicomImageLoader" "https" imageId in
  let promise := List.length (promises st) in
  if truthy (config st !! "useWebworkersToFetch") then
    let '(webworker, available, created) := acquireWebworker st in
    (promise,
     {| config := config st; availableWebworkers := available;
        workersCreated := created;
        onmessage := <[webworker := mkHandler promise webworker]> (onmessage st);
        posted := posted st ++ [(webworker, mkMessage "fetchDicom" url)];
        promises := promises st ++ [Pending];
        fetching := fetching st |})
  else
    (promise,
     {| config := config st; availableWebworkers := availableWebworkers st;
        workersCreated := workersCreated st; onmessage := onmessage st;
        posted := posted st; promises := promises st ++ [Pending];
        fetching := <[promise := (imageId, url)]> (fetching st) |}).

(** The handler body: [availableWebworkers.push(webworker)]. *)
Definition runHandler (h : Handler) (st : Loader) : Loader :=
  {| config := config st;
     availableWebworkers := availableWebworkers st ++ [webworker h];
     workersCreated := workersCreated st; onmessage := onmessage st;
     posted := posted st; promises := promises st; fetching := fetching st |}.

(** What can happen to the module: its two exported functions are called,
    a worker delivers a message event, or a promise returned by
    [api.fetchDicomFile] settles. *)
Inductive Event : Type :=
| CallLoadImage (imageId : string)
| CallConfigure (newConfig : gmap string bool)
| WorkerMessage (w : nat)
| FetchResolved (promise : nat) (byteArray : TypedArray)
| FetchRejected (promise : nat) (error : Exn).

Section Loader.

Variable parseDicom : TypedArray -> Completion dicomParser.DataSet.

Definition endFetch (p : nat) (st : Loader) : Loader :=
  {| config := config st; availableWebworkers := availableWebworkers st;
     workersCreated := workersCreated st; onmessage := onmessage st;
     posted := posted st; promises := promises st;
     fetching := delete p (fetching st) |}.

Definition step (st : Loader) (ev : Event) : Loader :=
  match ev with
  | CallLoadImage imageId => snd (loadImage imageId st)
  | CallConfigure newConfig => withConfig (configure newConfig (config st)) st
  | WorkerMessage w =>
      match onmessage st !! w with
      | Some h => runHandler h st
      | None => st
      end
  | FetchResolved p byteArray =>
      (* .then((byteArray) => { resolve(createImageObjectFromDicom(..)) })
         .catch((error) => { reject(error) }) *)
      match fetching st !! p with
      | Some (imageId, _) =>
          match createImageObjectFromDicom parseDicom imageId byteArray with
          | Normal image => settle p (Fulfilled image) (endFetch p st)
          | Throw error => settle p (Rejected error) (endFetch p st)
          end
      | None => st
      end
  | FetchRejected p error =>
      match fetching st !! p with
      | Some _ => settle p (Rejected error) (endFetch p st)
      | None => st
      end
  end.

Definition run (st : Loader) (evs : list Event) : Loader :=
  fold_left step evs st.

End Loader.

(** Every call of [api.fetchDicomFile] in flight belongs to a promise that
    exists: an invariant of the states the module can reach. *)
Definition fetchesKnown (st : Loader) : Prop :=
  forall p, is_Some (fetching st !! p) -> (p < List.length (promises st))%nat.

(** The worker that [loadImage] would take in state [st]. *)
Definition acquired (st : Loader) : nat := fst (fst (acquireWebworker st)).

(** ** api.js: authenticated requests *)

Module api.

(** A fetch [Response]: its status and its body; [ok] is true for the
    statuses 200 to 299. *)
Record Response : Type := mkResponse {
  status : Z;
  body : string;
}.

Definition ok (response : Response) : bool :=
  (200 <=? status response) && (status response <=? 299).

(** What the function finds around it: the value of
    [auth.getAccessToken()] ([None] for [null] or [undefined]) and the
    outcome of [fetch(url, {headers})], a response or a rejection. *)
Record Env : Type := mkEnv {
  getAccessToken : option string;
  fetch : string -> string -> Completion Response;
}.

(** The effects of the function: how many times [auth.signInToGoogle()]
    was called, and the requests sent, as url and [Authorization] header. *)
Record World : Type := mkWorld {
  signIns : nat;
  requests : list (string * string);
}.

Definition signInToGoogle (w : World) : World :=
  {| signIns := S (signIns w); requests := requests w |}.

(** [if (accessToken)]: [null], [undefined] and the empty string are
    falsy. *)
Definition hasToken (accessToken : option string) : bool :=
  match accessToken with
  | Some t => negb (String.eqb t "")
  | None => false
  end.

(** [authenticatedFetch(url)]: the effects and how the returned promise
    settles, fulfilled with a response or [undefined] ([None]), or
    rejected. *)
Definition authenticatedFetch (env : Env) (url : string) (w : World)
  : World * Completion (option Response) :=
  let accessToken := getAccessToken env in
  if hasToken accessToken then
    let authorization := "Bearer " +:+ default "" accessToken in
    let w := {| signIns := signIns w;
                requests := requests w ++ [(url, authorization)] |} in
    match fetch env url authorization with
    | Normal response =>
        if negb (ok response) then
          if status response =? 401 then
            (signInToGoogle w, Normal (Some response))
          else (w, Throw (Error "[object Promise]"))
        else (w, Normal (Some response))
    | Throw error => (w, Throw error)
    end
  else (signInToGoogle w, Normal None).

End api.

(** ** Synthetic payloads

    Small payloads used to run the decoder.  Each is the byte content of a
    payload together with the data set a parser yields for it: the table
    says where the value of each tag lies.  Tags: [x00280010] rows,
    [x00280011] columns, [x00280004] photometric interpretation,
    [x00280106] and [x00280107] smallest and largest pixel value,
    [x7fe00010] pixel data. *)
Module Synthetic.
Import Byte.

Definition wholeBuffer (id : nat) (bytes : list byte) : TypedArray :=
  {| buffer := mkArrayBuffer id bytes; byteOffset := 0;
     ta_length := Z.of_nat (List.length bytes) |}.

(** Rows 2, columns 2, the given photometric interpretation (12 bytes),
    then the samples 10, 50, -5, 30 as the last 8 bytes. *)
Definition bytes2x2 (photometric : string) : list byte :=
  [x02; x00; x02; x00] ++ list_byte_of_string photometric
    ++ [x0a; x00; x32; x00; xfb; xff; x1e; x00].

Definition elements2x2 : gmap string dicomParser.Element :=
  {[ "x00280010" := dicomParser.mkElement 0 2;
     "x00280011" := dicomParser.mkElement 2 2;
     "x00280004" := dicomParser.mkElement 4 12;
     "x7fe00010" := dicomParser.mkElement 16 8 ]}.

Definition payload2x2 (photometric : string) : TypedArray :=
  wholeBuffer 1 (bytes2x2 photometric).

Definition dataSet2x2 (photometric : string) : dicomParser.DataSet :=
  dicomParser.mkDataSet (payload2x2 photometric) elements2x2.

(** The same payload read with a table that has no rows, columns or
    photometric interpretation: only the pixel data is found. *)
Definition dataSetPixelsOnly : dicomParser.DataSet :=
  dicomParser.mkDataSet (payload2x2 "MONOCHROME2 ")
    {[ "x7fe00010" := dicomParser.mkElement 16 8 ]}.

(** The same payload without its pixel data element. *)
Definition dataSetNoPixels : dicomParser.DataSet :=
  dicomParser.mkDataSet (payload2x2 "MONOCHROME2 ")
    {[ "x00280010" := dicomParser.mkElement 0 2;
       "x00280011" := dicomParser.mkElement 2 2;
       "x00280004" := dicomParser.mkElement 4 12 ]}.

(** Rows 4 and columns 4 declared, over a pixel data block of 8 bytes. *)
Definition payloadShort : TypedArray :=
  wholeBuffer 2 ([x04; x00; x04; x00] ++ list_byte_of_string "MONOCHROME2 "
                   ++ [x0a; x00; x32; x00; xfb; xff; x1e; x00]).

Definition dataSetShort : dicomParser.DataSet :=
  dicomParser.mkDataSet payloadShort elements2x2.



(** Rows 2, columns 2, smallest pixel value 0, largest pixel value 50,
    MONOCHROME2, and the samples 10, 50, 5, 30. *)
Definition payloadMinZero : TypedArray :=
  wholeBuffer 4 ([x02; x00; x02; x00; x00; x00; x32; x00]
                   ++ list_byte_of_string "MONOCHROME2 "
                   ++ [x0a; x00; x32; x00; x05; x00; x1e; x00]).

Definition dataSetMinZero : dicomParser.DataSet :=
  dicomParser.mkDataSet payloadMinZero
    {[ "x00280010" := dicomParser.mkElement 0 2;
       "x00280011" := dicomParser.mkElement 2 2;
       "x00280106" := dicomParser.mkElement 4 2;
       "x00280107" := dicomParser.mkElement 6 2;
       "x00280004" := dicomParser.mkElement 8 12;
       "x7fe00010" := dicomParser.mkElement 20 8 ]}.

End Synthetic.

(** ** A short session with one worker

    The module is configured to fetch through workers, loads a first
    image, and the worker then delivers its message.  No payload is decoded
    on the way, so the parser is one that rejects everything. *)
Module Session.

Definition noParser (byteArray : TypedArray) : Completion dicomParser.DataSet :=
  Throw (Thrown "dicomParser.parseDicom: not a DICOM P10 file").

Definition offloaded : Loader :=
  step noParser initialLoader
       (CallConfigure {[ "useWebworkersToFetch" := true;
                         "useWebworkersToParse" := true ]}).

Definition busy : Loader :=
  step noParser offloaded (CallLoadImage "dicomImageLoader://store/instances/1").

Definition idle : Loader := step noParser busy (WorkerMessage 0%nat).

End Session.

(** ** Workers that answer once

    The worker script is not part of the loader; the discipline it is
    meant to follow is that a worker delivers one message per request.  A
    message is then only ever delivered by a worker that is out, that is,
    created and not in [availableWebworkers]. *)
Definition answersRequest (st : Loader) (ev : Event) : Prop :=
  match ev with
  | WorkerMessage w => (w < workersCreated st)%nat /\ w ∉ availableWebworkers st
  | _ => True
  end.

Section Discipline.

Variable parseDicom : TypedArray -> Completion dicomParser.DataSet.

(** Every event of the sequence respects the discipline in the state it
    meets. *)
Fixpoint wellBehaved (st : Loader) (evs : list Event) : Prop :=
  match evs with
  | [] => True
  | ev :: evs' => answersRequest st ev /\ wellBehaved (step parseDicom st ev) evs'
  end.

End Discipline.

(** The worker list holds each worker at most once and only workers that
    were created; every handler pushes back the worker it is installed on. *)
Definition poolOk (st : Loader) : Prop :=
  NoDup (availableWebworkers st)
  /\ (forall w, w ∈ availableWebworkers st -> (w < workersCreated st)%nat)
  /\ (forall w h, onmessage st !! w = Some h ->
                  webworker h = w /\ (w < workersCreated st)%nat).

(** Events that do not settle the fetch of promise [p]. *)
Definition notFetchOf (p : nat) (ev : Event) : Prop :=
  match ev with
  | FetchResolved q _ => q <> p
  | FetchRejected q _ => q <> p
  | _ => True
  end.

(** ** Payloads at the edge

    A payload whose pixel data element is empty and ends the buffer, and the
    2x2 payload with one more byte, which makes its length odd. *)
Module Edge.
Import Byte.

Definition payloadNoSamples : TypedArray :=
  Synthetic.wholeBuffer 5 ([x02; x00; x02; x00] ++ list_byte_of_string "MONOCHROME2 ").

Definition dataSetNoSamples : dicomParser.DataSet :=
  dicomParser.mkDataSet payloadNoSamples
    {[ "x00280010" := dicomParser.mkElement 0 2;
       "x00280011" := dicomParser.mkElement 2 2;
       "x00280004" := dicomParser.mkElement 4 12;
       "x7fe00010" := dicomParser.mkElement 16 0 ]}.

Definition payloadOdd : TypedArray :=
  Synthetic.wholeBuffer 6 (Synthetic.bytes2x2 "MONOCHROME2 " ++ [x00]).

Definition dataSetOdd : dicomParser.DataSet :=
  dicomParser.mkDataSet payloadOdd Synthetic.elements2x2.

End Edge.

(** ** A session with two workers

    Three loads through workers: the second starts while the first is out,
    the third reuses the worker the first gave back. *)
Module Traffic.

Definition events : list Event :=
  [CallConfigure {[ "useWebworkersToFetch" := true; "useWebworkersToParse" := true ]};
   CallLoadImage "dicomImageLoader://store/instances/1";
   CallLoadImage "dicomImageLoader://store/instances/2";
   WorkerMessage 0%nat;
   CallLoadImage "dicomImageLoader://store/instances/3";
   WorkerMessage 1%nat].

End Traffic.
(** ** JSON values, as the viewer reads them

    A response body parsed by [response.json()].  A JavaScript value that
    may also be [undefined] is an [option Json]. *)
#[local] Unset Elimination Schemes.
Inductive Json : Type :=
| JNull
| JBool (b : bool)
| JNumber (q : Q)
| JString (s : string)
| JArray (items : list Json)
| JObject (fields : gmap string Json).
#[local] Set Elimination Schemes.

(** Truthiness: [undefined], [null], [false], [0] and the empty string are
    falsy, every array and object is truthy. *)
Definition truthyValue (v : option Json) : bool :=
  match v with
  | None | Some JNull => false
  | Some (JBool b) => b
  | Some (JNumber q) => negb (Qeq_bool q 0)
  | Some (JString s) => negb (String.eqb s "")
  | Some (JArray _) | Some (JObject _) => true
  end.

(** [v.k] for one of the property names the viewer reads from a body
    ([nextPageToken], [projects], [projectId], [locations], [locationId],
    [datasets], [dicomStores], [name], the DICOM tags, [Value],
    [Alphabetic]): none of them is a built-in property of a string, a
    number, a boolean or an array, so only an object can have it; reading a
    property of [undefined] or [null] throws. *)
Definition getProp (v : option Json) (k : string) : Completion (option Json) :=
  match v with
  | None => Throw (TypeError ("Cannot read property '" +:+ k +:+ "' of undefined"))
  | Some JNull => Throw (TypeError ("Cannot read property '" +:+ k +:+ "' of null"))
  | Some (JObject fields) => Normal (fields !! k)
  | Some _ => Normal None
  end.

(** The characters of a string, each as a string. *)
Fixpoint characters (s : string) : list Json :=
  match s with
  | EmptyString => []
  | String c s' => JString (String c EmptyString) :: characters s'
  end.

(** [...v] inside an array literal: an array gives its items, a string its
    characters, anything else is not iterable. *)
Definition spread (v : option Json) : Completion (list Json) :=
  match v with
  | Some (JArray items) => Normal items
  | Some (JString s) => Normal (characters s)
  | _ => Throw (TypeError "value is not iterable")
  end.

(** Left-to-right application of a callback that may throw: the first
    throw ends the loop. *)
Fixpoint mapCompletion {A B : Type} (f : A -> Completion B) (l : list A)
  : Completion (list B) :=
  match l with
  | [] => Normal []
  | x :: l' => y ← f x; ys ← mapCompletion f l'; Normal (y :: ys)
  end.

(** [v.map(f)]: only an array has a [map] method. *)
Definition callMap {B : Type} (v : option Json) (f : Json -> Completion B)
  : Completion (list B) :=
  match v with
  | Some (JArray items) => mapCompletion f items
  | None => Throw (TypeError "Cannot read property 'map' of undefined")
  | Some JNull => Throw (TypeError "Cannot read property 'map' of null")
  | Some _ => Throw (TypeError "map is not a function")
  end.

(** [s.split(sep)] for a separator of one character. *)
Fixpoint split (sep : ascii) (s : string) : list string :=
  match s with
  | EmptyString => [EmptyString]
  | String c s' =>
      if Ascii.eqb c sep then EmptyString :: split sep s'
      else match split sep s' with
           | part :: parts => String c part :: parts
           | [] => [String c EmptyString]
           end
  end.

(** [v.split('/')]: only a string has a [split] method. *)
Definition callSplit (v : option Json) : Completion (list string) :=
  match v with
  | Some (JString s) => Normal (split "/" s)
  | None => Throw (TypeError "Cannot read property 'split' of undefined")
  | Some JNull => Throw (TypeError "Cannot read property 'split' of null")
  | Some _ => Throw (TypeError "split is not a function")
  end.

(** ** api.js: the listing requests *)

Module apiLists.

Definition CLOUD_RESOURCE_MANAGER_API_BASE : string :=
  "https://cloudresourcemanager.googleapis.com".
Definition HEALTHCARE_API_BASE : string := "https://healthcare.googleapis.com".
Definition HEALTHCARE_BETA_API_BASE : string :=
  "https://content-healthcare.googleapis.com".

(** [name.split('/').slice(-1)[0]]: the last part, [undefined] if there
    were none. *)
Definition lastPart (v : option Json) : Completion (option string) :=
  parts ← callSplit v; Normal (last parts).

Section Requests.

(** The surroundings of [authenticatedFetch], the body [response.json()]
    yields (a rejection when the body is not JSON), and the string a
    template literal makes of a value. *)
Variable env : api.Env.
Variable json : api.Response -> Completion Json.
Variable ToString : Json -> string.

(** [await response.json()] on what [authenticatedFetch] returned. *)
Definition bodyOf (response : option api.Response) : Completion Json :=
  match response with
  | Some r => json r
  | None => Throw (TypeError "Cannot read property 'json' of undefined")
  end.

(** A request followed by the reading of its body. *)
Definition fetchBody (url : string) (w : api.World) : api.World * Completion Json :=
  match api.authenticatedFetch env url w with
  | (w', Normal response) => (w', bodyOf response)
  | (w', Throw e) => (w', Throw e)
  end.

Definition projectsEndpoint (pageToken : option Json) : string :=
  "/v1/projects" +:+
  (if truthyValue pageToken
   then "?pageToken=" +:+ match pageToken with
                          | Some token => ToString token
                          | None => "undefined"
                          end
   else "").

(** [fetchProjects(pageToken, projects)].  The function calls itself for
    as long as the bodies carry a [nextPageToken]; [fuel] bounds the number
    of calls and [None] means that the bound was reached. *)
Fixpoint fetchProjects (fuel : nat) (pageToken projects : option Json) (w : api.World)
  : option (api.World * Completion (list (option Json))) :=
  match fuel with
  | O => None
  | S fuel' =>
      match fetchBody (CLOUD_RESOURCE_MANAGER_API_BASE +:+ projectsEndpoint pageToken) w with
      | (w', Throw e) => Some (w', Throw e)
      | (w', Normal data) =>
          match getProp (Some data) "nextPageToken" with
          | Throw e => Some (w', Throw e)
          | Normal nextPageToken =>
              if truthyValue nextPageToken then
                if truthyValue projects then
                  match (before ← spread projects;
                         page ← getProp (Some data) "projects";
                         more ← spread page;
                         Normal (before ++ more)) with
                  | Normal all => fetchProjects fuel' nextPageToken (Some (JArray all)) w'
                  | Throw e => Some (w', Throw e)
                  end
                else
                  match getProp (Some data) "projects" with
                  | Normal page => fetchProjects fuel' nextPageToken page w'
                  | Throw e => Some (w', Throw e)
                  end
              else
                Some (w',
                      if truthyValue projects then
                        before ← spread projects;
                        page ← getProp (Some data) "projects";
                        more ← spread page;
                        mapCompletion (fun project => getProp (Some project) "projectId")
                                      (before ++ more)
                      else
                        page ← getProp (Some data) "projects";
                        callMap page (fun project => getProp (Some project) "projectId"))
          end
      end
  end.

Definition fetchLocations (projectId : string) (w : api.World)
  : api.World * Completion (list (option Json)) :=
  let endpoint := "/v1beta1/projects/" +:+ projectId +:+ "/locations" in
  match fetchBody (HEALTHCARE_BETA_API_BASE +:+ endpoint) w with
  | (w', Normal data) =>
      (w', locations ← getProp (Some data) "locations";
           callMap locations (fun location => getProp (Some location) "locationId"))
  | (w', Throw e) => (w', Throw e)
  end.

Definition fetchDatasets (projectId location : string) (w : api.World)
  : api.World * Completion (list (option string)) :=
  let endpoint := "/v1/projects/" +:+ projectId +:+ "/locations/" +:+ location
                  +:+ "/datasets" in
  match fetchBody (HEALTHCARE_API_BASE +:+ endpoint) w with
  | (w', Normal data) =>
      (w', datasets ← getProp (Some data) "datasets";
           callMap datasets (fun dataset => name ← getProp (Some dataset) "name";
                                            lastPart name))
  | (w', Throw e) => (w', Throw e)
  end.

Definition fetchDicomStores (projectId location dataset : string) (w : api.World)
  : api.World * Completion (list (option string)) :=
  let endpoint := "/v1/projects/" +:+ projectId +:+ "/locations/" +:+ location
                  +:+ "/datasets/" +:+ dataset +:+ "/dicomStores" in
  match fetchBody (HEALTHCARE_API_BASE +:+ endpoint) w with
  | (w', Normal data) =>
      (w', dicomStores ← getProp (Some data) "dicomStores";
           callMap dicomStores (fun dicomStore => name ← getProp (Some dicomStore) "name";
                                                  lastPart name))
  | (w', Throw e) => (w', Throw e)
  end.

Definition fetchStudies (projectId location dataset dicomStore : string)
    (w : api.World) : api.World * Completion Json :=
  let endpoint := "/v1/projects/" +:+ projectId +:+ "/locations/" +:+ location
                  +:+ "/datasets/" +:+ dataset +:+ "/dicomStores/" +:+ dicomStore
                  +:+ "/dicomWeb/studies" in
  fetchBody (HEALTHCARE_API_BASE +:+ endpoint) w.

Definition fetchSeries (projectId location dataset dicomStore studyId : string)
    (w : api.World) : api.World * Completion Json :=
  let endpoint := "/v1/projects/" +:+ projectId +:+ "/locations/" +:+ location
                  +:+ "/datasets/" +:+ dataset +:+ "/dicomStores/" +:+ dicomStore
                  +:+ "/dicomWeb/studies/" +:+ studyId +:+ "/series" in
  fetchBody (HEALTHCARE_API_BASE +:+ endpoint) w.

End Requests.

End apiLists.

(** The parts of a string put together again, with the separator between
    them. *)
Fixpoint joinParts (sep : ascii) (parts : list string) : string :=
  match parts with
  | [] => EmptyString
  | [part] => part
  | part :: rest => part +:+ String sep (joinParts sep rest)
  end.

(** A string in which the separator does not occur. *)
Definition free_of (sep : ascii) (s : string) : Prop :=
  forall before rest, s <> before +:+ String sep rest.

(** The projects listing as the Resource Manager serves it: the pages that
    follow one another from a page token on, each body an object with a
    [projects] array, every [nextPageToken] but the last truthy. *)
Section Pages.

Variable env : api.Env.
Variable json : api.Response -> Completion Json.
Variable ToString : Json -> string.

Inductive Paged : option Json -> list (list Json) -> Prop :=
| Paged_last (pageToken : option Json) (r : api.Response)
    (fields : gmap string Json) (items : list Json) :
    api.fetch env (apiLists.CLOUD_RESOURCE_MANAGER_API_BASE
                   +:+ apiLists.projectsEndpoint ToString pageToken)
              ("Bearer " +:+ default "" (api.getAccessToken env)) = Normal r ->
    api.ok r = true ->
    json r = Normal (JObject fields) ->
    truthyValue (fields !! "nextPageToken") = false ->
    fields !! "projects" = Some (JArray items) ->
    Paged pageToken [items]
| Paged_more (pageToken : option Json) (r : api.Response)
    (fields : gmap string Json) (items : list Json) (rest : list (list Json)) :
    api.fetch env (apiLists.CLOUD_RESOURCE_MANAGER_API_BASE
                   +:+ apiLists.projectsEndpoint ToString pageToken)
              ("Bearer " +:+ default "" (api.getAccessToken env)) = Normal r ->
    api.ok r = true ->
    json r = Normal (JObject fields) ->
    truthyValue (fields !! "nextPageToken") = true ->
    fields !! "projects" = Some (JArray items) ->
    Paged (fields !! "nextPageToken") rest ->
    Paged pageToken (items :: rest).

End Pages.

(** A catalog of two pages of projects, for a signed-in user. *)
Module Catalog.

Definition project (id : string) : Json := JObject {[ "projectId" := JString id ]}.

Definition page1 : Json :=
  JObject {[ "projects" := JArray [project "alpha"; project "beta"];
             "nextPageToken" := JString "p2" ]}.

Definition page2 : Json := JObject {[ "projects" := JArray [project "gamma"] ]}.

Definition datasets : Json :=
  JObject {[ "datasets" :=
               JArray [JObject {[ "name" :=
                          JString "projects/alpha/locations/us/datasets/chest" ]};
                       JObject {[ "name" := JString "knee" ]}] ]}.

Definition unauthorized : Json :=
  JObject {[ "error" := JObject {[ "status" := JString "UNAUTHENTICATED" ]} ]}.

(** The server: the two pages of projects, the datasets of one location,
    and 401 for everything else. *)
Definition fetch (url authorization : string) : Completion api.Response :=
  if String.eqb url "https://cloudresourcemanager.googleapis.com/v1/projects"
  then Normal (api.mkResponse 200 "page1")
  else if String.eqb url
            "https://cloudresourcemanager.googleapis.com/v1/projects?pageToken=p2"
  then Normal (api.mkResponse 200 "page2")
  else if String.eqb url
            "https://healthcare.googleapis.com/v1/projects/alpha/locations/us/datasets"
  then Normal (api.mkResponse 200 "datasets")
  else Normal (api.mkResponse 401 "unauthorized").

Definition json (response : api.Response) : Completion Json :=
  if String.eqb (api.body response) "page1" then Normal page1
  else if String.eqb (api.body response) "page2" then Normal page2
  else if String.eqb (api.body response) "datasets" then Normal datasets
  else if String.eqb (api.body response) "unauthorized" then Normal unauthorized
  else Throw (Error "SyntaxError: Unexpected token in JSON").

Definition ToString (v : Json) : string :=
  match v with
  | JString s => s
  | JNull => "null"
  | JBool true => "true"
  | JBool false => "false"
  | _ => "[object Object]"
  end.

Definition signedIn : api.Env := api.mkEnv (Some "token") fetch.
Definition signedOut : api.Env := api.mkEnv None fetch.

Definition start : api.World := api.mkWorld 0 [].

End Catalog.

(** The [Authorization] header of a request and the effects of one request
    that did not lead to a sign-in. *)
Definition authorizationOf (env : api.Env) : string :=
  "Bearer " +:+ default "" (api.getAccessToken env).

Definition afterRequest (env : api.Env) (url : string) (w : api.World) : api.World :=
  {| api.signIns := api.signIns w;
     api.requests := api.requests w ++ [(url, authorizationOf env)] |}.

(** What [project => project.projectId] (and the like) gives for an item
    that is not [null]. *)
Definition propertyOf (k : string) (item : Json) : option Json :=
  match item with
  | JObject fields => fields !! k
  | _ => None
  end.

(** A catalog with nothing in it: every request is answered 200 with the
    body [{}]. *)
Module EmptyCatalog.

Definition fetch (url authorization : string) : Completion api.Response :=
  Normal (api.mkResponse 200 "{}").

Definition json (response : api.Response) : Completion Json := Normal (JObject ∅).

Definition signedIn : api.Env := api.mkEnv (Some "token") fetch.

End EmptyCatalog.

(** [v[0]]: the first item of an array, the first character of a string,
    the property [0] of an object; reading it from [undefined] or [null]
    throws. *)
Definition getFirst (v : option Json) : Completion (option Json) :=
  match v with
  | None => Throw (TypeError "Cannot read property '0' of undefined")
  | Some JNull => Throw (TypeError "Cannot read property '0' of null")
  | Some (JArray items) => Normal (head items)
  | Some (JString s) => Normal (head (characters s))
  | Some (JObject fields) => Normal (fields !! "0")
  | Some _ => Normal None
  end.

(** ** components/viewer.js: the viewer component *)

Module viewer.

(** The result of [count / total * 100]. *)
Inductive Progress : Type :=
| ProgressNaN
| ProgressInfinity
| ProgressOf (q : Q).

Definition percent (count total : nat) : Progress :=
  match total, count with
  | O, O => ProgressNaN
  | O, S _ => ProgressInfinity
  | S _, _ => ProgressOf (Qred (inject_Z (Z.of_nat count) / inject_Z (Z.of_nat total) * 100))
  end.

(** [this.state]. *)
Record State : Type := mkState {
  instances : list Json;
  numReadyImages : nat;
  readyImagesProgress : Progress;
  numRenderedImages : nat;
  renderedImagesProgress : Progress;
  renderTimer : Z;
  fetchTimer : Z;
  totalTimer : Z;
  timeToFirstImage : Z;
  maxSimultaneousRequests : Number;
  useWebworkersToFetch : bool;
  useWebworkersToParse : bool;
  isDisplaying : bool;
}.

(** The arguments [getInstances] gives to [api.fetchMetadata]. *)
Record MetadataRequest : Type := mkMetadataRequest {
  req_project : string;
  req_location : string;
  req_dataset : string;
  req_dicomStore : string;
  req_study : option Json;
  req_series : option Json;
}.

(** The component and what it acts on.  Its own fields: [state] and the
    instance properties of the constructor.  Around it: the images handed
    to [cornerstone.displayImage], oldest first ([displayed]); the [config]
    object of the image loader ([loaderConfig]); the number of cache purges;
    the runs started on the sequencer, each with the request limit and the
    instances it was given; the intervals that are set and the number of
    intervals ever set (an interval is named by its rank, from 1); whether
    the canvas listens for rendered images; the metadata request of
    [getInstances] and whether it is still awaited. *)
Record Viewer : Type := mkViewer {
  state : State;
  readyImages : list Image;
  readyImagesCount : nat;
  newSequence : bool;
  fetchStartTime : Z;
  renderStartTime : Z;
  renderedImagesCount : nat;
  metricsIntervalId : nat;
  displayed : list Image;
  loaderConfig : gmap string bool;
  cachePurges : nat;
  sequencerRuns : list (Number * list Json);
  intervals : gset nat;
  intervalsSet : nat;
  listening : bool;
  metadataRequest : option MetadataRequest;
  metadataAwaited : bool;
}.

(** The constructor, next to the loader module as it is when loaded. *)
Definition constructed : Viewer :=
  {| state := {| instances := []; numReadyImages := 0; readyImagesProgress := ProgressOf 0;
                 numRenderedImages := 0; renderedImagesProgress := ProgressOf 0;
                 renderTimer := 0; fetchTimer := 0; totalTimer := 0;
                 timeToFirstImage := 0; maxSimultaneousRequests := Num 20;
                 useWebworkersToFetch := true; useWebworkersToParse := true;
                 isDisplaying := false |};
     readyImages := []; readyImagesCount := 0; newSequence := false;
     fetchStartTime := 0; renderStartTime := 0; renderedImagesCount := 0;
     metricsIntervalId := 0;
     displayed := []; loaderConfig := initialConfig; cachePurges := 0;
     sequencerRuns := []; intervals := ∅; intervalsSet := 0; listening := false;
     metadataRequest := None; metadataAwaited := false |}.

Definition setState (f : State -> State) (v : Viewer) : Viewer :=
  {| state := f (state v);
     readyImages := readyImages v; readyImagesCount := readyImagesCount v;
     newSequence := newSequence v; fetchStartTime := fetchStartTime v;
     renderStartTime := renderStartTime v;
     renderedImagesCount := renderedImagesCount v;
     metricsIntervalId := metricsIntervalId v; displayed := displayed v;
     loaderConfig := loaderConfig v; cachePurges := cachePurges v;
     sequencerRuns := sequencerRuns v; intervals := intervals v;
     intervalsSet := intervalsSet v; listening := listening v;
     metadataRequest := metadataRequest v; metadataAwaited := metadataAwaited v |}.

(** [displayNextImage()]. *)
Definition displayNextImage (v : Viewer) : Viewer :=
  match readyImages v with
  | image :: rest =>
      {| state := state v; readyImages := rest;
         readyImagesCount := readyImagesCount v; newSequence := newSequence v;
         fetchStartTime := fetchStartTime v; renderStartTime := renderStartTime v;
         renderedImagesCount := renderedImagesCount v;
         metricsIntervalId := metricsIntervalId v;
         displayed := displayed v ++ [image];
         loaderConfig := loaderConfig v; cachePurges := cachePurges v;
         sequencerRuns := sequencerRuns v; intervals := intervals v;
         intervalsSet := intervalsSet v; listening := listening v;
         metadataRequest := metadataRequest v; metadataAwaited := metadataAwaited v |}
  | [] =>
      {| state := state v; readyImages := [];
         readyImagesCount := readyImagesCount v; newSequence := true;
         fetchStartTime := fetchStartTime v; renderStartTime := renderStartTime v;
         renderedImagesCount := renderedImagesCount v;
         metricsIntervalId := metricsIntervalId v; displayed := displayed v;
         loaderConfig := loaderConfig v; cachePurges := cachePurges v;
         sequencerRuns := sequencerRuns v; intervals := intervals v;
         intervalsSet := intervalsSet v; listening := listening v;
         metadataRequest := metadataRequest v; metadataAwaited := metadataAwaited v |}
  end.

(** [onImageReady(image)]. *)
Definition onImageReady (image : Image) (v : Viewer) : Viewer :=
  let pushed :=
    {| state := state v; readyImages := readyImages v ++ [image];
       readyImagesCount := S (readyImagesCount v); newSequence := newSequence v;
       fetchStartTime := fetchStartTime v; renderStartTime := renderStartTime v;
       renderedImagesCount := renderedImagesCount v;
       metricsIntervalId := metricsIntervalId v; displayed := displayed v;
       loaderConfig := loaderConfig v; cachePurges := cachePurges v;
       sequencerRuns := sequencerRuns v; intervals := intervals v;
       intervalsSet := intervalsSet v; listening := listening v;
       metadataRequest := metadataRequest v; metadataAwaited := metadataAwaited v |} in
  if newSequence pushed then
    let shown := displayNextImage pushed in
    {| state := state shown; readyImages := readyImages shown;
       readyImagesCount := readyImagesCount shown; newSequence := false;
       fetchStartTime := fetchStartTime shown; renderStartTime := renderStartTime shown;
       renderedImagesCount := renderedImagesCount shown;
       metricsIntervalId := metricsIntervalId shown; displayed := displayed shown;
       loaderConfig := loaderConfig shown; cachePurges := cachePurges shown;
       sequencerRuns := sequencerRuns shown; intervals := intervals shown;
       intervalsSet := intervalsSet shown; listening := listening shown;
       metadataRequest := metadataRequest shown;
       metadataAwaited := metadataAwaited shown |}
  else pushed.

(** [updateMetrics()], with the two readings of the clock it takes. *)
Definition updateMetrics (now1 now2 : Z) (v : Viewer) : Viewer :=
  setState (fun s =>
    {| instances := instances s;
       numReadyImages := readyImagesCount v;
       readyImagesProgress := percent (readyImagesCount v) (List.length (instances s));
       numRenderedImages := renderedImagesCount v;
       renderedImagesProgress :=
         percent (renderedImagesCount v) (List.length (instances s));
       renderTimer := now1 - renderStartTime v;
       fetchTimer := fetchTimer s;
       totalTimer := now2 - fetchStartTime v;
       timeToFirstImage := timeToFirstImage s;
       maxSimultaneousRequests := maxSimultaneousRequests s;
       useWebworkersToFetch := useWebworkersToFetch s;
       useWebworkersToParse := useWebworkersToParse s;
       isDisplaying := isDisplaying s |}) v.

Definition withCount (count : nat) (v : Viewer) : Viewer :=
  {| state := state v; readyImages := readyImages v;
     readyImagesCount := readyImagesCount v; newSequence := newSequence v;
     fetchStartTime := fetchStartTime v; renderStartTime := renderStartTime v;
     renderedImagesCount := count;
     metricsIntervalId := metricsIntervalId v; displayed := displayed v;
     loaderConfig := loaderConfig v; cachePurges := cachePurges v;
     sequencerRuns := sequencerRuns v; intervals := intervals v;
     intervalsSet := intervalsSet v; listening := listening v;
     metadataRequest := metadataRequest v; metadataAwaited := metadataAwaited v |}.

Definition withRenderStart (t : Z) (v : Viewer) : Viewer :=
  {| state := state v; readyImages := readyImages v;
     readyImagesCount := readyImagesCount v; newSequence := newSequence v;
     fetchStartTime := fetchStartTime v; renderStartTime := t;
     renderedImagesCount := renderedImagesCount v;
     metricsIntervalId := metricsIntervalId v; displayed := displayed v;
     loaderConfig := loaderConfig v; cachePurges := cachePurges v;
     sequencerRuns := sequencerRuns v; intervals := intervals v;
     intervalsSet := intervalsSet v; listening := listening v;
     metadataRequest := metadataRequest v; metadataAwaited := metadataAwaited v |}.

(** [clearInterval(this.metricsIntervalId)]. *)
Definition clearMetricsInterval (v : Viewer) : Viewer :=
  {| state := state v; readyImages := readyImages v;
     readyImagesCount := readyImagesCount v; newSequence := newSequence v;
     fetchStartTime := fetchStartTime v; renderStartTime := renderStartTime v;
     renderedImagesCount := renderedImagesCount v;
     metricsIntervalId := metricsIntervalId v; displayed := displayed v;
     loaderConfig := loaderConfig v; cachePurges := cachePurges v;
     sequencerRuns := sequencerRuns v;
     intervals := intervals v ∖ {[ metricsIntervalId v ]};
     intervalsSet := intervalsSet v; listening := listening v;
     metadataRequest := metadataRequest v; metadataAwaited := metadataAwaited v |}.

Definition setTimeToFirstImage (t : Z) (s : State) : State :=
  {| instances := instances s; numReadyImages := numReadyImages s;
     readyImagesProgress := readyImagesProgress s;
     numRenderedImages := numRenderedImages s;
     renderedImagesProgress := renderedImagesProgress s;
     renderTimer := renderTimer s; fetchTimer := fetchTimer s;
     totalTimer := totalTimer s; timeToFirstImage := t;
     maxSimultaneousRequests := maxSimultaneousRequests s;
     useWebworkersToFetch := useWebworkersToFetch s;
     useWebworkersToParse := useWebworkersToParse s;
     isDisplaying := isDisplaying s |}.

Definition setIsDisplaying (b : bool) (s : State) : State :=
  {| instances := instances s; numReadyImages := numReadyImages s;
     readyImagesProgress := readyImagesProgress s;
     numRenderedImages := numRenderedImages s;
     renderedImagesProgress := renderedImagesProgress s;
     renderTimer := renderTimer s; fetchTimer := fetchTimer s;
     totalTimer := totalTimer s; timeToFirstImage := timeToFirstImage s;
     maxSimultaneousRequests := maxSimultaneousRequests s;
     useWebworkersToFetch := useWebworkersToFetch s;
     useWebworkersToParse := useWebworkersToParse s;
     isDisplaying := b |}.

(** [onImageRendered()], with the (at most two) readings of the clock. *)
Definition onImageRendered (now1 now2 : Z) (v : Viewer) : Viewer :=
  let v := withCount (S (renderedImagesCount v)) v in
  let v :=
    if (renderedImagesCount v =? 1)%nat then
      let v := withRenderStart now1 v in
      setState (setTimeToFirstImage (now2 - fetchStartTime v)) v
    else if (renderedImagesCount v =? List.length (instances (state v)))%nat then
      let v := clearMetricsInterval v in
      let v := updateMetrics now1 now2 v in
      setState (setIsDisplaying false) v
    else v in
  displayNextImage v.

Definition resetMetrics (s : State) : State :=
  {| instances := instances s; numReadyImages := 0;
     readyImagesProgress := ProgressOf 0; numRenderedImages := 0;
     renderedImagesProgress := ProgressOf 0;
     renderTimer := 0; fetchTimer := 0; totalTimer := 0; timeToFirstImage := 0;
     maxSimultaneousRequests := maxSimultaneousRequests s;
     useWebworkersToFetch := useWebworkersToFetch s;
     useWebworkersToParse := useWebworkersToParse s;
     isDisplaying := true |}.

(** [startDisplayingInstances()], with the reading of the clock. *)
Definition startDisplayingInstances (now : Z) (v : Viewer) : Viewer :=
  {| state := resetMetrics (state v);
     readyImages := []; readyImagesCount := 0; newSequence := true;
     fetchStartTime := now; renderStartTime := renderStartTime v;
     renderedImagesCount := 0;
     metricsIntervalId := S (intervalsSet v);
     displayed := displayed v; loaderConfig := loaderConfig v;
     cachePurges := S (cachePurges v);
     sequencerRuns := sequencerRuns v
                      ++ [(maxSimultaneousRequests (state v), instances (state v))];
     intervals := intervals v ∪ {[ S (intervalsSet v) ]};
     intervalsSet := S (intervalsSet v); listening := listening v;
     metadataRequest := metadataRequest v; metadataAwaited := metadataAwaited v |}.

Definition withLoaderConfig (cfg : gmap string bool) (v : Viewer) : Viewer :=
  {| state := state v; readyImages := readyImages v;
     readyImagesCount := readyImagesCount v; newSequence := newSequence v;
     fetchStartTime := fetchStartTime v; renderStartTime := renderStartTime v;
     renderedImagesCount := renderedImagesCount v;
     metricsIntervalId := metricsIntervalId v; displayed := displayed v;
     loaderConfig := cfg; cachePurges := cachePurges v;
     sequencerRuns := sequencerRuns v; intervals := intervals v;
     intervalsSet := intervalsSet v; listening := listening v;
     metadataRequest := metadataRequest v; metadataAwaited := metadataAwaited v |}.

Definition setFlags (fetchFlag parseFlag : bool) (s : State) : State :=
  {| instances := instances s; numReadyImages := numReadyImages s;
     readyImagesProgress := readyImagesProgress s;
     numRenderedImages := numRenderedImages s;
     renderedImagesProgress := renderedImagesProgress s;
     renderTimer := renderTimer s; fetchTimer := fetchTimer s;
     totalTimer := totalTimer s; timeToFirstImage := timeToFirstImage s;
     maxSimultaneousRequests := maxSimultaneousRequests s;
     useWebworkersToFetch := fetchFlag; useWebworkersToParse := parseFlag;
     isDisplaying := isDisplaying s |}.

(** [handleWebworkerFetchChecked(event)], for [event.target.checked]. *)
Definition handleWebworkerFetchChecked (checked : bool) (v : Viewer) : Viewer :=
  withLoaderConfig
    (configure {[ "useWebworkersToFetch" := checked;
                  "useWebworkersToParse" := useWebworkersToParse (state v) ]}
               (loaderConfig v))
    (setState (setFlags checked (useWebworkersToParse (state v))) v).

(** [handleWebworkerParseChecked(event)]. *)
Definition handleWebworkerParseChecked (checked : bool) (v : Viewer) : Viewer :=
  withLoaderConfig
    (configure {[ "useWebworkersToParse" := checked;
                  "useWebworkersToFetch" := useWebworkersToFetch (state v) ]}
               (loaderConfig v))
    (setState (setFlags (useWebworkersToFetch (state v)) checked) v).

Definition setMaxSimultaneousRequests (value : Number) (s : State) : State :=
  {| instances := instances s; numReadyImages := numReadyImages s;
     readyImagesProgress := readyImagesProgress s;
     numRenderedImages := numRenderedImages s;
     renderedImagesProgress := renderedImagesProgress s;
     renderTimer := renderTimer s; fetchTimer := fetchTimer s;
     totalTimer := totalTimer s; timeToFirstImage := timeToFirstImage s;
     maxSimultaneousRequests := value;
     useWebworkersToFetch := useWebworkersToFetch s;
     useWebworkersToParse := useWebworkersToParse s;
     isDisplaying := isDisplaying s |}.

Definition setInstances (l : list Json) (s : State) : State :=
  {| instances := l; numReadyImages := numReadyImages s;
     readyImagesProgress := readyImagesProgress s;
     numRenderedImages := numRenderedImages s;
     renderedImagesProgress := renderedImagesProgress s;
     renderTimer := renderTimer s; fetchTimer := fetchTimer s;
     totalTimer := totalTimer s; timeToFirstImage := timeToFirstImage s;
     maxSimultaneousRequests := maxSimultaneousRequests s;
     useWebworkersToFetch := useWebworkersToFetch s;
     useWebworkersToParse := useWebworkersToParse s;
     isDisplaying := isDisplaying s |}.

Definition withMetadata (listen : bool) (request : option MetadataRequest)
    (awaited : bool) (v : Viewer) : Viewer :=
  {| state := state v; readyImages := readyImages v;
     readyImagesCount := readyImagesCount v; newSequence := newSequence v;
     fetchStartTime := fetchStartTime v; renderStartTime := renderStartTime v;
     renderedImagesCount := renderedImagesCount v;
     metricsIntervalId := metricsIntervalId v; displayed := displayed v;
     loaderConfig := loaderConfig v; cachePurges := cachePurges v;
     sequencerRuns := sequencerRuns v; intervals := intervals v;
     intervalsSet := intervalsSet v; listening := listen;
     metadataRequest := request; metadataAwaited := awaited |}.

(** What the user and the surroundings do to the component: it is mounted
    and unmounted, the metadata request of [getInstances] is answered, the
    Start button is pressed, the sequencer delivers an image, the canvas
    reports a rendered image, the metrics interval fires, a checkbox or the
    request limit is changed.  The events that read the clock carry its
    readings. *)
Inductive Event : Type :=
| Mount
| Unmount
| InstancesLoaded (instances : list Json)
| Start (now : Z)
| ImageReady (image : Image)
| ImageRendered (now1 now2 : Z)
| MetricsTick (id : nat) (now1 now2 : Z)
| FetchChecked (checked : bool)
| ParseChecked (checked : bool)
| MaxRequestsChanged (value : Number).

Section Component.

(** The props of the component, and the two tag names of [DICOM_TAGS]
    (dicomValues.js) that [getInstances] reads. *)
Variable project location dataset dicomStore : string.
Variable study series : Json.
Variable STUDY_UID SERIES_UID : string.

(** The arguments of [api.fetchMetadata] in [getInstances]. *)
Definition getInstancesRequest : Completion MetadataRequest :=
  studyTag ← getProp (Some study) STUDY_UID;
  studyValue ← getProp studyTag "Value";
  studyUid ← getFirst studyValue;
  seriesTag ← getProp (Some series) SERIES_UID;
  seriesValue ← getProp seriesTag "Value";
  seriesUid ← getFirst seriesValue;
  Normal (mkMetadataRequest project location dataset dicomStore studyUid seriesUid).

(** [componentDidMount()]: when [getInstances] throws, the call of
    [dicomImageLoader.configure] after it is not reached. *)
Definition componentDidMount (v : Viewer) : Viewer :=
  match getInstancesRequest with
  | Normal request =>
      withLoaderConfig
        (configure {[ "useWebworkersToFetch" := useWebworkersToFetch (state v);
                      "useWebworkersToParse" := useWebworkersToParse (state v) ]}
                   (loaderConfig v))
        (withMetadata true (Some request) true v)
  | Throw _ => withMetadata true (metadataRequest v) (metadataAwaited v) v
  end.

Definition step (v : Viewer) (ev : Event) : Viewer :=
  match ev with
  | Mount => componentDidMount v
  | Unmount => withMetadata (listening v) (metadataRequest v) false v
  | InstancesLoaded l =>
      if metadataAwaited v
      then withMetadata (listening v) (metadataRequest v) false
             (setState (setInstances l) v)
      else v
  | Start now => startDisplayingInstances now v
  | ImageReady image => onImageReady image v
  | ImageRendered now1 now2 =>
      if listening v then onImageRendered now1 now2 v else v
  | MetricsTick id now1 now2 =>
      if decide (id ∈ intervals v) then updateMetrics now1 now2 v else v
  | FetchChecked checked => handleWebworkerFetchChecked checked v
  | ParseChecked checked => handleWebworkerParseChecked checked v
  | MaxRequestsChanged value => setState (setMaxSimultaneousRequests value) v
  end.

Definition run (v : Viewer) (evs : list Event) : Viewer := fold_left step evs v.

End Component.

(** The Start button is [disabled] when there is no instance or a sequence
    is being displayed. *)
Definition canStart (v : Viewer) : bool :=
  negb ((List.length (instances (state v)) =? 0)%nat || isDisplaying (state v)).

(** The images that a sequence of events delivers. *)
Definition delivered (evs : list Event) : list Image :=
  omap (fun ev => match ev with ImageReady image => Some image | _ => None end) evs.

(** The number of rendered images that a sequence of events reports. *)
Fixpoint renderings (evs : list Event) : nat :=
  match evs with
  | [] => 0
  | ImageRendered _ _ :: evs' => S (renderings evs')
  | _ :: evs' => renderings evs'
  end.

End viewer.

(** The canvas reports a rendered image only in answer to a
    [cornerstone.displayImage]: with [base] images displayed before the
    sequence of events and [reported] of the later ones reported so far,
    a report needs a displayed image that was not reported yet. *)
Fixpoint rendersAnswerDisplays (step : viewer.Viewer -> viewer.Event -> viewer.Viewer)
    (base reported : nat) (v : viewer.Viewer) (evs : list viewer.Event) : Prop :=
  match evs with
  | [] => True
  | viewer.ImageRendered now1 now2 :: evs' =>
      (base + reported < List.length (viewer.displayed v))%nat
      /\ rendersAnswerDisplays step base (S reported)
           (step v (viewer.ImageRendered now1 now2)) evs'
  | ev :: evs' => rendersAnswerDisplays step base reported (step v ev) evs'
  end.

(** After [shown] reports, [base + shown] displayed images were reported;
    one more is displayed exactly when [newSequence] is off, and nothing
    waits while [newSequence] is on. *)
Definition oneInFlight (base reported : nat) (v : viewer.Viewer) : Prop :=
  List.length (viewer.displayed v)
  = (base + reported + (if viewer.newSequence v then 0 else 1))%nat
  /\ (viewer.newSequence v = true -> viewer.readyImages v = [])
  /\ viewer.listening v = true.

(** Events other than a press on Start, and other than mounting. *)
Definition notStart (ev : viewer.Event) : Prop :=
  match ev with
  | viewer.Start _ => False
  | _ => True
  end.

Definition notStartNorMount (ev : viewer.Event) : Prop :=
  match ev with
  | viewer.Start _ | viewer.Mount => False
  | _ => True
  end.

(** A sequence over [total] instances counts as finished once [reported]
    rendered images were reported, if there are at least two instances. *)
Definition finishedAfter (total reported : nat) : bool :=
  ((2 <=? total) && (total <=? reported))%nat.

(** The state of the component [reported] reports after the press on Start
    that was made in [v0]. *)
Definition sequenceState (v0 : viewer.Viewer) (reported : nat) (v : viewer.Viewer)
  : Prop :=
  viewer.renderedImagesCount v = reported
  /\ viewer.instances (viewer.state v) = viewer.instances (viewer.state v0)
  /\ viewer.metadataAwaited v = false
  /\ viewer.listening v = true
  /\ viewer.metricsIntervalId v = S (viewer.intervalsSet v0)
  /\ viewer.isDisplaying (viewer.state v)
     = negb (finishedAfter (List.length (viewer.instances (viewer.state v0))) reported)
  /\ (S (viewer.intervalsSet v0) ∈ viewer.intervals v
      <-> viewer.isDisplaying (viewer.state v) = true).


(** A viewer on a series for which the sequencer delivers two images. *)
Module Screening.

Definition study : Json :=
  JObject {[ "0020000D" := JObject {[ "Value" := JArray [JString "1.2.840.1"] ]} ]}.

Definition series : Json :=
  JObject {[ "0020000E" := JObject {[ "Value" := JArray [JString "1.2.840.1.7"] ]} ]}.


Definition step : viewer.Viewer -> viewer.Event -> viewer.Viewer :=
  viewer.step "alpha" "us" "chest" "ct" study series "0020000D" "0020000E".

Definition run : viewer.Viewer -> list viewer.Event -> viewer.Viewer :=
  viewer.run "alpha" "us" "chest" "ct" study series "0020000D" "0020000E".

Definition image (id : string) : Image :=
  {| imageId := id; minPixelValue := Some 0; maxPixelValue := Some 0;
     slope := Num 1; intercept := Num 0; windowCenter := Num 0; windowWidth := Num 0;
     getPixelData := Synthetic.wholeBuffer 0 []; rows := Some 0; columns := Some 0;
     height := Some 0; width := Some 0; color := false;
     columnPixelSpacing := Num 1; rowPixelSpacing := Num 1; invert := false;
     sizeInBytes := Num 0 |}.

Definition two : list Json := [JString "instance 1"; JString "instance 2"].

(** Mounted and the two instances loaded; then Start pressed. *)
Definition loaded : viewer.Viewer :=
  run viewer.constructed [viewer.Mount; viewer.InstancesLoaded two].

Definition started : viewer.Viewer := viewer.startDisplayingInstances 1000 loaded.

(** The same with a single instance. *)
Definition loadedOne : viewer.Viewer :=
  run viewer.constructed [viewer.Mount; viewer.InstancesLoaded [JString "instance 1"]].

(** Both images arrive before the first is rendered. *)
Definition playing : list viewer.Event :=
  [viewer.ImageReady (image "a"); viewer.ImageReady (image "b");
   viewer.ImageRendered 1010 1010; viewer.ImageRendered 1020 1020].

End Screening.

(** ** components/main.js: the main page *)

Module main.

(** The six levels of the catalog.  The page keeps, for each level, the
    list to choose from, whether that list is loading, and the item chosen:
    [projects], [projectsLoading], [selectedProject], and so on down to
    [series], [seriesLoading], [selectedSeries]. *)
Inductive Level : Type :=
| Project | Location | Dataset | DicomStore | Study | Series.

#[global] Instance Level_eq_dec : EqDecision Level.
Proof. solve_decision. Defined.

(** The level above, if any. *)
Definition above (level : Level) : option Level :=
  match level with
  | Project => None
  | Location => Some Project
  | Dataset => Some Location
  | DicomStore => Some Dataset
  | Study => Some DicomStore
  | Series => Some Study
  end.

(** [level] lies below [top], or is [top] itself. *)
Definition atOrBelow (top level : Level) : bool :=
  match top, level with
  | Project, _ => true
  | Location, Project => false
  | Location, _ => true
  | Dataset, (Project | Location) => false
  | Dataset, _ => true
  | DicomStore, (Study | Series | DicomStore) => true
  | DicomStore, _ => false
  | Study, (Study | Series) => true
  | Study, _ => false
  | Series, Series => true
  | Series, _ => false
  end.

(** The calls of the api module the page makes, with their arguments. *)
Inductive ApiCall : Type :=
| FetchProjects
| FetchLocations (projectId : option Json)
| FetchDatasets (projectId location : option Json)
| FetchDicomStores (projectId location dataset : option Json)
| FetchStudies (projectId location dataset dicomStore : option Json)
| FetchSeries (projectId location dataset dicomStore studyId : option Json).

(** The state of the page ([selected], [items] and [loading] by level, and
    [isSignedIn]) and what it has done: the sign-ins it asked for, the api
    calls it made, the errors it wrote to the console, and the errors that
    left one of its handlers. *)
Record Main : Type := mkMain {
  isSignedIn : bool;
  selected : Level -> option Json;
  items : Level -> list (option Json);
  loading : Level -> bool;
  signIns : nat;
  calls : list ApiCall;
  consoleErrors : list Exn;
  uncaught : list Exn;
}.

(** The state of the first render: nothing selected ([null]), empty lists. *)
Definition initial : Main :=
  {| isSignedIn := false; selected := fun _ => Some JNull; items := fun _ => [];
     loading := fun _ => false; signIns := 0; calls := []; consoleErrors := [];
     uncaught := [] |}.

Definition update {A : Type} (f : Level -> A) (level : Level) (a : A) : Level -> A :=
  fun l => if decide (l = level) then a else f l.

Definition setSelected (level : Level) (v : option Json) (m : Main) : Main :=
  {| isSignedIn := isSignedIn m; selected := update (selected m) level v;
     items := items m; loading := loading m; signIns := signIns m; calls := calls m;
     consoleErrors := consoleErrors m; uncaught := uncaught m |}.

Definition setItems (level : Level) (l : list (option Json)) (m : Main) : Main :=
  {| isSignedIn := isSignedIn m; selected := selected m;
     items := update (items m) level l; loading := loading m; signIns := signIns m;
     calls := calls m; consoleErrors := consoleErrors m; uncaught := uncaught m |}.

Definition setLoading (level : Level) (b : bool) (m : Main) : Main :=
  {| isSignedIn := isSignedIn m; selected := selected m; items := items m;
     loading := update (loading m) level b; signIns := signIns m; calls := calls m;
     consoleErrors := consoleErrors m; uncaught := uncaught m |}.

(** The start of [loadData]: [setLoading(true)], then the api call. *)
Definition loadData (level : Level) (call : ApiCall) (m : Main) : Main :=
  let m := setLoading level true m in
  {| isSignedIn := isSignedIn m; selected := selected m; items := items m;
     loading := loading m; signIns := signIns m; calls := calls m ++ [call];
     consoleErrors := consoleErrors m; uncaught := uncaught m |}.

Definition logError (e : Exn) (m : Main) : Main :=
  {| isSignedIn := isSignedIn m; selected := selected m; items := items m;
     loading := loading m; signIns := signIns m; calls := calls m;
     consoleErrors := consoleErrors m ++ [e]; uncaught := uncaught m |}.

Definition throwFromHandler (e : Exn) (m : Main) : Main :=
  {| isSignedIn := isSignedIn m; selected := selected m; items := items m;
     loading := loading m; signIns := signIns m; calls := calls m;
     consoleErrors := consoleErrors m; uncaught := uncaught m ++ [e] |}.

(** The end of [loadData]: the data are set, or the error is written to
    the console; [setLoading(false)] in both cases. *)
Definition loadDataDone (level : Level) (outcome : Completion (list (option Json)))
    (m : Main) : Main :=
  setLoading level false
    match outcome with
    | Normal data => setItems level data m
    | Throw e => logError e m
    end.

(** [{...item, displayValue: value}] for an object [item]. *)
Definition withDisplayValue (item : Json) (value : option Json) : Json :=
  match item with
  | JObject fields =>
      JObject match value with
              | Some v => <[ "displayValue" := v ]> fields
              | None => delete "displayValue" fields
              end
  | _ => JObject ∅
  end.

(** [item => ({...item, displayValue: <describe item>})]: the spread
    copies the item, then the display value is read from it. *)
Definition addDisplayValue (describe : Json -> Completion (option Json))
    (item : Json) : Completion (option Json) :=
  value ← describe item;
  Normal (Some (withDisplayValue item value)).

(** [study['00100010'].Value[0].Alphabetic] *)
Definition patientName (study : Json) : Completion (option Json) :=
  tag ← getProp (Some study) "00100010";
  value ← getProp tag "Value";
  first ← getFirst value;
  getProp first "Alphabetic".

(** [series['0008103E'].Value[0]] *)
Definition seriesDescription (series : Json) : Completion (option Json) :=
  tag ← getProp (Some series) "0008103E";
  value ← getProp tag "Value";
  getFirst value.

(** [study => ({...study, displayValue:
                study['00100010'].Value[0].Alphabetic})]. *)
Definition studyWithDisplayValue : Json -> Completion (option Json) :=
  addDisplayValue patientName.

(** [series => ({...series, displayValue: series['0008103E'].Value[0]})]. *)
Definition seriesWithDisplayValue : Json -> Completion (option Json) :=
  addDisplayValue seriesDescription.

(** [study['0020000D'].Value[0]]. *)
Definition studyUid (study : option Json) : Completion (option Json) :=
  tag ← getProp study "0020000D";
  value ← getProp tag "Value";
  getFirst value.

(** The api call that loads the list of a level, from the current
    selections. *)
Definition loadLevel (level : Level) (m : Main) : Main :=
  match level with
  | Project => loadData Project FetchProjects m
  | Location => loadData Location (FetchLocations (selected m Project)) m
  | Dataset =>
      loadData Dataset (FetchDatasets (selected m Project) (selected m Location)) m
  | DicomStore =>
      loadData DicomStore
        (FetchDicomStores (selected m Project) (selected m Location)
                          (selected m Dataset)) m
  | Study =>
      loadData Study
        (FetchStudies (selected m Project) (selected m Location) (selected m Dataset)
                      (selected m DicomStore)) m
  | Series =>
      match studyUid (selected m Study) with
      | Normal uid =>
          loadData Series
            (FetchSeries (selected m Project) (selected m Location)
                         (selected m Dataset) (selected m DicomStore) uid) m
      | Throw e => throwFromHandler e m
      end
  end.

(** [selectProject] ... [selectSeries]: the item is selected and the list
    of the next level is loaded. *)
Definition select (level : Level) (item : option Json) (m : Main) : Main :=
  let m := setSelected level item m in
  match level with
  | Project => loadLevel Location m
  | Location => loadLevel Dataset m
  | Dataset => loadLevel DicomStore m
  | DicomStore => loadLevel Study m
  | Study => loadLevel Series m
  | Series => m
  end.

(** One [setSelectedX(null)] with its [setXs([])]. *)
Definition forget (level : Level) (m : Main) : Main :=
  setItems level [] (setSelected level (Some JNull) m).

(** [clearProject] ... [clearSeries]: the selection of the level is reset,
    the selections and the lists below it are reset, and the list of the
    level is loaded again. *)
Definition clear (level : Level) (m : Main) : Main :=
  match level with
  | Project =>
      loadData Project FetchProjects
        (forget Series (forget Study (forget DicomStore (forget Dataset
           (forget Location (setSelected Project (Some JNull) m))))))
  | Location =>
      loadData Location (FetchLocations (selected m Project))
        (forget Series (forget Study (forget DicomStore (forget Dataset
           (setSelected Location (Some JNull) m)))))
  | Dataset =>
      loadData Dataset (FetchDatasets (selected m Project) (selected m Location))
        (forget Series (forget Study (forget DicomStore
           (setSelected Dataset (Some JNull) m))))
  | DicomStore =>
      loadData DicomStore
        (FetchDicomStores (selected m Project) (selected m Location)
                          (selected m Dataset))
        (forget Series (forget Study (setSelected DicomStore (Some JNull) m)))
  | Study =>
      loadData Study
        (FetchStudies (selected m Project) (selected m Location) (selected m Dataset)
                      (selected m DicomStore))
        (forget Series (setSelected Study (Some JNull) m))
  | Series =>
      match studyUid (selected m Study) with
      | Normal uid =>
          loadData Series
            (FetchSeries (selected m Project) (selected m Location)
                         (selected m Dataset) (selected m DicomStore) uid)
            (setSelected Series (Some JNull) m)
      | Throw e => throwFromHandler e (setSelected Series (Some JNull) m)
      end
  end.

(** The effect run on mount, for the value of [auth.getAccessToken()]. *)
Definition onMount (accessToken : option string) (m : Main) : Main :=
  let signedIn := api.hasToken accessToken in
  let m := {| isSignedIn := signedIn; selected := selected m; items := items m;
              loading := loading m; signIns := signIns m; calls := calls m;
              consoleErrors := consoleErrors m; uncaught := uncaught m |} in
  if signedIn then loadData Project FetchProjects m
  else {| isSignedIn := isSignedIn m; selected := selected m; items := items m;
          loading := loading m; signIns := S (signIns m); calls := calls m;
          consoleErrors := consoleErrors m; uncaught := uncaught m |}.

(** What happens to the page: it is mounted, an item of the list on screen
    is clicked, a breadcrumb is clicked, or an api call made by [loadData]
    comes back.  The calls for studies and series come back with the body
    of the response, to which the display values are then added. *)
Inductive Event : Type :=
| Mounted (accessToken : option string)
| ClickItem (level : Level) (item : option Json)
| ClickBreadcrumb (level : Level)
| ListLoaded (level : Level) (outcome : Completion (list (option Json)))
| StudiesLoaded (outcome : Completion Json)
| SeriesLoaded (outcome : Completion Json).

Definition step (m : Main) (ev : Event) : Main :=
  match ev with
  | Mounted accessToken => onMount accessToken m
  | ClickItem level item => select level item m
  | ClickBreadcrumb level => clear level m
  | ListLoaded level outcome => loadDataDone level outcome m
  | StudiesLoaded outcome =>
      loadDataDone Study
        (data ← outcome; callMap (Some data) studyWithDisplayValue) m
  | SeriesLoaded outcome =>
      loadDataDone Series
        (data ← outcome; callMap (Some data) seriesWithDisplayValue) m
  end.

Definition run (m : Main) (evs : list Event) : Main := fold_left step evs m.

(** What the page renders below the breadcrumbs: the list of a level, or
    the viewer. *)
Inductive Panel : Type :=
| ListOf (level : Level)
| ViewerPanel.

(** The test of the render function for the list of a level. *)
Definition listShown (m : Main) (level : Level) : bool :=
  match above level with
  | None => negb (truthyValue (selected m level))
  | Some up => truthyValue (selected m up) && negb (truthyValue (selected m level))
  end.

Definition panels (m : Main) : list Panel :=
  (ListOf <$> List.filter (listShown m)
                          [Project; Location; Dataset; DicomStore; Study; Series])
  ++ (if truthyValue (selected m Series) then [ViewerPanel] else []).

(** The panel one level down: the list of the next level, or the viewer. *)
Definition below (level : Level) : Panel :=
  match level with
  | Project => ListOf Location
  | Location => ListOf Dataset
  | Dataset => ListOf DicomStore
  | DicomStore => ListOf Study
  | Study => ListOf Series
  | Series => ViewerPanel
  end.

(** The clicks the rendered page offers: an item of a list that is shown,
    the breadcrumb link of a level whose selection is truthy. *)
Definition offered (m : Main) (ev : Event) : Prop :=
  match ev with
  | ClickItem level _ => listShown m level = true
  | ClickBreadcrumb level => truthyValue (selected m level) = true
  | _ => True
  end.

(** Every event of the sequence is offered by the page it meets. *)
Fixpoint allOffered (m : Main) (evs : list Event) : Prop :=
  match evs with
  | [] => True
  | ev :: evs' => offered m ev /\ allOffered (step m ev) evs'
  end.

(** A selection is only made below a selection. *)
Definition nested (m : Main) : Prop :=
  forall level up,
    above level = Some up ->
    truthyValue (selected m level) = true -> truthyValue (selected m up) = true.

End main.

(** A visit of the catalog: the page is mounted with a token, the lists come
    back, and the user goes down to a series, back up to the datasets and
    down again. *)
Module Browsing.

Definition name (s : string) : option Json := Some (JString s).

Definition patient (alphabetic : string) : Json :=
  JObject {[ "Value" := JArray [JObject {[ "Alphabetic" := JString alphabetic ]}] ]}.

Definition values (v : Json) : Json := JObject {[ "Value" := JArray [v] ]}.

Definition study : Json :=
  JObject {[ "00100010" := patient "Doe^Jane";
             "0020000D" := values (JString "1.2.840.1") ]}.

Definition unnamedStudy : Json :=
  JObject {[ "0020000D" := values (JString "1.2.840.2") ]}.

Definition chest : Json :=
  JObject {[ "0008103E" := values (JString "Chest");
             "0020000E" := values (JString "1.2.840.1.7") ]}.

Definition undescribed : Json :=
  JObject {[ "0020000E" := values (JString "1.2.840.1.8") ]}.

Definition shownStudy : option Json :=
  Some (main.withDisplayValue study (Some (JString "Doe^Jane"))).

Definition shownSeries : option Json :=
  Some (main.withDisplayValue chest (Some (JString "Chest"))).

Definition visit : list main.Event :=
  [ main.Mounted (Some "token");
    main.ListLoaded main.Project (Normal [name "alpha"; None]);
    main.ClickItem main.Project None;
    main.ClickItem main.Project (name "alpha");
    main.ListLoaded main.Location (Normal [name "us"]);
    main.ClickItem main.Location (name "us");
    main.ListLoaded main.Dataset (Throw (Error "500"));
    main.ClickItem main.Dataset (name "chest");
    main.ClickItem main.DicomStore (name "ct");
    main.StudiesLoaded (Normal (JArray [study]));
    main.ClickItem main.Study shownStudy;
    main.SeriesLoaded (Normal (JArray [chest]));
    main.ClickItem main.Series shownSeries;
    main.ClickBreadcrumb main.Dataset;
    main.ClickItem main.Dataset (name "head") ].

Definition atLocations : main.Main :=
  main.run main.initial
    [ main.Mounted (Some "token");
      main.ListLoaded main.Project (Normal [name "alpha"]);
      main.ClickItem main.Project (name "alpha") ].

Definition atStudies : main.Main :=
  main.run atLocations
    [ main.ClickItem main.Location (name "us");
      main.ClickItem main.Dataset (name "chest");
      main.ClickItem main.DicomStore (name "ct") ].

End Browsing.

(** * Properties *)

(** ** Configuration *)

Lemma Object_assign_lookup (target source1 source2 : gmap string bool) (k : string) :
  Object_assign target source1 source2 !! k =
    match source2 !! k with
    | Some v => Some v
    | None => match source1 !! k with
              | Some v => Some v
              | None => target !! k
              end
    end.
Proof.
  unfold Object_assign.
  rewrite !lookup_union.
  destruct (source2 !! k), (source1 !! k), (target !! k); reflexivity.
Qed.

Lemma configure_lookup (newConfig cfg : gmap string bool) (k : string) :
  configure newConfig cfg !! k =
    match newConfig !! k with
    | Some v => Some v
    | None => match defaultConfig !! k with
              | Some v => Some v
              | None => cfg !! k
              end
    end.
Proof. apply Object_assign_lookup. Qed.

Lemma initialConfig_eq : initialConfig = {[ "useWebworkersToFetch" := false ]}.
Proof.
  apply map_eq; intros k. unfold initialConfig.
  rewrite Object_assign_lookup, !lookup_empty.
  unfold defaultConfig. destruct ({[ "useWebworkersToFetch" := false ]} !! k); reflexivity.
Qed.

(** An option that has no default and is absent from the argument keeps
    the value it had. *)
Lemma configure_keeps_options_without_default (newConfig cfg : gmap string bool)
    (k : string) :
  defaultConfig !! k = None -> newConfig !! k = None ->
  configure newConfig cfg !! k = cfg !! k.
Proof. intros Hd Hn. rewrite configure_lookup, Hn, Hd. reflexivity. Qed.

(** C10. [configure] merges the defaults before the new values: an option
    given in the argument takes the argument's value, and an option that
    has a default and is absent from the argument goes back to that
    default, whatever an earlier call had set.  In particular
    [configure({useWebworkersToParse: true})] puts [useWebworkersToFetch]
    back to [false], also right after [configure({useWebworkersToFetch:
    true})]. *)
Theorem configure_resets_absent_options :
  (forall (newConfig cfg : gmap string bool) (k : string) (v : bool),
      newConfig !! k = Some v -> configure newConfig cfg !! k = Some v)
  /\ (forall (newConfig cfg : gmap string bool) (k : string),
         is_Some (defaultConfig !! k) -> newConfig !! k = None ->
         configure newConfig cfg !! k = defaultConfig !! k)
  /\ (forall cfg : gmap string bool,
         configure {[ "useWebworkersToParse" := true ]} cfg
           !! "useWebworkersToFetch" = Some false)
  /\ configure {[ "useWebworkersToParse" := true ]}
       (configure {[ "useWebworkersToFetch" := true ]} initialConfig)
     = {[ "useWebworkersToParse" := true; "useWebworkersToFetch" := false ]}.
Proof.
  split; [|split; [|split]].
  - intros newConfig cfg k v H. rewrite configure_lookup, H. reflexivity.
  - intros newConfig cfg k [d Hd] H. rewrite configure_lookup, H, Hd. reflexivity.
  - intros cfg. rewrite configure_lookup. reflexivity.
  - apply map_eq; intros k. rewrite !configure_lookup, initialConfig_eq.
    destruct (decide (k = "useWebworkersToParse")) as [->|Hp]; [reflexivity|].
    destruct (decide (k = "useWebworkersToFetch")) as [->|Hf]; [reflexivity|].
    unfold defaultConfig.
    rewrite !lookup_insert_ne, !lookup_singleton_ne, ?lookup_empty by congruence.
    reflexivity.
Qed.

Lemma configure_resets_absent_options_witness :
  configure {[ "useWebworkersToParse" := true ]}
            {[ "useWebworkersToFetch" := true ]} !! "useWebworkersToFetch"
  = defaultConfig !! "useWebworkersToFetch"
  /\ configure {[ "useWebworkersToFetch" := true ]} initialConfig
        !! "useWebworkersToFetch" = Some true.
Proof.
  destruct configure_resets_absent_options as (Hgiven & Habsent & _).
  split.
  - apply Habsent.
    + exists false. reflexivity.
    + reflexivity.
  - apply Hgiven. reflexivity.
Defined.

Lemma loadImage_withConfig (imageId : string) (cfg : gmap string bool) (st : Loader) :
  cfg !! "useWebworkersToFetch" = config st !! "useWebworkersToFetch" ->
  loadImage imageId (withConfig cfg st)
  = (fst (loadImage imageId st), withConfig cfg (snd (loadImage imageId st))).
Proof.
  intros Hflag. unfold loadImage. cbn [config withConfig promises].
  rewrite Hflag.
  destruct (truthy (config st !! "useWebworkersToFetch")); [|reflexivity].
  unfold acquireWebworker. cbn [availableWebworkers workersCreated withConfig].
  destruct (0 <? List.length (availableWebworkers st))%nat; [|reflexivity].
  destruct (last (availableWebworkers st)); reflexivity.
Qed.

Lemma settle_withConfig (p : nat) (o : PromiseState) (cfg : gmap string bool) (st : Loader) :
  settle p o (withConfig cfg st) = withConfig cfg (settle p o st).
Proof.
  unfold settle. cbn [withConfig promises].
  destruct (promises st !! p) as [[]|]; reflexivity.
Qed.

Lemma decode_step_withConfig parseDicom (cfg : gmap string bool) (st : Loader)
    (p : nat) (byteArray : TypedArray) :
  step parseDicom (withConfig cfg st) (FetchResolved p byteArray)
  = withConfig cfg (step parseDicom st (FetchResolved p byteArray)).
Proof.
  cbn [step withConfig fetching].
  destruct (fetching st !! p) as [[imageId u]|]; [|reflexivity].
  destruct (createImageObjectFromDicom parseDicom imageId byteArray);
    apply (settle_withConfig _ _ cfg (endFetch p st)).
Qed.

(** C7 (as stated, refuted).  Before any call of [configure] neither flag
    is on: [useWebworkersToFetch] is [false] and [useWebworkersToParse] is
    not in the configuration at all. *)
Lemma default_flags_are_not_offloaded :
  ~ (initialConfig !! "useWebworkersToFetch" = Some true
     /\ initialConfig !! "useWebworkersToParse" = Some true).
Proof. intros [H _]. rewrite initialConfig_eq in H. discriminate H. Qed.

(** C7 (amended).  The configuration has one flag with a default,
    [useWebworkersToFetch], which is [false] before any call of
    [configure]; [configure] sets it and stores a [useWebworkersToParse]
    value next to it, each independently of the other.  [loadImage] is
    routed by [useWebworkersToFetch] alone: when it is on the request is
    posted to a worker, when it is off [api.fetchDicomFile] is called; no
    other entry of the configuration changes what [loadImage] does, and the
    decoding step does not look at the configuration. *)
Theorem loader_offload_flags :
  initialConfig = {[ "useWebworkersToFetch" := false ]}
  /\ (forall (fetchFlag parseFlag : bool) (cfg : gmap string bool),
         configure {[ "useWebworkersToFetch" := fetchFlag;
                      "useWebworkersToParse" := parseFlag ]} cfg
           !! "useWebworkersToFetch" = Some fetchFlag
         /\ configure {[ "useWebworkersToFetch" := fetchFlag;
                         "useWebworkersToParse" := parseFlag ]} cfg
              !! "useWebworkersToParse" = Some parseFlag)
  /\ (forall (imageId : string) (st : Loader),
         config st !! "useWebworkersToFetch" = Some true ->
         fetching (snd (loadImage imageId st)) = fetching st
         /\ exists w, posted (snd (loadImage imageId st))
                      = posted st ++ [(w, mkMessage "fetchDicom"
                                            (replace "dicomImageLoader" "https" imageId))])
  /\ (forall (imageId : string) (st : Loader),
         config st !! "useWebworkersToFetch" <> Some true ->
         posted (snd (loadImage imageId st)) = posted st
         /\ fetching (snd (loadImage imageId st))
            = <[List.length (promises st) :=
                  (imageId, replace "dicomImageLoader" "https" imageId)]> (fetching st))
  /\ (forall (imageId : string) (cfg : gmap string bool) (st : Loader),
         cfg !! "useWebworkersToFetch" = config st !! "useWebworkersToFetch" ->
         loadImage imageId (withConfig cfg st)
         = (fst (loadImage imageId st), withConfig cfg (snd (loadImage imageId st))))
  /\ (forall parseDicom (cfg : gmap string bool) (st : Loader) (p : nat)
             (byteArray : TypedArray),
         step parseDicom (withConfig cfg st) (FetchResolved p byteArray)
         = withConfig cfg (step parseDicom st (FetchResolved p byteArray))).
Proof.
  split; [exact initialConfig_eq|].
  split.
  { intros fetchFlag parseFlag cfg. rewrite !configure_lookup. split; reflexivity. }
  split.
  { intros imageId st Hflag. unfold loadImage. rewrite Hflag. cbn [truthy].
    destruct (acquireWebworker st) as [[w available] created]. cbn.
    split; [reflexivity|]. exists w. reflexivity. }
  split.
  { intros imageId st Hflag. unfold loadImage.
    destruct (config st !! "useWebworkersToFetch") as [[]|]; cbn;
      try (split; reflexivity).
    contradiction Hflag. reflexivity. }
  split.
  { exact loadImage_withConfig. }
  exact decode_step_withConfig.
Qed.

Lemma loader_offload_flags_witness :
  (posted (snd (loadImage "dicomImageLoader://store/instances/1" initialLoader)) = []
   /\ fetching (snd (loadImage "dicomImageLoader://store/instances/1" initialLoader))
      = {[ 0%nat := ("dicomImageLoader://store/instances/1",
                     "https://store/instances/1") ]})
  /\ fetching (snd (loadImage "dicomImageLoader://store/instances/1" Session.offloaded))
     = ∅
  /\ loadImage "dicomImageLoader://store/instances/1"
       (withConfig {[ "useWebworkersToFetch" := false;
                      "useWebworkersToParse" := true ]} initialLoader)
     = (0%nat,
        withConfig {[ "useWebworkersToFetch" := false;
                      "useWebworkersToParse" := true ]}
          (snd (loadImage "dicomImageLoader://store/instances/1" initialLoader))).
Proof.
  destruct loader_offload_flags as (_ & _ & Hon & Hoff & Hother & _).
  split; [|split].
  - destruct (Hoff "dicomImageLoader://store/instances/1" initialLoader) as [Hp Hf].
    + cbn. rewrite initialConfig_eq. discriminate.
    + split; [exact Hp|]. rewrite Hf. reflexivity.
  - destruct (Hon "dicomImageLoader://store/instances/1" Session.offloaded)
      as [Hf _]; [reflexivity|]. rewrite Hf. reflexivity.
  - rewrite Hother; reflexivity.
Defined.

(** ** The decoder *)

Section DecoderFacts.

Variable parseDicom : TypedArray -> Completion dicomParser.DataSet.

(** What a successful decoding went through. *)
Lemma createImageObjectFromDicom_Normal (id : string) (payload : TypedArray)
    (image : Image) :
  createImageObjectFromDicom parseDicom id payload = Normal image ->
  exists dataSet w h photoInterp element pixelData minTag maxTag,
    parseDicom payload = Normal dataSet
    /\ dicomParser.uint16 dataSet "x00280011" = Normal w
    /\ dicomParser.uint16 dataSet "x00280010" = Normal h
    /\ dicomParser.string dataSet "x00280004" = Normal photoInterp
    /\ dicomParser.elements dataSet !! "x7fe00010" = Some element
    /\ new_Int16Array (buffer (dicomParser.byteArray dataSet))
                      (dicomParser.dataOffset element) = Normal pixelData
    /\ dicomParser.int16 dataSet "x00280106" = Normal minTag
    /\ dicomParser.int16 dataSet "x00280107" = Normal maxTag
    /\ getPixelData image = pixelData
    /\ minPixelValue image = (if js_not minTag then scanMin pixelData else minTag)
    /\ maxPixelValue image = (if js_not maxTag then scanMax pixelData else maxTag)
    /\ windowCenter image
       = num_div (num_add (ToNumber (maxPixelValue image))
                          (ToNumber (minPixelValue image))) (Num 2)
    /\ windowWidth image
       = num_sub (ToNumber (maxPixelValue image)) (ToNumber (minPixelValue image))
    /\ invert image = js_eq_string photoInterp "MONOCHROME1"
    /\ rows image = h /\ columns image = w
    /\ height image = h /\ width image = w
    /\ imageId image = id.
Proof.
  unfold createImageObjectFromDicom, mbind, Completion_bind.
  intros H.
  destruct (parseDicom payload) as [dataSet|] eqn:Hparse; [|discriminate].
  destruct (dicomParser.uint16 dataSet "x00280011") as [w|] eqn:Hw; [|discriminate].
  destruct (dicomParser.uint16 dataSet "x00280010") as [h|] eqn:Hh; [|discriminate].
  destruct (dicomParser.string dataSet "x00280004") as [photoInterp|] eqn:Hphoto;
    [|discriminate].
  destruct (dicomParser.elements dataSet !! "x7fe00010") as [element|] eqn:Helement;
    [|discriminate].
  destruct (new_Int16Array _ _) as [pixelData|] eqn:Hview; [|discriminate].
  destruct (dicomParser.int16 dataSet "x00280106") as [minTag|] eqn:Hmin;
    [|discriminate].
  destruct (dicomParser.int16 dataSet "x00280107") as [maxTag|] eqn:Hmax;
    [|discriminate].
  injection H as <-.
  exists dataSet, w, h, photoInterp, element, pixelData, minTag, maxTag.
  cbn [getPixelData minPixelValue maxPixelValue windowCenter windowWidth invert
       rows columns height width imageId].
  repeat split; try assumption; try reflexivity.
  destruct (js_eq_string photoInterp "MONOCHROME1"); reflexivity.
Qed.

(** Conversely, the decoder returns an image as soon as the payload
    parses, the accessors return, the pixel data element is there and a
    16-bit view can be laid at its offset. *)
Lemma createImageObjectFromDicom_returns (id : string) (payload : TypedArray)
    (dataSet : dicomParser.DataSet) (w h : option Z) (photoInterp : option string)
    (element : dicomParser.Element) (pixelData : TypedArray)
    (minTag maxTag : option Z) :
  parseDicom payload = Normal dataSet ->
  dicomParser.uint16 dataSet "x00280011" = Normal w ->
  dicomParser.uint16 dataSet "x00280010" = Normal h ->
  dicomParser.string dataSet "x00280004" = Normal photoInterp ->
  dicomParser.elements dataSet !! "x7fe00010" = Some element ->
  new_Int16Array (buffer (dicomParser.byteArray dataSet))
                 (dicomParser.dataOffset element) = Normal pixelData ->
  dicomParser.int16 dataSet "x00280106" = Normal minTag ->
  dicomParser.int16 dataSet "x00280107" = Normal maxTag ->
  exists image,
    createImageObjectFromDicom parseDicom id payload = Normal image
    /\ getPixelData image = pixelData
    /\ rows image = h /\ columns image = w.
Proof.
  intros Hparse Hw Hh Hphoto Helement Hview Hmin Hmax.
  unfold createImageObjectFromDicom, mbind, Completion_bind.
  rewrite Hparse, Hw, Hh, Hphoto, Helement, Hview, Hmin, Hmax.
  eexists. split; [reflexivity|]. cbn. auto.
Qed.

End DecoderFacts.

Lemma js_eq_string_true (s : option string) (lit : string) :
  js_eq_string s lit = true <-> s = Some lit.
Proof.
  destruct s as [s|]; cbn.
  - rewrite String.eqb_eq. split; congruence.
  - split; discriminate.
Qed.

Lemma window_of_range (lo hi : Z) :
  exists c w : Q,
    num_div (num_add (ToNumber (Some hi)) (ToNumber (Some lo))) (Num 2) = Num c
    /\ (c == (inject_Z hi + inject_Z lo) / 2)%Q
    /\ num_sub (ToNumber (Some hi)) (ToNumber (Some lo)) = Num w
    /\ (w == inject_Z hi - inject_Z lo)%Q.
Proof.
  eexists _, _. cbn [ToNumber num_add num_sub num_div].
  change (Qeq_bool 2 0) with false. cbv iota.
  split; [reflexivity|]. split; [|split; [reflexivity|]].
  - rewrite !Qred_correct. reflexivity.
  - apply Qred_correct.
Qed.

(** Only the data set a payload parses to matters to the decoder. *)
Lemma createImageObjectFromDicom_parsed parseDicom (id : string)
    (payload : TypedArray) (dataSet : dicomParser.DataSet) :
  parseDicom payload = Normal dataSet ->
  createImageObjectFromDicom parseDicom id payload
  = createImageObjectFromDicom (fun _ => Normal dataSet) id payload.
Proof.
  intros H. unfold createImageObjectFromDicom. rewrite H. reflexivity.
Qed.

(** C2.  Whenever the decoder produces an image, its window centre is
    (max + min) / 2 and its window width is max - min, computed from the
    image's own minimum and maximum pixel values, and [invert] is true
    exactly when the photometric interpretation read from the data set is
    the string MONOCHROME1.  In particular the 2x2 MONOCHROME2 payload with
    samples 10, 50, -5, 30 and no minimum/maximum tags decodes to minimum
    -5, maximum 50, window centre 22.5 (= 45/2), window width 55 and
    [invert = false]; the same payload marked MONOCHROME1 gives the same
    values with [invert = true]. *)
Theorem decode_window_and_inversion :
  (forall parseDicom (id : string) (payload : TypedArray) (image : Image),
      createImageObjectFromDicom parseDicom id payload = Normal image ->
      windowCenter image
      = num_div (num_add (ToNumber (maxPixelValue image))
                         (ToNumber (minPixelValue image))) (Num 2)
      /\ windowWidth image
         = num_sub (ToNumber (maxPixelValue image)) (ToNumber (minPixelValue image))
      /\ (forall lo hi : Z,
             minPixelValue image = Some lo -> maxPixelValue image = Some hi ->
             exists c w : Q,
               windowCenter image = Num c
               /\ (c == (inject_Z hi + inject_Z lo) / 2)%Q
               /\ windowWidth image = Num w
               /\ (w == inject_Z hi - inject_Z lo)%Q)
      /\ exists dataSet photoInterp,
           parseDicom payload = Normal dataSet
           /\ dicomParser.string dataSet "x00280004" = Normal photoInterp
           /\ (invert image = true <-> photoInterp = Some "MONOCHROME1")
           /\ (invert image = false <-> photoInterp <> Some "MONOCHROME1"))
  /\ (forall parseDicom (id : string),
         parseDicom (Synthetic.payload2x2 "MONOCHROME2 ")
         = Normal (Synthetic.dataSet2x2 "MONOCHROME2 ") ->
         exists image,
           createImageObjectFromDicom parseDicom id (Synthetic.payload2x2 "MONOCHROME2 ")
           = Normal image
           /\ rows image = Some 2 /\ columns image = Some 2
           /\ samples (getPixelData image) = [10; 50; -5; 30]
           /\ minPixelValue image = Some (-5)
           /\ maxPixelValue image = Some 50
           /\ windowCenter image = Num (45 # 2)
           /\ windowWidth image = Num 55
           /\ invert image = false)
  /\ (forall parseDicom (id : string),
         parseDicom (Synthetic.payload2x2 "MONOCHROME1 ")
         = Normal (Synthetic.dataSet2x2 "MONOCHROME1 ") ->
         exists image,
           createImageObjectFromDicom parseDicom id (Synthetic.payload2x2 "MONOCHROME1 ")
           = Normal image
           /\ rows image = Some 2 /\ columns image = Some 2
           /\ samples (getPixelData image) = [10; 50; -5; 30]
           /\ minPixelValue image = Some (-5)
           /\ maxPixelValue image = Some 50
           /\ windowCenter image = Num (45 # 2)
           /\ windowWidth image = Num 55
           /\ invert image = true).
Proof.
  split; [|split].
  - intros parseDicom id payload image H.
    destruct (createImageObjectFromDicom_Normal parseDicom id payload image H)
      as (dataSet & w & h & photoInterp & element & pixelData & minTag & maxTag
          & Hparse & _ & _ & Hphoto & _ & _ & _ & _ & _ & _ & _ & Hc & Hw & Hinv & _).
    split; [exact Hc|]. split; [exact Hw|]. split.
    + intros lo hi Hlo Hhi. rewrite Hc, Hw, Hlo, Hhi. apply window_of_range.
    + exists dataSet, photoInterp. split; [exact Hparse|]. split; [exact Hphoto|].
      rewrite Hinv. split; [apply js_eq_string_true|].
      rewrite <- js_eq_string_true.
      destruct (js_eq_string photoInterp "MONOCHROME1"); split; congruence.
  - intros parseDicom id H.
    rewrite (createImageObjectFromDicom_parsed _ _ _ _ H).
    eexists. split; [vm_compute; reflexivity|].
    repeat split; vm_compute; reflexivity.
  - intros parseDicom id H.
    rewrite (createImageObjectFromDicom_parsed _ _ _ _ H).
    eexists. split; [vm_compute; reflexivity|].
    repeat split; vm_compute; reflexivity.
Qed.

Lemma decode_window_and_inversion_witness :
  exists image,
    createImageObjectFromDicom (fun _ => Normal (Synthetic.dataSet2x2 "MONOCHROME1 "))
      "dicomImageLoader://store/instances/1" (Synthetic.payload2x2 "MONOCHROME1 ")
    = Normal image
    /\ (minPixelValue image = Some (-5) /\ maxPixelValue image = Some 50
        /\ invert image = true)
    /\ windowCenter image
       = num_div (num_add (ToNumber (maxPixelValue image))
                          (ToNumber (minPixelValue image))) (Num 2)
    /\ windowWidth image
       = num_sub (ToNumber (maxPixelValue image)) (ToNumber (minPixelValue image)).
Proof.
  destruct decode_window_and_inversion as (Hgeneral & _ & Hmono1).
  destruct (Hmono1 (fun _ => Normal (Synthetic.dataSet2x2 "MONOCHROME1 "))
                   "dicomImageLoader://store/instances/1" eq_refl)
    as (image & Himage & _ & _ & _ & Hlo & Hhi & _ & _ & Hinv).
  exists image. split; [exact Himage|]. split; [auto|].
  destruct (Hgeneral _ _ _ _ Himage) as (Hc & Hw & _).
  split; [exact Hc|exact Hw].
Defined.

(** ** The scanning loops *)

Lemma i16_inside (a : TypedArray) (i : Z) :
  0 <= i < ta_length a -> exists v, i16 a i = Some v.
Proof.
  intros Hi. unfold i16.
  destruct (0 <=? i) eqn:H0; [|lia].
  destruct (i <? ta_length a) eqn:H1; [|lia].
  cbn. eauto.
Qed.

Lemma i16_Some (a : TypedArray) (i v : Z) :
  i16 a i = Some v -> 0 <= i < ta_length a.
Proof.
  unfold i16. destruct (0 <=? i) eqn:H0; destruct (i <? ta_length a) eqn:H1;
    cbn; try discriminate. lia.
Qed.

Lemma elem_of_samples (a : TypedArray) (x : Z) :
  x ∈ samples a <-> exists i, i16 a i = Some x.
Proof.
  unfold samples. rewrite list_elem_of_omap. split.
  - intros (n & _ & Hn). eauto.
  - intros (i & Hi). pose proof (i16_Some _ _ _ Hi) as Hr.
    exists (Z.to_nat i). rewrite elem_of_seq, Z2Nat.id by lia.
    split; [lia|exact Hi].
Qed.

Lemma elem_of_scanIndices (a : TypedArray) (i : Z) :
  i ∈ scanIndices a <-> 1 <= i < ta_length a.
Proof.
  unfold scanIndices. rewrite list_elem_of_fmap. split.
  - intros (n & -> & Hn). apply elem_of_seq in Hn. lia.
  - intros Hi. exists (Z.to_nat i). rewrite elem_of_seq. lia.
Qed.

Lemma scanMin_fold (a : TypedArray) (idxs : list Z) (m0 : Z) :
  (forall i, i ∈ idxs -> 0 <= i < ta_length a) ->
  exists m,
    fold_left (fun acc i => if js_lt (i16 a i) acc then i16 a i else acc)
              idxs (Some m0) = Some m
    /\ m <= m0
    /\ (forall i v, i ∈ idxs -> i16 a i = Some v -> m <= v)
    /\ (m = m0 \/ exists i, i ∈ idxs /\ i16 a i = Some m).
Proof.
  revert m0. induction idxs as [|i idxs IH]; intros m0 Hin.
  - exists m0. cbn. repeat split; [lia| |auto].
    intros i v Hi. inversion Hi.
  - destruct (i16_inside a i) as [v Hv]; [apply Hin; left|].
    assert (Hin' : forall j, j ∈ idxs -> 0 <= j < ta_length a)
      by (intros j Hj; apply Hin; right; exact Hj).
    cbn [fold_left]. rewrite Hv. cbn [js_lt].
    destruct (v <? m0) eqn:Hb.
    + destruct (IH v Hin') as (m & Hm & Hle & Hall & Hwhere).
      exists m. split; [exact Hm|]. split; [lia|]. split.
      * intros j w Hj Hw. apply elem_of_cons in Hj as [->|Hj]; [|eauto].
        rewrite Hv in Hw. injection Hw as <-. exact Hle.
      * right. destruct Hwhere as [->|(j & Hj & Hjm)].
        -- exists i. split; [left|exact Hv].
        -- exists j. split; [right; exact Hj|exact Hjm].
    + destruct (IH m0 Hin') as (m & Hm & Hle & Hall & Hwhere).
      exists m. split; [exact Hm|]. split; [lia|]. split.
      * intros j w Hj Hw. apply elem_of_cons in Hj as [->|Hj]; [|eauto].
        rewrite Hv in Hw. injection Hw as <-. lia.
      * destruct Hwhere as [->|(j & Hj & Hjm)]; [left; reflexivity|].
        right. exists j. split; [right; exact Hj|exact Hjm].
Qed.

Lemma scanMax_fold (a : TypedArray) (idxs : list Z) (m0 : Z) :
  (forall i, i ∈ idxs -> 0 <= i < ta_length a) ->
  exists m,
    fold_left (fun acc i => if js_lt acc (i16 a i) then i16 a i else acc)
              idxs (Some m0) = Some m
    /\ m0 <= m
    /\ (forall i v, i ∈ idxs -> i16 a i = Some v -> v <= m)
    /\ (m = m0 \/ exists i, i ∈ idxs /\ i16 a i = Some m).
Proof.
  revert m0. induction idxs as [|i idxs IH]; intros m0 Hin.
  - exists m0. cbn. repeat split; [lia| |auto].
    intros i v Hi. inversion Hi.
  - destruct (i16_inside a i) as [v Hv]; [apply Hin; left|].
    assert (Hin' : forall j, j ∈ idxs -> 0 <= j < ta_length a)
      by (intros j Hj; apply Hin; right; exact Hj).
    cbn [fold_left]. rewrite Hv. cbn [js_lt].
    destruct (m0 <? v) eqn:Hb.
    + destruct (IH v Hin') as (m & Hm & Hle & Hall & Hwhere).
      exists m. split; [exact Hm|]. split; [lia|]. split.
      * intros j w Hj Hw. apply elem_of_cons in Hj as [->|Hj]; [|eauto].
        rewrite Hv in Hw. injection Hw as <-. exact Hle.
      * right. destruct Hwhere as [->|(j & Hj & Hjm)].
        -- exists i. split; [left|exact Hv].
        -- exists j. split; [right; exact Hj|exact Hjm].
    + destruct (IH m0 Hin') as (m & Hm & Hle & Hall & Hwhere).
      exists m. split; [exact Hm|]. split; [lia|]. split.
      * intros j w Hj Hw. apply elem_of_cons in Hj as [->|Hj]; [|eauto].
        rewrite Hv in Hw. injection Hw as <-. lia.
      * destruct Hwhere as [->|(j & Hj & Hjm)]; [left; reflexivity|].
        right. exists j. split; [right; exact Hj|exact Hjm].
Qed.

(** On a view with at least one sample, the first loop ends with the least
    sample of the view ... *)
Lemma scanMin_least (a : TypedArray) :
  0 < ta_length a ->
  exists m, scanMin a = Some m
            /\ m ∈ samples a
            /\ forall x, x ∈ samples a -> m <= x.
Proof.
  intros Hlen. destruct (i16_inside a 0) as [v0 Hv0]; [lia|].
  destruct (scanMin_fold a (scanIndices a) v0) as (m & Hm & Hle & Hall & Hwhere).
  { intros i Hi. apply elem_of_scanIndices in Hi. lia. }
  exists m. unfold scanMin. rewrite Hv0. split; [exact Hm|]. split.
  - apply elem_of_samples. destruct Hwhere as [->|(i & _ & Hi)]; eauto.
  - intros x Hx. apply elem_of_samples in Hx as (i & Hi).
    pose proof (i16_Some _ _ _ Hi) as Hr.
    destruct (decide (i = 0)) as [->|Hne].
    + rewrite Hv0 in Hi. injection Hi as <-. exact Hle.
    + apply (Hall i); [|exact Hi]. apply elem_of_scanIndices. lia.
Qed.

(** ... and the second loop with the greatest. *)
Lemma scanMax_greatest (a : TypedArray) :
  0 < ta_length a ->
  exists m, scanMax a = Some m
            /\ m ∈ samples a
            /\ forall x, x ∈ samples a -> x <= m.
Proof.
  intros Hlen. destruct (i16_inside a 0) as [v0 Hv0]; [lia|].
  destruct (scanMax_fold a (scanIndices a) v0) as (m & Hm & Hle & Hall & Hwhere).
  { intros i Hi. apply elem_of_scanIndices in Hi. lia. }
  exists m. unfold scanMax. rewrite Hv0. split; [exact Hm|]. split.
  - apply elem_of_samples. destruct Hwhere as [->|(i & _ & Hi)]; eauto.
  - intros x Hx. apply elem_of_samples in Hx as (i & Hi).
    pose proof (i16_Some _ _ _ Hi) as Hr.
    destruct (decide (i = 0)) as [->|Hne].
    + rewrite Hv0 in Hi. injection Hi as <-. exact Hle.
    + apply (Hall i); [|exact Hi]. apply elem_of_scanIndices. lia.
Qed.

(** On an empty view both loops leave [undefined] ([pixelData[0]]). *)
Lemma scan_empty (a : TypedArray) :
  ta_length a <= 0 -> scanMin a = None /\ scanMax a = None.
Proof.
  intros Hlen. unfold scanMin, scanMax, scanIndices, i16.
  replace (Z.to_nat (ta_length a) - 1)%nat with 0%nat by lia.
  destruct (0 <? ta_length a) eqn:H; [lia|]. cbn. auto.
Qed.

(** ** Minimum and maximum pixel value *)

(** How the decoder chooses the minimum and the maximum: a tag value other
    than 0 is used as it is; when the tag is absent, and also when its
    value is 0, the pixel buffer is scanned. *)
Lemma decode_min_max_policy parseDicom (id : string) (payload : TypedArray)
    (image : Image) :
  createImageObjectFromDicom parseDicom id payload = Normal image ->
  exists dataSet minTag maxTag,
    parseDicom payload = Normal dataSet
    /\ dicomParser.int16 dataSet "x00280106" = Normal minTag
    /\ dicomParser.int16 dataSet "x00280107" = Normal maxTag
    /\ (forall v, minTag = Some v -> v <> 0 -> minPixelValue image = Some v)
    /\ (forall v, maxTag = Some v -> v <> 0 -> maxPixelValue image = Some v)
    /\ (minTag = None \/ minTag = Some 0 ->
        minPixelValue image = scanMin (getPixelData image))
    /\ (maxTag = None \/ maxTag = Some 0 ->
        maxPixelValue image = scanMax (getPixelData image)).
Proof.
  intros H.
  destruct (createImageObjectFromDicom_Normal parseDicom id payload image H)
    as (dataSet & w & h & photoInterp & element & pixelData & minTag & maxTag
        & Hparse & _ & _ & _ & _ & _ & Hmin & Hmax & Hpix & Hlo & Hhi & _).
  exists dataSet, minTag, maxTag.
  split; [exact Hparse|]. split; [exact Hmin|]. split; [exact Hmax|].
  rewrite Hlo, Hhi, Hpix.
  split; [|split; [|split]].
  - intros v -> Hv. cbn. destruct (Z.eqb_spec v 0); [contradiction|reflexivity].
  - intros v -> Hv. cbn. destruct (Z.eqb_spec v 0); [contradiction|reflexivity].
  - intros [->| ->]; reflexivity.
  - intros [->| ->]; reflexivity.
Qed.

(** When both tags are absent and the view is not empty, the minimum and
    the maximum of the image are the least and the greatest sample of its
    pixel buffer. *)
Lemma decode_scans_when_tags_absent parseDicom (id : string) (payload : TypedArray)
    (dataSet : dicomParser.DataSet) (image : Image) :
  parseDicom payload = Normal dataSet ->
  dicomParser.elements dataSet !! "x00280106" = None ->
  dicomParser.elements dataSet !! "x00280107" = None ->
  createImageObjectFromDicom parseDicom id payload = Normal image ->
  0 < ta_length (getPixelData image) ->
  exists lo hi,
    minPixelValue image = Some lo /\ maxPixelValue image = Some hi
    /\ lo ∈ samples (getPixelData image) /\ hi ∈ samples (getPixelData image)
    /\ forall x, x ∈ samples (getPixelData image) -> lo <= x <= hi.
Proof.
  intros Hparse Hno_min Hno_max H Hlen.
  destruct (decode_min_max_policy parseDicom id payload image H)
    as (dataSet' & minTag & maxTag & Hparse' & Hmin & Hmax & _ & _ & Hlo & Hhi).
  rewrite Hparse in Hparse'. injection Hparse' as <-.
  unfold dicomParser.int16 in Hmin, Hmax. rewrite Hno_min in Hmin.
  rewrite Hno_max in Hmax. injection Hmin as <-. injection Hmax as <-.
  destruct (scanMin_least _ Hlen) as (lo & Hslo & Hlo_in & Hlo_least).
  destruct (scanMax_greatest _ Hlen) as (hi & Hshi & Hhi_in & Hhi_greatest).
  exists lo, hi. rewrite Hlo, Hhi by (left; reflexivity).
  repeat split; auto.
Qed.

(** C3 (the code departs from the claim).  The payload carries a smallest
    pixel value of 0 and a largest pixel value of 50 next to the samples
    10, 50, 5, 30.  The provided maximum is used, but the provided minimum
    0 is taken for a missing one ([!minPixelValue] holds for 0) and the
    decoder answers the scanned minimum 5. *)
Theorem provided_zero_minimum_is_rescanned :
  forall parseDicom (id : string),
    parseDicom Synthetic.payloadMinZero = Normal Synthetic.dataSetMinZero ->
    dicomParser.int16 Synthetic.dataSetMinZero "x00280106" = Normal (Some 0)
    /\ dicomParser.int16 Synthetic.dataSetMinZero "x00280107" = Normal (Some 50)
    /\ exists image,
         createImageObjectFromDicom parseDicom id Synthetic.payloadMinZero
         = Normal image
         /\ samples (getPixelData image) = [10; 50; 5; 30]
         /\ maxPixelValue image = Some 50
         /\ minPixelValue image = Some 5
         /\ minPixelValue image <> Some 0.
Proof.
  intros parseDicom id H.
  split; [vm_compute; reflexivity|]. split; [vm_compute; reflexivity|].
  rewrite (createImageObjectFromDicom_parsed _ _ _ _ H).
  eexists. split; [vm_compute; reflexivity|].
  repeat split; try (vm_compute; reflexivity).
  vm_compute. discriminate.
Qed.

Lemma provided_zero_minimum_is_rescanned_witness :
  exists image,
    createImageObjectFromDicom (fun _ => Normal Synthetic.dataSetMinZero)
      "dicomImageLoader://store/instances/4" Synthetic.payloadMinZero
    = Normal image
    /\ samples (getPixelData image) = [10; 50; 5; 30]
    /\ maxPixelValue image = Some 50
    /\ minPixelValue image = Some 5
    /\ minPixelValue image <> Some 0.
Proof.
  apply (provided_zero_minimum_is_rescanned
           (fun _ => Normal Synthetic.dataSetMinZero)).
  reflexivity.
Defined.

(** ** Required tags and the size of the pixel data *)

(** C4 (as stated, refuted).  A data set without rows, columns and
    photometric interpretation decodes to an image whose dimensions are
    [undefined] and whose [invert] is false; a data set that declares 4 rows
    and 4 columns (32 bytes of samples) over a pixel data block of 8 bytes
    decodes as well. *)
Lemma decode_accepts_missing_tags_and_short_block :
  (dicomParser.elements Synthetic.dataSetPixelsOnly !! "x00280010" = None
   /\ dicomParser.elements Synthetic.dataSetPixelsOnly !! "x00280011" = None
   /\ dicomParser.elements Synthetic.dataSetPixelsOnly !! "x00280004" = None
   /\ exists image,
        createImageObjectFromDicom (fun _ => Normal Synthetic.dataSetPixelsOnly)
          "dicomImageLoader://store/instances/1" (Synthetic.payload2x2 "MONOCHROME2 ")
        = Normal image
        /\ rows image = None /\ columns image = None /\ invert image = false
        /\ sizeInBytes image = NaN)
  /\ (dicomParser.elements Synthetic.dataSetShort !! "x7fe00010"
      = Some (dicomParser.mkElement 16 8)
      /\ 8 < 4 * 4 * 2
      /\ exists image,
           createImageObjectFromDicom (fun _ => Normal Synthetic.dataSetShort)
             "dicomImageLoader://store/instances/2" Synthetic.payloadShort
           = Normal image
           /\ rows image = Some 4 /\ columns image = Some 4
           /\ samples (getPixelData image) = [10; 50; -5; 30]).
Proof.
  split.
  - repeat split; try reflexivity.
    eexists. split; [vm_compute; reflexivity|]. repeat split.
  - repeat split; try reflexivity.
    eexists. split; [vm_compute; reflexivity|].
    repeat split; vm_compute; reflexivity.
Qed.

(** C4 (amended).  The decoder fails, and produces no image, when the
    payload does not parse and when the data set has no pixel data element;
    the latter failure is the [TypeError] of reading [dataOffset] of
    [undefined], unless an accessor threw before. *)
Theorem decode_fails_without_pixel_data parseDicom (id : string)
    (payload : TypedArray) :
  (forall e, parseDicom payload = Throw e ->
             createImageObjectFromDicom parseDicom id payload = Throw e)
  /\ (forall dataSet,
         parseDicom payload = Normal dataSet ->
         dicomParser.elements dataSet !! "x7fe00010" = None ->
         exists e, createImageObjectFromDicom parseDicom id payload = Throw e
                   /\ forall w h photoInterp,
                        dicomParser.uint16 dataSet "x00280011" = Normal w ->
                        dicomParser.uint16 dataSet "x00280010" = Normal h ->
                        dicomParser.string dataSet "x00280004" = Normal photoInterp ->
                        e = TypeError "Cannot read property 'dataOffset' of undefined").
Proof.
  split.
  - intros e H. unfold createImageObjectFromDicom. rewrite H. reflexivity.
  - intros dataSet Hparse Hnone.
    unfold createImageObjectFromDicom, mbind, Completion_bind.
    rewrite Hparse, Hnone.
    destruct (dicomParser.uint16 dataSet "x00280011") as [w|e1];
      [|exists e1; split; [reflexivity|intros; discriminate]].
    destruct (dicomParser.uint16 dataSet "x00280010") as [h|e2];
      [|exists e2; split; [reflexivity|intros; discriminate]].
    destruct (dicomParser.string dataSet "x00280004") as [photoInterp|e3];
      [|exists e3; split; [reflexivity|intros; discriminate]].
    eexists. split; reflexivity.
Qed.

Lemma decode_fails_without_pixel_data_witness :
  createImageObjectFromDicom (fun _ => Normal Synthetic.dataSetNoPixels)
    "dicomImageLoader://store/instances/1" (Synthetic.payload2x2 "MONOCHROME2 ")
  = Throw (TypeError "Cannot read property 'dataOffset' of undefined")
  /\ createImageObjectFromDicom Session.noParser
       "dicomImageLoader://store/instances/1" (Synthetic.payload2x2 "MONOCHROME2 ")
     = Throw (Thrown "dicomParser.parseDicom: not a DICOM P10 file").
Proof.
  split.
  - destruct (proj2 (decode_fails_without_pixel_data
                       (fun _ => Normal Synthetic.dataSetNoPixels)
                       "dicomImageLoader://store/instances/1"
                       (Synthetic.payload2x2 "MONOCHROME2 "))
                    Synthetic.dataSetNoPixels eq_refl eq_refl) as (e & He & Hkind).
    rewrite He. f_equal.
    apply (Hkind (Some 2) (Some 2) (Some "MONOCHROME2")); reflexivity.
  - apply (proj1 (decode_fails_without_pixel_data Session.noParser
                    "dicomImageLoader://store/instances/1"
                    (Synthetic.payload2x2 "MONOCHROME2 "))).
    reflexivity.
Defined.

(** ** The pixel buffer *)

Lemma new_Int16Array_Normal (b : ArrayBuffer) (offset : Z) (view : TypedArray) :
  new_Int16Array b offset = Normal view ->
  buffer view = b /\ byteOffset view = offset
  /\ 0 <= offset <= byteLength b
  /\ offset mod 2 = 0 /\ byteLength b mod 2 = 0
  /\ 2 * ta_length view = byteLength b - offset.
Proof.
  unfold new_Int16Array.
  destruct (Z.ltb_spec offset 0); [discriminate|].
  destruct (Z.eqb_spec (offset mod 2) 0); [|discriminate].
  destruct (Z.eqb_spec (byteLength b mod 2) 0); [|discriminate].
  destruct (Z.ltb_spec (byteLength b - offset) 0); [discriminate|].
  cbn. intros [= <-]. cbn.
  repeat split; try assumption; try lia.
  Z.div_mod_to_equations. lia.
Qed.




(** ** Authenticated requests *)

Section AuthenticatedFetch.

Variable env : api.Env.
Variable url : string.
Variable w : api.World.

Let authorization : string := "Bearer " +:+ default "" (api.getAccessToken env).
Let sent : api.World :=
  {| api.signIns := api.signIns w;
     api.requests := api.requests w ++ [(url, authorization)] |}.

Lemma authenticatedFetch_no_token :
  api.hasToken (api.getAccessToken env) = false ->
  api.authenticatedFetch env url w = (api.signInToGoogle w, Normal None).
Proof. intros H. unfold api.authenticatedFetch. rewrite H. reflexivity. Qed.

Lemma authenticatedFetch_unauthorized (response : api.Response) :
  api.hasToken (api.getAccessToken env) = true ->
  api.fetch env url authorization = Normal response ->
  api.status response = 401 ->
  api.authenticatedFetch env url w
  = (api.signInToGoogle sent, Normal (Some response)).
Proof.
  intros Htoken Hfetch Hstatus. unfold api.authenticatedFetch.
  rewrite Htoken. fold authorization. rewrite Hfetch.
  unfold api.ok. rewrite Hstatus. reflexivity.
Qed.

Lemma authenticatedFetch_other_failure (response : api.Response) :
  api.hasToken (api.getAccessToken env) = true ->
  api.fetch env url authorization = Normal response ->
  api.ok response = false ->
  api.status response <> 401 ->
  api.authenticatedFetch env url w = (sent, Throw (Error "[object Promise]")).
Proof.
  intros Htoken Hfetch Hok Hstatus. unfold api.authenticatedFetch.
  rewrite Htoken. fold authorization. rewrite Hfetch, Hok. cbn [negb].
  destruct (Z.eqb_spec (api.status response) 401); [contradiction|reflexivity].
Qed.

Lemma authenticatedFetch_ok (response : api.Response) :
  api.hasToken (api.getAccessToken env) = true ->
  api.fetch env url authorization = Normal response ->
  api.ok response = true ->
  api.authenticatedFetch env url w = (sent, Normal (Some response)).
Proof.
  intros Htoken Hfetch Hok. unfold api.authenticatedFetch.
  rewrite Htoken. fold authorization. rewrite Hfetch, Hok. reflexivity.
Qed.

Lemma authenticatedFetch_rejected (error : Exn) :
  api.hasToken (api.getAccessToken env) = true ->
  api.fetch env url authorization = Throw error ->
  api.authenticatedFetch env url w = (sent, Throw error).
Proof.
  intros Htoken Hfetch. unfold api.authenticatedFetch.
  rewrite Htoken. fold authorization. rewrite Hfetch. reflexivity.
Qed.

End AuthenticatedFetch.

(** C5 (as stated, refuted).  With a token at hand and a server answering
    401, [authenticatedFetch] calls [auth.signInToGoogle] once and then
    returns the 401 response to its caller: the promise is fulfilled, not
    rejected. *)
Lemma unauthorized_fetch_does_not_fail :
  api.authenticatedFetch
    (api.mkEnv (Some "token") (fun _ _ => Normal (api.mkResponse 401 "Unauthorized")))
    "https://healthcare.googleapis.com/v1/projects"
    (api.mkWorld 0 [])
  = (api.mkWorld 1 [("https://healthcare.googleapis.com/v1/projects", "Bearer token")],
     Normal (Some (api.mkResponse 401 "Unauthorized"))).
Proof. reflexivity. Qed.

(** C5 (amended).  When the response has status 401, [authenticatedFetch]
    triggers the sign-in of the identity module once and returns that
    response to its caller without throwing.  Any other response that is
    not ok makes it throw, and a rejected request is passed on, both
    without sign-in; an ok response is returned, without sign-in.  Without
    a token no request is sent, sign-in is triggered and [undefined] is
    returned.  Hence sign-in is triggered exactly for a 401 response and
    for a missing token, never for another failure. *)
Theorem authenticatedFetch_sign_in_on_401_only (env : api.Env) (url : string)
    (w : api.World) :
  let authorization := "Bearer " +:+ default "" (api.getAccessToken env) in
  let sent := {| api.signIns := api.signIns w;
                 api.requests := api.requests w ++ [(url, authorization)] |} in
  (forall response,
      api.hasToken (api.getAccessToken env) = true ->
      api.fetch env url authorization = Normal response ->
      api.status response = 401 ->
      api.authenticatedFetch env url w
      = (api.signInToGoogle sent, Normal (Some response)))
  /\ (forall response,
         api.hasToken (api.getAccessToken env) = true ->
         api.fetch env url authorization = Normal response ->
         api.ok response = false -> api.status response <> 401 ->
         api.authenticatedFetch env url w = (sent, Throw (Error "[object Promise]")))
  /\ (forall error,
         api.hasToken (api.getAccessToken env) = true ->
         api.fetch env url authorization = Throw error ->
         api.authenticatedFetch env url w = (sent, Throw error))
  /\ (forall response,
         api.hasToken (api.getAccessToken env) = true ->
         api.fetch env url authorization = Normal response ->
         api.ok response = true ->
         api.authenticatedFetch env url w = (sent, Normal (Some response)))
  /\ (api.hasToken (api.getAccessToken env) = false ->
      api.authenticatedFetch env url w = (api.signInToGoogle w, Normal None))
  /\ (api.signIns (fst (api.authenticatedFetch env url w)) <> api.signIns w <->
      api.hasToken (api.getAccessToken env) = false
      \/ exists response, api.fetch env url authorization = Normal response
                          /\ api.status response = 401).
Proof.
  intros authorization sent.
  split; [apply authenticatedFetch_unauthorized|].
  split; [apply authenticatedFetch_other_failure|].
  split; [apply authenticatedFetch_rejected|].
  split; [apply authenticatedFetch_ok|].
  split; [apply authenticatedFetch_no_token|].
  destruct (api.hasToken (api.getAccessToken env)) eqn:Htoken.
  - destruct (api.fetch env url authorization) as [response|error] eqn:Hfetch.
    + destruct (Z.eq_dec (api.status response) 401) as [H401|Hnot].
      * rewrite (authenticatedFetch_unauthorized env url w response Htoken Hfetch H401).
        cbn. split; [eauto|lia].
      * destruct (api.ok response) eqn:Hok.
        -- rewrite (authenticatedFetch_ok env url w response Htoken Hfetch Hok).
           cbn. split; [congruence|].
           intros [?|(r & [= <-] & ?)]; [discriminate|contradiction].
        -- rewrite (authenticatedFetch_other_failure env url w response
                      Htoken Hfetch Hok Hnot).
           cbn. split; [congruence|].
           intros [?|(r & [= <-] & ?)]; [discriminate|contradiction].
    + rewrite (authenticatedFetch_rejected env url w error Htoken Hfetch).
      cbn. split; [congruence|].
      intros [?|(r & ? & ?)]; discriminate.
  - rewrite (authenticatedFetch_no_token env url w Htoken). cbn.
    split; [auto|lia].
Qed.

Lemma authenticatedFetch_sign_in_on_401_only_witness :
  api.authenticatedFetch
    (api.mkEnv (Some "token") (fun _ _ => Normal (api.mkResponse 401 "Unauthorized")))
    "https://healthcare.googleapis.com/v1/projects" (api.mkWorld 0 [])
  = (api.signInToGoogle
       (api.mkWorld 0 [("https://healthcare.googleapis.com/v1/projects",
                        "Bearer token")]),
     Normal (Some (api.mkResponse 401 "Unauthorized")))
  /\ api.authenticatedFetch
       (api.mkEnv (Some "token") (fun _ _ => Normal (api.mkResponse 500 "Internal")))
       "https://healthcare.googleapis.com/v1/projects" (api.mkWorld 0 [])
     = (api.mkWorld 0 [("https://healthcare.googleapis.com/v1/projects",
                        "Bearer token")],
        Throw (Error "[object Promise]"))
  /\ api.authenticatedFetch
       (api.mkEnv (Some "token") (fun _ _ => Throw (TypeError "Failed to fetch")))
       "https://healthcare.googleapis.com/v1/projects" (api.mkWorld 0 [])
     = (api.mkWorld 0 [("https://healthcare.googleapis.com/v1/projects",
                        "Bearer token")],
        Throw (TypeError "Failed to fetch"))
  /\ api.authenticatedFetch
       (api.mkEnv (Some "token") (fun _ _ => Normal (api.mkResponse 200 "{}")))
       "https://healthcare.googleapis.com/v1/projects" (api.mkWorld 0 [])
     = (api.mkWorld 0 [("https://healthcare.googleapis.com/v1/projects",
                        "Bearer token")],
        Normal (Some (api.mkResponse 200 "{}")))
  /\ api.authenticatedFetch
       (api.mkEnv None (fun _ _ => Normal (api.mkResponse 200 "{}")))
       "https://healthcare.googleapis.com/v1/projects" (api.mkWorld 0 [])
     = (api.mkWorld 1 [], Normal None).
Proof.
  split; [|split; [|split; [|split]]].
  - pose proof (authenticatedFetch_sign_in_on_401_only
                  (api.mkEnv (Some "token")
                     (fun _ _ => Normal (api.mkResponse 401 "Unauthorized")))
                  "https://healthcare.googleapis.com/v1/projects"
                  (api.mkWorld 0 [])) as H.
    cbv zeta in H. destruct H as (H401 & _).
    apply H401; reflexivity.
  - pose proof (authenticatedFetch_sign_in_on_401_only
                  (api.mkEnv (Some "token")
                     (fun _ _ => Normal (api.mkResponse 500 "Internal")))
                  "https://healthcare.googleapis.com/v1/projects"
                  (api.mkWorld 0 [])) as H.
    cbv zeta in H. destruct H as (_ & Hother & _).
    apply (Hother (api.mkResponse 500 "Internal")).
    + reflexivity.
    + reflexivity.
    + reflexivity.
    + cbn. lia.
  - pose proof (authenticatedFetch_sign_in_on_401_only
                  (api.mkEnv (Some "token")
                     (fun _ _ => Throw (TypeError "Failed to fetch")))
                  "https://healthcare.googleapis.com/v1/projects"
                  (api.mkWorld 0 [])) as H.
    cbv zeta in H. destruct H as (_ & _ & Hrejected & _).
    apply Hrejected; reflexivity.
  - pose proof (authenticatedFetch_sign_in_on_401_only
                  (api.mkEnv (Some "token")
                     (fun _ _ => Normal (api.mkResponse 200 "{}")))
                  "https://healthcare.googleapis.com/v1/projects"
                  (api.mkWorld 0 [])) as H.
    cbv zeta in H. destruct H as (_ & _ & _ & Hok & _).
    apply Hok; reflexivity.
  - pose proof (authenticatedFetch_sign_in_on_401_only
                  (api.mkEnv None (fun _ _ => Normal (api.mkResponse 200 "{}")))
                  "https://healthcare.googleapis.com/v1/projects"
                  (api.mkWorld 0 [])) as H.
    cbv zeta in H. destruct H as (_ & _ & _ & _ & Hnone & _).
    apply Hnone; reflexivity.
Defined.

(** ** The worker list *)

Lemma acquireWebworker_idle (st : Loader) (free : list nat) (w : nat) :
  availableWebworkers st = free ++ [w] ->
  acquireWebworker st = (w, free, workersCreated st).
Proof.
  intros H. unfold acquireWebworker. rewrite H.
  rewrite last_snoc, removelast_last, length_app.
  destruct (Nat.ltb_spec 0 (List.length free + List.length [w])) as [_|Hlen];
    [reflexivity|].
  cbn in Hlen. lia.
Qed.

Lemma acquireWebworker_none (st : Loader) :
  availableWebworkers st = [] ->
  acquireWebworker st = (workersCreated st, [], S (workersCreated st)).
Proof. intros H. unfold acquireWebworker. rewrite H. reflexivity. Qed.

Lemma acquireWebworker_created (st : Loader) :
  snd (acquireWebworker st) <> workersCreated st -> availableWebworkers st = [].
Proof.
  destruct (availableWebworkers st) as [|x l] eqn:H using rev_ind; [reflexivity|].
  rewrite (acquireWebworker_idle st l x H). cbn. congruence.
Qed.

Lemma loadImage_offloaded (imageId : string) (st : Loader) :
  config st !! "useWebworkersToFetch" = Some true ->
  loadImage imageId st
  = (List.length (promises st),
     {| config := config st;
        availableWebworkers := snd (fst (acquireWebworker st));
        workersCreated := snd (acquireWebworker st);
        onmessage := <[acquired st := mkHandler (List.length (promises st)) (acquired st)]>
                       (onmessage st);
        posted := posted st ++ [(acquired st,
                                 mkMessage "fetchDicom"
                                   (replace "dicomImageLoader" "https" imageId))];
        promises := promises st ++ [Pending];
        fetching := fetching st |}).
Proof.
  intros Hflag. unfold loadImage, acquired. rewrite Hflag. cbn [truthy].
  destruct (acquireWebworker st) as [[w available] created]. reflexivity.
Qed.

Lemma loadImage_inline (imageId : string) (st : Loader) :
  config st !! "useWebworkersToFetch" <> Some true ->
  loadImage imageId st
  = (List.length (promises st),
     {| config := config st; availableWebworkers := availableWebworkers st;
        workersCreated := workersCreated st; onmessage := onmessage st;
        posted := posted st; promises := promises st ++ [Pending];
        fetching := <[List.length (promises st) :=
                        (imageId, replace "dicomImageLoader" "https" imageId)]>
                      (fetching st) |}).
Proof.
  intros Hflag. unfold loadImage.
  destruct (config st !! "useWebworkersToFetch") as [[]|]; try reflexivity.
  contradiction Hflag. reflexivity.
Qed.

Lemma settle_fields (p : nat) (o : PromiseState) (st : Loader) :
  config (settle p o st) = config st
  /\ availableWebworkers (settle p o st) = availableWebworkers st
  /\ workersCreated (settle p o st) = workersCreated st
  /\ onmessage (settle p o st) = onmessage st
  /\ posted (settle p o st) = posted st
  /\ fetching (settle p o st) = fetching st
  /\ List.length (promises (settle p o st)) = List.length (promises st)
  /\ forall q, q <> p -> promises (settle p o st) !! q = promises st !! q.
Proof.
  unfold settle. destruct (promises st !! p) as [[]|]; cbn;
    repeat split; try reflexivity.
  - apply length_insert.
  - intros q Hq. apply list_lookup_insert_ne. congruence.
Qed.

Lemma step_workersCreated parseDicom (st : Loader) (ev : Event) :
  workersCreated (step parseDicom st ev) <> workersCreated st ->
  availableWebworkers st = []
  /\ config st !! "useWebworkersToFetch" = Some true
  /\ exists imageId, ev = CallLoadImage imageId.
Proof.
  destruct ev as [imageId|newConfig|w|p byteArray|p error]; cbn [step].
  - destruct (decide (config st !! "useWebworkersToFetch" = Some true)) as [Hflag|Hflag].
    + rewrite (loadImage_offloaded imageId st Hflag). cbn. intros Hc.
      split; [apply acquireWebworker_created; exact Hc|]. eauto.
    + rewrite (loadImage_inline imageId st Hflag). cbn. congruence.
  - cbn. congruence.
  - destruct (onmessage st !! w); cbn; congruence.
  - destruct (fetching st !! p) as [[imageId u]|]; [|congruence].
    destruct (createImageObjectFromDicom parseDicom imageId byteArray);
      rewrite (proj1 (proj2 (proj2 (settle_fields _ _ _)))); cbn; congruence.
  - destruct (fetching st !! p); [|congruence].
    rewrite (proj1 (proj2 (proj2 (settle_fields _ _ _)))); cbn; congruence.
Qed.

(** C6.  With the fetch flag on, [loadImage] takes the last worker of
    [availableWebworkers] whenever the list is not empty, and the number of
    workers created stays the same; it creates a worker only when the list
    is empty.  No other event creates a worker.  When the worker taken by a
    call delivers its message it is appended to [availableWebworkers], and
    the next call takes that very worker without creating one. *)
Theorem worker_reuse parseDicom :
  (forall (imageId : string) (st : Loader) (free : list nat) (w : nat),
      config st !! "useWebworkersToFetch" = Some true ->
      availableWebworkers st = free ++ [w] ->
      workersCreated (snd (loadImage imageId st)) = workersCreated st
      /\ availableWebworkers (snd (loadImage imageId st)) = free
      /\ posted (snd (loadImage imageId st))
         = posted st ++ [(w, mkMessage "fetchDicom"
                               (replace "dicomImageLoader" "https" imageId))])
  /\ (forall (imageId : string) (st : Loader),
         config st !! "useWebworkersToFetch" = Some true ->
         availableWebworkers st = [] ->
         workersCreated (snd (loadImage imageId st)) = S (workersCreated st)
         /\ availableWebworkers (snd (loadImage imageId st)) = []
         /\ posted (snd (loadImage imageId st))
            = posted st ++ [(workersCreated st,
                             mkMessage "fetchDicom"
                               (replace "dicomImageLoader" "https" imageId))])
  /\ (forall (st : Loader) (ev : Event),
         workersCreated (step parseDicom st ev) <> workersCreated st ->
         availableWebworkers st = [])
  /\ (forall (imageId : string) (st : Loader),
         config st !! "useWebworkersToFetch" = Some true ->
         availableWebworkers
           (step parseDicom (snd (loadImage imageId st)) (WorkerMessage (acquired st)))
         = availableWebworkers (snd (loadImage imageId st)) ++ [acquired st])
  /\ (forall (imageId nextId : string) (st : Loader),
         config st !! "useWebworkersToFetch" = Some true ->
         let busy := snd (loadImage imageId st) in
         let idle := step parseDicom busy (WorkerMessage (acquired st)) in
         workersCreated (snd (loadImage nextId idle)) = workersCreated busy
         /\ acquired idle = acquired st).
Proof.
  split; [|split; [|split; [|split]]].
  - intros imageId st free w Hflag Hfree.
    rewrite (loadImage_offloaded imageId st Hflag). unfold acquired.
    rewrite (acquireWebworker_idle st free w Hfree). cbn. auto.
  - intros imageId st Hflag Hfree.
    rewrite (loadImage_offloaded imageId st Hflag). unfold acquired.
    rewrite (acquireWebworker_none st Hfree). cbn. auto.
  - intros st ev H. apply (step_workersCreated parseDicom st ev H).
  - intros imageId st Hflag.
    rewrite (loadImage_offloaded imageId st Hflag). cbn.
    rewrite lookup_insert_eq. reflexivity.
  - intros imageId nextId st Hflag busy idle.
    assert (Hidle : availableWebworkers idle
                    = availableWebworkers busy ++ [acquired st]
                    /\ workersCreated idle = workersCreated busy
                    /\ config idle = config st).
    { subst idle busy. rewrite (loadImage_offloaded imageId st Hflag). cbn.
      rewrite lookup_insert_eq. cbn. auto. }
    destruct Hidle as (Hfree & Hcreated & Hconfig).
    assert (Hflag' : config idle !! "useWebworkersToFetch" = Some true)
      by (rewrite Hconfig; exact Hflag).
    clearbody idle busy.
    pose proof (acquireWebworker_idle idle _ _ Hfree) as Hacq.
    split.
    + rewrite (loadImage_offloaded nextId idle Hflag').
      cbn [snd workersCreated]. rewrite Hacq. exact Hcreated.
    + unfold acquired at 1. rewrite Hacq. reflexivity.
Qed.

Lemma worker_reuse_witness :
  (workersCreated Session.busy = 1%nat /\ availableWebworkers Session.busy = [])
  /\ availableWebworkers Session.offloaded = []
  /\ availableWebworkers Session.idle = [0%nat]
  /\ (workersCreated
        (snd (loadImage "dicomImageLoader://store/instances/2" Session.idle)) = 1%nat
      /\ availableWebworkers
           (snd (loadImage "dicomImageLoader://store/instances/2" Session.idle)) = [])
  /\ acquired Session.idle = 0%nat.
Proof.
  pose proof (worker_reuse Session.noParser)
    as (Hreuse & Hcreate & Honly & Hreturn & Hnext).
  split; [|split; [|split; [|split]]].
  - destruct (Hcreate "dicomImageLoader://store/instances/1" Session.offloaded)
      as (Hc & Hf & _); [reflexivity|reflexivity|].
    split; [exact Hc|exact Hf].
  - apply (Honly Session.offloaded
                 (CallLoadImage "dicomImageLoader://store/instances/1")).
    cbn. discriminate.
  - apply (Hreturn "dicomImageLoader://store/instances/1" Session.offloaded).
    reflexivity.
  - destruct (Hreuse "dicomImageLoader://store/instances/2" Session.idle [] 0%nat)
      as (Hc & Hf & _); [reflexivity|reflexivity|].
    split; [exact Hc|exact Hf].
  - apply (Hnext "dicomImageLoader://store/instances/1"
                 "dicomImageLoader://store/instances/2" Session.offloaded).
    reflexivity.
Defined.

(** ** Handlers of returned workers *)




(** ** Settling of the promise *)

Lemma fetchesKnown_initial : fetchesKnown initialLoader.
Proof. intros p [x Hx]. cbn in Hx. rewrite lookup_empty in Hx. discriminate. Qed.

Lemma fetchesKnown_settle (p : nat) (o : PromiseState) (st : Loader) :
  fetchesKnown st -> fetchesKnown (settle p o (endFetch p st)).
Proof.
  unfold fetchesKnown. intros Hinv q Hq.
  destruct (settle_fields p o (endFetch p st)) as (_ & _ & _ & _ & _ & Hf & Hl & _).
  rewrite Hf in Hq. rewrite Hl. cbn in Hq |- *. apply Hinv.
  destruct (decide (q = p)) as [->|Hne].
  - rewrite lookup_delete_eq in Hq. destruct Hq; discriminate.
  - rewrite lookup_delete_ne in Hq by congruence. exact Hq.
Qed.

Lemma fetchesKnown_step parseDicom (st : Loader) (ev : Event) :
  fetchesKnown st -> fetchesKnown (step parseDicom st ev).
Proof.
  intros Hinv.
  destruct ev as [imageId|newConfig|w|p byteArray|p error]; cbn [step].
  - unfold fetchesKnown in *.
    destruct (decide (config st !! "useWebworkersToFetch" = Some true)) as [Hflag|Hflag].
    + rewrite (loadImage_offloaded imageId st Hflag). cbn. intros q Hq.
      rewrite length_app. cbn. specialize (Hinv q Hq). lia.
    + rewrite (loadImage_inline imageId st Hflag). cbn. intros q Hq.
      rewrite length_app. cbn.
      destruct (decide (q = List.length (promises st))) as [->|Hne]; [lia|].
      rewrite lookup_insert_ne in Hq by congruence. specialize (Hinv q Hq). lia.
  - exact Hinv.
  - destruct (onmessage st !! w); exact Hinv.
  - destruct (fetching st !! p) as [[imageId u]|]; [|exact Hinv].
    destruct (createImageObjectFromDicom parseDicom imageId byteArray);
      apply fetchesKnown_settle; exact Hinv.
  - destruct (fetching st !! p); [|exact Hinv].
    apply fetchesKnown_settle; exact Hinv.
Qed.

Lemma fetchesKnown_run parseDicom (evs : list Event) (st : Loader) :
  fetchesKnown st -> fetchesKnown (run parseDicom st evs).
Proof.
  revert st. induction evs as [|ev evs IH]; intros st Hinv; [exact Hinv|].
  cbn. apply IH. apply fetchesKnown_step. exact Hinv.
Qed.

(** A pending promise with no fetch in flight stays so, whatever happens. *)
Lemma unfetched_pending_step parseDicom (st : Loader) (ev : Event) (p : nat) :
  promises st !! p = Some Pending -> fetching st !! p = None ->
  promises (step parseDicom st ev) !! p = Some Pending
  /\ fetching (step parseDicom st ev) !! p = None.
Proof.
  intros Hp Hf. pose proof (lookup_lt_Some _ _ _ Hp) as Hlt.
  destruct ev as [imageId|newConfig|w|q byteArray|q error]; cbn [step].
  - destruct (decide (config st !! "useWebworkersToFetch" = Some true)) as [Hflag|Hflag].
    + rewrite (loadImage_offloaded imageId st Hflag). cbn.
      rewrite lookup_app_l by exact Hlt. auto.
    + rewrite (loadImage_inline imageId st Hflag). cbn.
      rewrite lookup_app_l by exact Hlt.
      rewrite lookup_insert_ne by lia. auto.
  - cbn. auto.
  - destruct (onmessage st !! w); cbn; auto.
  - destruct (fetching st !! q) as [[imageId u]|] eqn:Hq; [|auto].
    assert (Hne : p <> q) by congruence.
    destruct (createImageObjectFromDicom parseDicom imageId byteArray) as [image|e].
    + destruct (settle_fields q (Fulfilled image) (endFetch q st))
        as (_ & _ & _ & _ & _ & Hf' & _ & Hl').
      rewrite Hf', (Hl' p Hne). cbn. rewrite lookup_delete_ne by congruence. auto.
    + destruct (settle_fields q (Rejected e) (endFetch q st))
        as (_ & _ & _ & _ & _ & Hf' & _ & Hl').
      rewrite Hf', (Hl' p Hne). cbn. rewrite lookup_delete_ne by congruence. auto.
  - destruct (fetching st !! q) as [x|] eqn:Hq; [|auto].
    assert (Hne : p <> q) by congruence.
    destruct (settle_fields q (Rejected error) (endFetch q st))
      as (_ & _ & _ & _ & _ & Hf' & _ & Hl').
    rewrite Hf', (Hl' p Hne). cbn. rewrite lookup_delete_ne by congruence. auto.
Qed.

Lemma unfetched_pending_run parseDicom (evs : list Event) (st : Loader) (p : nat) :
  promises st !! p = Some Pending -> fetching st !! p = None ->
  promises (run parseDicom st evs) !! p = Some Pending.
Proof.
  revert st. induction evs as [|ev evs IH]; intros st Hp Hf; [exact Hp|].
  cbn. destruct (unfetched_pending_step parseDicom st ev p Hp Hf) as [Hp' Hf'].
  apply IH; assumption.
Qed.

(** A settled promise keeps its outcome. *)
Lemma settled_is_final parseDicom (st : Loader) (ev : Event) (p : nat)
    (o : PromiseState) :
  promises st !! p = Some o -> o <> Pending ->
  promises (step parseDicom st ev) !! p = Some o.
Proof.
  intros Hp Ho. pose proof (lookup_lt_Some _ _ _ Hp) as Hlt.
  assert (Hsettle : forall q o', promises (settle q o' (endFetch q st)) !! p = Some o).
  { intros q o'. unfold settle. cbn [promises endFetch].
    destruct (promises st !! q) as [[]|] eqn:Hq; try exact Hp.
    cbn. rewrite list_lookup_insert_ne; [exact Hp|]. congruence. }
  destruct ev as [imageId|newConfig|w|q byteArray|q error]; cbn [step].
  - destruct (decide (config st !! "useWebworkersToFetch" = Some true)) as [Hflag|Hflag].
    + rewrite (loadImage_offloaded imageId st Hflag). cbn.
      rewrite lookup_app_l by exact Hlt. exact Hp.
    + rewrite (loadImage_inline imageId st Hflag). cbn.
      rewrite lookup_app_l by exact Hlt. exact Hp.
  - exact Hp.
  - destruct (onmessage st !! w); exact Hp.
  - destruct (fetching st !! q) as [[imageId u]|]; [|exact Hp].
    destruct (createImageObjectFromDicom parseDicom imageId byteArray); apply Hsettle.
  - destruct (fetching st !! q); [|exact Hp]. apply Hsettle.
Qed.

(** Without the fetch flag the promise settles as soon as the fetch does:
    it is fulfilled with the decoded image, or rejected with what the
    decoder threw or with the reason the fetch was rejected for. *)
Lemma inline_load_settles parseDicom (before : list Event) (imageId : string) :
  let st := run parseDicom initialLoader before in
  let p := fst (loadImage imageId st) in
  let st' := snd (loadImage imageId st) in
  config st !! "useWebworkersToFetch" <> Some true ->
  promises st' !! p = Some Pending
  /\ (forall byteArray,
         promises (step parseDicom st' (FetchResolved p byteArray)) !! p
         = Some match createImageObjectFromDicom parseDicom imageId byteArray with
                | Normal image => Fulfilled image
                | Throw error => Rejected error
                end)
  /\ (forall error,
         promises (step parseDicom st' (FetchRejected p error)) !! p
         = Some (Rejected error)).
Proof.
  intros st p st' Hflag. subst p st'.
  rewrite (loadImage_inline imageId st Hflag). cbn [fst snd].
  assert (Hnew : (promises st ++ [Pending]) !! List.length (promises st)
                 = Some Pending).
  { rewrite lookup_app_r by lia. rewrite Nat.sub_diag. reflexivity. }
  assert (Hins : forall o, <[List.length (promises st) := o]> (promises st ++ [Pending])
                           !! List.length (promises st) = Some o).
  { intros o. apply list_lookup_insert_eq. rewrite length_app. cbn. lia. }
  split; [exact Hnew|]. split.
  - intros byteArray. cbn [step fetching]. rewrite lookup_insert_eq.
    destruct (createImageObjectFromDicom parseDicom imageId byteArray);
      unfold settle; cbn [promises endFetch]; rewrite Hnew; cbn; apply Hins.
  - intros error. cbn [step fetching]. rewrite lookup_insert_eq.
    unfold settle; cbn [promises endFetch]; rewrite Hnew; cbn; apply Hins.
Qed.

(** C1 (the code departs from the claim).  In every state the module can
    reach with the fetch flag on, the promise that [loadImage] returns is
    pending and remains pending after any sequence of later events (calls,
    worker messages, fetch outcomes): the executor returns without keeping
    [resolve] or [reject], and the worker's handler only pushes the worker
    back, so the promise never settles with an image or an error. *)
Theorem offloaded_load_never_settles parseDicom (before after : list Event)
    (imageId : string) :
  config (run parseDicom initialLoader before) !! "useWebworkersToFetch" = Some true ->
  promises (run parseDicom
              (snd (loadImage imageId (run parseDicom initialLoader before))) after)
    !! fst (loadImage imageId (run parseDicom initialLoader before))
  = Some Pending.
Proof.
  intros Hflag. set (st := run parseDicom initialLoader before) in *.
  assert (Hinv : fetchesKnown st)
    by (apply fetchesKnown_run, fetchesKnown_initial).
  rewrite (loadImage_offloaded imageId st Hflag). cbn [fst snd].
  apply unfetched_pending_run; cbn [promises fetching].
  - rewrite lookup_app_r by lia. rewrite Nat.sub_diag. reflexivity.
  - destruct (fetching st !! List.length (promises st)) as [x|] eqn:Hx; [|reflexivity].
    assert (Hsome : is_Some (fetching st !! List.length (promises st))) by eauto.
    specialize (Hinv _ Hsome). lia.
Qed.

Lemma offloaded_load_never_settles_witness :
  promises (run Session.noParser
              (snd (loadImage "dicomImageLoader://store/instances/1" Session.offloaded))
              [WorkerMessage 0%nat;
               FetchResolved 0%nat (Synthetic.payload2x2 "MONOCHROME2 ");
               FetchRejected 0%nat (Error "Failed to fetch")])
    !! 0%nat
  = Some Pending.
Proof.
  exact (offloaded_load_never_settles Session.noParser
           [CallConfigure {[ "useWebworkersToFetch" := true;
                             "useWebworkersToParse" := true ]}]
           [WorkerMessage 0%nat;
            FetchResolved 0%nat (Synthetic.payload2x2 "MONOCHROME2 ");
            FetchRejected 0%nat (Error "Failed to fetch")]
           "dicomImageLoader://store/instances/1" eq_refl).
Defined.

(** * Further properties of the loader *)

(** ** One outcome for a load that fetches inline *)

Lemma run_app parseDicom (st : Loader) (evs1 evs2 : list Event) :
  run parseDicom st (evs1 ++ evs2) = run parseDicom (run parseDicom st evs1) evs2.
Proof. unfold run. apply fold_left_app. Qed.

Lemma settled_is_final_run parseDicom (evs : list Event) (st : Loader) (p : nat)
    (o : PromiseState) :
  promises st !! p = Some o -> o <> Pending ->
  promises (run parseDicom st evs) !! p = Some o.
Proof.
  revert st. induction evs as [|ev evs IH]; intros st Hp Ho; [exact Hp|].
  cbn. apply IH; [|exact Ho]. apply settled_is_final; assumption.
Qed.

Lemma fetch_in_flight_step parseDicom (st : Loader) (ev : Event) (p : nat)
    (x : string * string) :
  promises st !! p = Some Pending -> fetching st !! p = Some x ->
  notFetchOf p ev ->
  promises (step parseDicom st ev) !! p = Some Pending
  /\ fetching (step parseDicom st ev) !! p = Some x.
Proof.
  intros Hp Hf Hev. pose proof (lookup_lt_Some _ _ _ Hp) as Hlt.
  destruct ev as [imageId|newConfig|w|q byteArray|q error]; cbn [step].
  - destruct (decide (config st !! "useWebworkersToFetch" = Some true)) as [Hflag|Hflag].
    + rewrite (loadImage_offloaded imageId st Hflag). cbn.
      rewrite lookup_app_l by exact Hlt. auto.
    + rewrite (loadImage_inline imageId st Hflag). cbn.
      rewrite lookup_app_l by exact Hlt.
      rewrite lookup_insert_ne by lia. auto.
  - cbn. auto.
  - destruct (onmessage st !! w); cbn; auto.
  - cbn in Hev. destruct (fetching st !! q) as [[imageId u]|] eqn:Hq; [|auto].
    destruct (createImageObjectFromDicom parseDicom imageId byteArray) as [image|e].
    + destruct (settle_fields q (Fulfilled image) (endFetch q st))
        as (_ & _ & _ & _ & _ & Hf' & _ & Hl').
      rewrite Hf', (Hl' p) by congruence. cbn.
      rewrite lookup_delete_ne by congruence. auto.
    + destruct (settle_fields q (Rejected e) (endFetch q st))
        as (_ & _ & _ & _ & _ & Hf' & _ & Hl').
      rewrite Hf', (Hl' p) by congruence. cbn.
      rewrite lookup_delete_ne by congruence. auto.
  - cbn in Hev. destruct (fetching st !! q) as [y|] eqn:Hq; [|auto].
    destruct (settle_fields q (Rejected error) (endFetch q st))
      as (_ & _ & _ & _ & _ & Hf' & _ & Hl').
    rewrite Hf', (Hl' p) by congruence. cbn.
    rewrite lookup_delete_ne by congruence. auto.
Qed.

Lemma fetch_in_flight_run parseDicom (evs : list Event) (st : Loader) (p : nat)
    (x : string * string) :
  promises st !! p = Some Pending -> fetching st !! p = Some x ->
  Forall (notFetchOf p) evs ->
  promises (run parseDicom st evs) !! p = Some Pending
  /\ fetching (run parseDicom st evs) !! p = Some x.
Proof.
  revert st. induction evs as [|ev evs IH]; intros st Hp Hf Hevs; [auto|].
  inversion Hevs as [|? ? Hev Hrest]; subst. cbn.
  destruct (fetch_in_flight_step parseDicom st ev p x Hp Hf Hev) as [Hp' Hf'].
  apply IH; assumption.
Qed.

Lemma settle_pending (p : nat) (o : PromiseState) (st : Loader) :
  promises st !! p = Some Pending -> promises (settle p o st) !! p = Some o.
Proof.
  intros Hp. unfold settle. rewrite Hp. cbn.
  apply list_lookup_insert_eq. exact (lookup_lt_Some _ _ _ Hp).
Qed.

(** X1.  A load that fetches inline has exactly one outcome.  Its promise
    is pending as long as the fetch has not settled, whatever else happens;
    when the fetch delivers a payload the promise is fulfilled with the
    decoded image, or rejected with what the decoder threw; when the fetch
    is rejected the promise is rejected with the same reason; and no later
    event changes that outcome. *)
Theorem inline_load_settles_once parseDicom (st st' : Loader) (imageId : string)
    (p : nat) (during after : list Event) :
  config st !! "useWebworkersToFetch" <> Some true ->
  loadImage imageId st = (p, st') ->
  Forall (notFetchOf p) during ->
  promises (run parseDicom st' during) !! p = Some Pending
  /\ (forall byteArray,
         promises (run parseDicom st' (during ++ FetchResolved p byteArray :: after)) !! p
         = Some match createImageObjectFromDicom parseDicom imageId byteArray with
                | Normal image => Fulfilled image
                | Throw error => Rejected error
                end)
  /\ (forall error,
         promises (run parseDicom st' (during ++ FetchRejected p error :: after)) !! p
         = Some (Rejected error)).
Proof.
  intros Hflag Hload Hduring.
  rewrite (loadImage_inline imageId st Hflag) in Hload.
  injection Hload as <- <-.
  set (p := List.length (promises st)) in *.
  set (st' := {| config := config st; availableWebworkers := availableWebworkers st;
                 workersCreated := workersCreated st; onmessage := onmessage st;
                 posted := posted st; promises := promises st ++ [Pending];
                 fetching := <[p := (imageId, replace "dicomImageLoader" "https" imageId)]>
                               (fetching st) |}).
  assert (Hp : promises st' !! p = Some Pending).
  { cbn. rewrite lookup_app_r by (subst p; lia). subst p.
    rewrite Nat.sub_diag. reflexivity. }
  assert (Hf : fetching st' !! p
               = Some (imageId, replace "dicomImageLoader" "https" imageId)).
  { cbn. apply lookup_insert_eq. }
  destruct (fetch_in_flight_run parseDicom during st' p _ Hp Hf Hduring) as [Hp' Hf'].
  split; [exact Hp'|]. split.
  - intros byteArray. rewrite run_app. cbn [run fold_left].
    fold (run parseDicom). change (fold_left (step parseDicom) after)
      with (fun s => run parseDicom s after). cbn beta.
    apply settled_is_final_run.
    + cbn [step]. rewrite Hf'.
      destruct (createImageObjectFromDicom parseDicom imageId byteArray);
        apply settle_pending; exact Hp'.
    + destruct (createImageObjectFromDicom parseDicom imageId byteArray); discriminate.
  - intros error. rewrite run_app. cbn [run fold_left].
    change (fold_left (step parseDicom) after)
      with (fun s => run parseDicom s after). cbn beta.
    apply settled_is_final_run; [|discriminate].
    cbn [step]. rewrite Hf'. apply settle_pending; exact Hp'.
Qed.

Lemma inline_load_settles_once_witness :
  promises (run (fun _ => Normal (Synthetic.dataSet2x2 "MONOCHROME2 "))
              (snd (loadImage "dicomImageLoader://store/instances/1" initialLoader))
              [CallLoadImage "dicomImageLoader://store/instances/2";
               WorkerMessage 0%nat]) !! 0%nat
  = Some Pending
  /\ (exists image,
         createImageObjectFromDicom (fun _ => Normal (Synthetic.dataSet2x2 "MONOCHROME2 "))
           "dicomImageLoader://store/instances/1" (Synthetic.payload2x2 "MONOCHROME2 ")
         = Normal image
         /\ promises (run (fun _ => Normal (Synthetic.dataSet2x2 "MONOCHROME2 "))
                        (snd (loadImage "dicomImageLoader://store/instances/1"
                                initialLoader))
                        ([CallLoadImage "dicomImageLoader://store/instances/2";
                          WorkerMessage 0%nat]
                         ++ FetchResolved 0%nat (Synthetic.payload2x2 "MONOCHROME2 ")
                         :: [FetchRejected 0%nat (Error "Failed to fetch")])) !! 0%nat
            = Some (Fulfilled image)).
Proof.
  destruct (inline_load_settles_once
              (fun _ => Normal (Synthetic.dataSet2x2 "MONOCHROME2 "))
              initialLoader
              (snd (loadImage "dicomImageLoader://store/instances/1" initialLoader))
              "dicomImageLoader://store/instances/1" 0%nat
              [CallLoadImage "dicomImageLoader://store/instances/2"; WorkerMessage 0%nat]
              [FetchRejected 0%nat (Error "Failed to fetch")])
    as (Hpending & Hresolved & _).
  - cbn. rewrite initialConfig_eq. discriminate.
  - reflexivity.
  - repeat constructor; discriminate.
  - split; [exact Hpending|].
    eexists. split; [vm_compute; reflexivity|].
    rewrite (Hresolved (Synthetic.payload2x2 "MONOCHROME2 ")). reflexivity.
Defined.

(** ** The address of a load *)

Lemma substring_all (s : string) : String.substring 0 (String.length s) s = s.
Proof. induction s as [|c s IH]; cbn; [reflexivity|]. rewrite IH. reflexivity. Qed.

Lemma replace_unfold (pat rep s : string) :
  replace pat rep s
  = if String.prefix pat s
    then rep +:+ String.substring (String.length pat)
                   (String.length s - String.length pat) s
    else match s with
         | EmptyString => EmptyString
         | String c s' => String c (replace pat rep s')
         end.
Proof. destruct s; reflexivity. Qed.

Lemma app_cons (c : ascii) (s t : string) : String c s +:+ t = String c (s +:+ t).
Proof. reflexivity. Qed.

Lemma app_empty (t : string) : "" +:+ t = t.
Proof. reflexivity. Qed.

Lemma prefix_of_app (pat rest : string) : String.prefix pat (pat +:+ rest) = true.
Proof.
  induction pat as [|c pat IH].
  - rewrite app_empty. destruct rest; reflexivity.
  - rewrite app_cons. cbn. destruct (ascii_dec c c); [exact IH|contradiction].
Qed.

Lemma substring_of_app (pat rest : string) :
  String.substring (String.length pat)
    (String.length (pat +:+ rest) - String.length pat) (pat +:+ rest) = rest.
Proof.
  induction pat as [|c pat IH].
  - rewrite app_empty. cbn. rewrite Nat.sub_0_r. apply substring_all.
  - rewrite app_cons. cbn. exact IH.
Qed.

Lemma replace_at_start (pat rep rest : string) :
  replace pat rep (pat +:+ rest) = rep +:+ rest.
Proof.
  rewrite replace_unfold, prefix_of_app, substring_of_app. reflexivity.
Qed.

Lemma prefix_app (pat s : string) :
  String.prefix pat s = true -> exists rest, s = pat +:+ rest.
Proof.
  revert s. induction pat as [|c pat IH]; intros s H.
  - exists s. reflexivity.
  - destruct s as [|d s]; cbn in H; [discriminate|].
    destruct (ascii_dec c d) as [->|]; [|discriminate].
    destruct (IH s H) as [rest ->]. exists rest. reflexivity.
Qed.

Lemma replace_absent (pat rep s : string) :
  (forall before rest, s <> before +:+ pat +:+ rest) ->
  replace pat rep s = s.
Proof.
  induction s as [|c s IH]; intros Habsent; rewrite replace_unfold.
  - destruct (String.prefix pat "") eqn:Hp; [|reflexivity].
    destruct (prefix_app _ _ Hp) as [rest Hrest].
    exfalso. apply (Habsent "" rest). exact Hrest.
  - destruct (String.prefix pat (String c s)) eqn:Hp.
    + destruct (prefix_app _ _ Hp) as [rest Hrest].
      exfalso. apply (Habsent "" rest). exact Hrest.
    + f_equal. apply IH. intros before rest Heq.
      apply (Habsent (String c before) rest). rewrite app_cons, Heq. reflexivity.
Qed.

(** X2.  The address [loadImage] asks for is the image id with its scheme
    replaced: for an image id [dicomImageLoader] followed by [rest], the
    request posted to the worker (fetch flag on) or handed to
    [api.fetchDicomFile] (flag off) carries [https] followed by [rest]; an
    image id in which [dicomImageLoader] does not occur is requested as it
    is. *)
Theorem load_address (st : Loader) :
  (forall rest : string,
      (config st !! "useWebworkersToFetch" = Some true ->
       posted (snd (loadImage ("dicomImageLoader" +:+ rest) st))
       = posted st ++ [(acquired st, mkMessage "fetchDicom" ("https" +:+ rest))])
      /\ (config st !! "useWebworkersToFetch" <> Some true ->
          fetching (snd (loadImage ("dicomImageLoader" +:+ rest) st))
            !! List.length (promises st)
          = Some ("dicomImageLoader" +:+ rest, "https" +:+ rest)))
  /\ (forall imageId : string,
         (forall before rest, imageId <> before +:+ "dicomImageLoader" +:+ rest) ->
         (config st !! "useWebworkersToFetch" = Some true ->
          posted (snd (loadImage imageId st))
          = posted st ++ [(acquired st, mkMessage "fetchDicom" imageId)])
         /\ (config st !! "useWebworkersToFetch" <> Some true ->
             fetching (snd (loadImage imageId st)) !! List.length (promises st)
             = Some (imageId, imageId))).
Proof.
  split.
  - intros rest. split; intros Hflag.
    + rewrite (loadImage_offloaded _ st Hflag). cbn [snd posted].
      rewrite replace_at_start. reflexivity.
    + rewrite (loadImage_inline _ st Hflag). cbn [snd fetching].
      rewrite replace_at_start. apply lookup_insert_eq.
  - intros imageId Habsent. split; intros Hflag.
    + rewrite (loadImage_offloaded _ st Hflag). cbn [snd posted].
      rewrite (replace_absent _ _ _ Habsent). reflexivity.
    + rewrite (loadImage_inline _ st Hflag). cbn [snd fetching].
      rewrite (replace_absent _ _ _ Habsent). apply lookup_insert_eq.
Qed.

Lemma string_length_app (s t : string) :
  String.length (s +:+ t) = (String.length s + String.length t)%nat.
Proof.
  induction s as [|c s IH]; [reflexivity|].
  rewrite app_cons. cbn. rewrite IH. reflexivity.
Qed.

Lemma load_address_witness :
  fetching (snd (loadImage ("dicomImageLoader" +:+ "://store/instances/1")
                   initialLoader)) !! 0%nat
  = Some ("dicomImageLoader" +:+ "://store/instances/1",
          "https" +:+ "://store/instances/1")
  /\ posted (snd (loadImage ("dicomImageLoader" +:+ "://store/instances/2")
                    Session.idle))
     = posted Session.idle
       ++ [(0%nat, mkMessage "fetchDicom" ("https" +:+ "://store/instances/2"))]
  /\ fetching (snd (loadImage "wado://s/1" initialLoader)) !! 0%nat
     = Some ("wado://s/1", "wado://s/1").
Proof.
  destruct (load_address initialLoader) as [Hscheme Hother].
  destruct (load_address Session.idle) as [Hscheme' _].
  split; [|split].
  - apply (proj2 (Hscheme "://store/instances/1")).
    cbn. rewrite initialConfig_eq. discriminate.
  - apply (proj1 (Hscheme' "://store/instances/2")). reflexivity.
  - apply (proj2 (Hother "wado://s/1"
             ltac:(intros before rest H; apply (f_equal String.length) in H;
                   rewrite !string_length_app in H; cbn in H; lia))).
    cbn. rewrite initialConfig_eq. discriminate.
Defined.

(** ** Workers are not shared *)

Lemma poolOk_initial : poolOk initialLoader.
Proof.
  split; [constructor|]. split.
  - intros w Hw. inversion Hw.
  - intros w h Hh. cbn in Hh. rewrite lookup_empty in Hh. discriminate.
Qed.

Lemma poolOk_settle (p : nat) (o : PromiseState) (st : Loader) :
  poolOk st -> poolOk (settle p o (endFetch p st)).
Proof.
  unfold poolOk.
  destruct (settle_fields p o (endFetch p st)) as (_ & Ha & Hc & Hm & _).
  rewrite Ha, Hc, Hm. cbn. auto.
Qed.

Lemma poolOk_step parseDicom (st : Loader) (ev : Event) :
  poolOk st -> answersRequest st ev -> poolOk (step parseDicom st ev).
Proof.
  intros (Hnodup & Hbound & Hhandlers) Hev.
  destruct ev as [imageId|newConfig|w|p byteArray|p error]; cbn [step].
  - destruct (decide (config st !! "useWebworkersToFetch" = Some true)) as [Hflag|Hflag].
    + rewrite (loadImage_offloaded imageId st Hflag). unfold acquired. cbn [snd].
      destruct (availableWebworkers st) as [|w free _] eqn:Hfree using rev_ind.
      * rewrite (acquireWebworker_none st Hfree). unfold poolOk. cbn.
        split; [constructor|]. split; [intros w Hw; inversion Hw|].
        intros w h Hh.
        destruct (decide (w = workersCreated st)) as [->|Hne].
        -- rewrite lookup_insert_eq in Hh. injection Hh as <-. cbn. split; [reflexivity|lia].
        -- rewrite lookup_insert_ne in Hh by congruence.
           destruct (Hhandlers w h Hh). split; [assumption|lia].
      * rewrite (acquireWebworker_idle st free w Hfree). unfold poolOk. cbn.
        apply NoDup_app in Hnodup as (Hfree_nodup & _ & _).
        split; [exact Hfree_nodup|]. split.
        -- intros w' Hw'. apply Hbound. apply elem_of_app. left. exact Hw'.
        -- intros w' h Hh.
           destruct (decide (w' = w)) as [->|Hne].
           ++ rewrite lookup_insert_eq in Hh. injection Hh as <-. cbn.
              split; [reflexivity|]. apply Hbound. apply elem_of_app. right. left.
           ++ rewrite lookup_insert_ne in Hh by congruence. exact (Hhandlers w' h Hh).
    + rewrite (loadImage_inline imageId st Hflag). unfold poolOk. cbn. auto.
  - unfold poolOk. cbn. auto.
  - destruct (onmessage st !! w) as [h|] eqn:Hh; [|unfold poolOk; auto].
    destruct (Hhandlers w h Hh) as [Hw Hcreated]. destruct Hev as [_ Hout].
    unfold poolOk. cbn. rewrite Hw. split; [|split].
    + apply NoDup_app. split; [exact Hnodup|]. split; [|apply NoDup_singleton].
      intros x Hx Hx'. apply list_elem_of_singleton in Hx'. subst x. contradiction.
    + intros x Hx. apply elem_of_app in Hx as [Hx|Hx]; [auto|].
      apply list_elem_of_singleton in Hx. subst x. exact Hcreated.
    + exact Hhandlers.
  - destruct (fetching st !! p) as [[imageId u]|]; [|unfold poolOk; auto].
    destruct (createImageObjectFromDicom parseDicom imageId byteArray);
      apply poolOk_settle; unfold poolOk; auto.
  - destruct (fetching st !! p); [|unfold poolOk; auto].
    apply poolOk_settle; unfold poolOk; auto.
Qed.

Lemma poolOk_run parseDicom (evs : list Event) (st : Loader) :
  poolOk st -> wellBehaved parseDicom st evs -> poolOk (run parseDicom st evs).
Proof.
  revert st. induction evs as [|ev evs IH]; intros st Hok Hevs; [exact Hok|].
  destruct Hevs as [Hev Hrest]. cbn. apply IH; [|exact Hrest].
  apply poolOk_step; assumption.
Qed.

Lemma bounded_NoDup_length (l : list nat) (n : nat) :
  NoDup l -> (forall x, x ∈ l -> (x < n)%nat) -> (List.length l <= n)%nat.
Proof.
  intros Hnodup Hbound.
  assert (H : (List.length l <= List.length (seq 0 n))%nat).
  { apply NoDup_incl_length.
    - apply NoDup_ListNoDup. exact Hnodup.
    - intros x Hx. apply in_seq. apply list_elem_of_In in Hx.
      specialize (Hbound x Hx). lia. }
  rewrite length_seq in H. exact H.
Qed.

(** X3.  As long as every worker delivers one message per request (a
    message only comes from a worker that is out), no worker is listed twice
    in [availableWebworkers], every listed worker is one that was created,
    and there are never more listed workers than created ones.  A load with
    the fetch flag on therefore takes a worker that no other load can take
    until its message has come back: the worker taken is not in the list
    the call leaves behind. *)
Theorem workers_are_not_shared parseDicom (evs : list Event) :
  wellBehaved parseDicom initialLoader evs ->
  NoDup (availableWebworkers (run parseDicom initialLoader evs))
  /\ (forall w, w ∈ availableWebworkers (run parseDicom initialLoader evs) ->
                (w < workersCreated (run parseDicom initialLoader evs))%nat)
  /\ (List.length (availableWebworkers (run parseDicom initialLoader evs))
      <= workersCreated (run parseDicom initialLoader evs))%nat
  /\ (forall imageId,
         config (run parseDicom initialLoader evs) !! "useWebworkersToFetch" = Some true ->
         acquired (run parseDicom initialLoader evs)
           ∉ availableWebworkers
               (snd (loadImage imageId (run parseDicom initialLoader evs)))).
Proof.
  intros Hevs. set (st := run parseDicom initialLoader evs).
  destruct (poolOk_run parseDicom evs initialLoader poolOk_initial Hevs)
    as (Hnodup & Hbound & _). fold st in Hnodup, Hbound.
  split; [exact Hnodup|]. split; [exact Hbound|].
  split; [apply bounded_NoDup_length; assumption|].
  intros imageId Hflag. rewrite (loadImage_offloaded imageId st Hflag).
  unfold acquired. cbn [snd availableWebworkers].
  destruct (availableWebworkers st) as [|w free _] eqn:Hfree using rev_ind.
  - rewrite (acquireWebworker_none st Hfree). cbn. intros H. inversion H.
  - rewrite (acquireWebworker_idle st free w Hfree). cbn.
    apply NoDup_app in Hnodup as (_ & Hdisjoint & _).
    intros Hin. apply (Hdisjoint w Hin). left.
Qed.

Lemma workers_are_not_shared_witness :
  NoDup (availableWebworkers (run Session.noParser initialLoader Traffic.events))
  /\ (List.length (availableWebworkers (run Session.noParser initialLoader Traffic.events))
      <= workersCreated (run Session.noParser initialLoader Traffic.events))%nat
  /\ acquired (run Session.noParser initialLoader Traffic.events)
       ∉ availableWebworkers
           (snd (loadImage "dicomImageLoader://store/instances/4"
                   (run Session.noParser initialLoader Traffic.events))).
Proof.
  destruct (workers_are_not_shared Session.noParser Traffic.events)
    as (Hnodup & _ & Hlength & Htaken).
  - vm_compute. repeat split; try lia; intros H; inversion H.
  - split; [exact Hnodup|]. split; [exact Hlength|].
    apply Htaken. reflexivity.
Defined.

(** ** The range of the samples *)

Lemma byte_at_range (b : ArrayBuffer) (pos : Z) : 0 <= byte_at b pos <= 255.
Proof.
  unfold byte_at. destruct (pos <? 0); [lia|].
  destruct (buf_bytes b !! Z.to_nat pos) as [x|]; [|lia].
  pose proof (Byte.to_N_bounded x). lia.
Qed.

Lemma to_int16_range (v : Z) : 0 <= v < 65536 -> -32768 <= to_int16 v <= 32767.
Proof.
  intros Hv. unfold to_int16.
  destruct (Z.testbit v 15) eqn:Hbit.
  - apply Z.testbit_true in Hbit; [|lia].
    change (2 ^ 15) with 32768 in Hbit.
    assert (32768 <= v) by (Z.div_mod_to_equations; lia). lia.
  - apply Z.testbit_false in Hbit; [|lia].
    change (2 ^ 15) with 32768 in Hbit.
    assert (v < 32768) by (Z.div_mod_to_equations; lia). lia.
Qed.

Lemma i16_range (a : TypedArray) (i v : Z) :
  i16 a i = Some v -> -32768 <= v <= 32767.
Proof.
  unfold i16. destruct ((0 <=? i) && (i <? ta_length a)); [|discriminate].
  intros [= <-]. apply to_int16_range.
  pose proof (byte_at_range (buffer a) (byteOffset a + 2 * i)).
  pose proof (byte_at_range (buffer a) (byteOffset a + 2 * i + 1)). lia.
Qed.

Lemma Qred_inject_Z (z : Z) : Qred (inject_Z z) = inject_Z z.
Proof.
  unfold Qred, inject_Z. cbn [Qnum Qden].
  pose proof (Z.ggcd_gcd z 1) as Hg.
  pose proof (Z.ggcd_correct_divisors z 1) as Hd.
  destruct (Z.ggcd z 1) as [g [q1 q2]]. cbn in Hg, Hd |- *.
  rewrite Z.gcd_1_r in Hg. subst g. destruct Hd as [Hz H1].
  assert (Hq1 : q1 = z) by lia. assert (Hq2 : q2 = 1) by lia.
  rewrite Hq1, Hq2. reflexivity.
Qed.

(** X4.  When the payload carries neither a smallest nor a largest pixel
    value and its pixel buffer is not empty, the image's minimum and
    maximum are the least and the greatest sample of the buffer; they lie
    between -32768 and 32767, the minimum is at most the maximum, and the
    window width is their difference, a number between 0 and 65535. *)
Theorem scanned_range_is_tight parseDicom (id : string) (payload : TypedArray)
    (dataSet : dicomParser.DataSet) (image : Image) :
  parseDicom payload = Normal dataSet ->
  dicomParser.elements dataSet !! "x00280106" = None ->
  dicomParser.elements dataSet !! "x00280107" = None ->
  createImageObjectFromDicom parseDicom id payload = Normal image ->
  0 < ta_length (getPixelData image) ->
  exists lo hi,
    minPixelValue image = Some lo /\ maxPixelValue image = Some hi
    /\ lo ∈ samples (getPixelData image) /\ hi ∈ samples (getPixelData image)
    /\ (forall x, x ∈ samples (getPixelData image) -> lo <= x <= hi)
    /\ -32768 <= lo <= hi /\ hi <= 32767
    /\ windowWidth image = Num (inject_Z (hi - lo))
    /\ 0 <= hi - lo <= 65535.
Proof.
  intros Hparse Hno_min Hno_max Himage Hlen.
  destruct (decode_scans_when_tags_absent parseDicom id payload dataSet image
              Hparse Hno_min Hno_max Himage Hlen)
    as (lo & hi & Hlo & Hhi & Hlo_in & Hhi_in & Hall).
  exists lo, hi.
  assert (Hlo_range : -32768 <= lo <= 32767).
  { apply elem_of_samples in Hlo_in as [i Hi]. exact (i16_range _ _ _ Hi). }
  assert (Hhi_range : -32768 <= hi <= 32767).
  { apply elem_of_samples in Hhi_in as [i Hi]. exact (i16_range _ _ _ Hi). }
  pose proof (Hall hi Hhi_in) as Horder.
  split; [exact Hlo|]. split; [exact Hhi|]. split; [exact Hlo_in|].
  split; [exact Hhi_in|]. split; [exact Hall|].
  split; [lia|]. split; [lia|]. split; [|lia].
  destruct (createImageObjectFromDicom_Normal parseDicom id payload image Himage)
    as (_ & _ & _ & _ & _ & _ & _ & _ & _ & _ & _ & _ & _ & _ & _ & _ & _ & _ & _ & _ & Hw & _).
  rewrite Hw, Hlo, Hhi. cbn [ToNumber num_sub]. f_equal.
  transitivity (Qred (inject_Z (hi - lo))); [|apply Qred_inject_Z].
  apply Qred_complete. unfold Qeq, Qminus, Qplus, Qopp, inject_Z. cbn. lia.
Qed.

Lemma scanned_range_is_tight_witness :
  exists image lo hi,
    createImageObjectFromDicom (fun _ => Normal (Synthetic.dataSet2x2 "MONOCHROME2 "))
      "dicomImageLoader://store/instances/1" (Synthetic.payload2x2 "MONOCHROME2 ")
    = Normal image
    /\ minPixelValue image = Some lo /\ maxPixelValue image = Some hi
    /\ (forall x, x ∈ samples (getPixelData image) -> lo <= x <= hi)
    /\ windowWidth image = Num (inject_Z (hi - lo))
    /\ 0 <= hi - lo <= 65535.
Proof.
  eexists.
  assert (H : createImageObjectFromDicom
                (fun _ => Normal (Synthetic.dataSet2x2 "MONOCHROME2 "))
                "dicomImageLoader://store/instances/1"
                (Synthetic.payload2x2 "MONOCHROME2 ")
              = Normal _) by (vm_compute; reflexivity).
  destruct (scanned_range_is_tight _ _ _ (Synthetic.dataSet2x2 "MONOCHROME2 ") _
              eq_refl eq_refl eq_refl H eq_refl)
    as (lo & hi & Hlo & Hhi & _ & _ & Hall & _ & _ & Hw & Hrange).
  exists lo, hi. split; [exact H|]. auto.
Defined.

(** ** Payloads no view can be laid on *)

(** X5.  The decoder never returns an image for a payload whose buffer has
    an odd number of bytes, nor for one whose pixel data starts at an odd
    offset or beyond the end of the buffer: a 16-bit view cannot be laid
    there, and the decoder throws. *)
Theorem misaligned_payload_is_rejected parseDicom (id : string) (payload : TypedArray)
    (dataSet : dicomParser.DataSet) :
  parseDicom payload = Normal dataSet ->
  byteLength (buffer (dicomParser.byteArray dataSet)) mod 2 = 1
  \/ (exists element,
         dicomParser.elements dataSet !! "x7fe00010" = Some element
         /\ (dicomParser.dataOffset element mod 2 = 1
             \/ dicomParser.dataOffset element < 0
             \/ byteLength (buffer (dicomParser.byteArray dataSet))
                < dicomParser.dataOffset element)) ->
  exists e, createImageObjectFromDicom parseDicom id payload = Throw e.
Proof.
  intros Hparse Hbad.
  destruct (createImageObjectFromDicom parseDicom id payload) as [image|e] eqn:Himage;
    [|eauto].
  exfalso.
  destruct (createImageObjectFromDicom_Normal parseDicom id payload image Himage)
    as (dataSet' & w & h & photoInterp & element & pixelData & minTag & maxTag
        & Hparse' & _ & _ & _ & Helement & Hview & _).
  rewrite Hparse in Hparse'. injection Hparse' as <-.
  apply new_Int16Array_Normal in Hview as (_ & _ & Hrange & Heven & Hlen & _).
  destruct Hbad as [Hodd|(element' & Helement' & Hbad)]; [lia|].
  rewrite Helement in Helement'. injection Helement' as <-. lia.
Qed.

Lemma misaligned_payload_is_rejected_witness :
  exists e,
    createImageObjectFromDicom (fun _ => Normal Edge.dataSetOdd)
      "dicomImageLoader://store/instances/6" Edge.payloadOdd = Throw e.
Proof.
  apply (misaligned_payload_is_rejected (fun _ => Normal Edge.dataSetOdd)
           "dicomImageLoader://store/instances/6" Edge.payloadOdd Edge.dataSetOdd).
  - reflexivity.
  - left. reflexivity.
Defined.

(** ** A payload without samples *)

(** X6.  A payload whose pixel buffer is empty is decoded all the same:
    unless the tags give non-zero values, the minimum and the maximum of
    the image are [undefined], and its window centre and window width are
    [NaN]. *)
Theorem empty_pixel_data_gives_NaN_window parseDicom (id : string)
    (payload : TypedArray) (image : Image) (dataSet : dicomParser.DataSet) :
  parseDicom payload = Normal dataSet ->
  createImageObjectFromDicom parseDicom id payload = Normal image ->
  ta_length (getPixelData image) = 0 ->
  (dicomParser.int16 dataSet "x00280106" = Normal None
   \/ dicomParser.int16 dataSet "x00280106" = Normal (Some 0)) ->
  (dicomParser.int16 dataSet "x00280107" = Normal None
   \/ dicomParser.int16 dataSet "x00280107" = Normal (Some 0)) ->
  samples (getPixelData image) = []
  /\ minPixelValue image = None /\ maxPixelValue image = None
  /\ windowCenter image = NaN /\ windowWidth image = NaN.
Proof.
  intros Hparse Himage Hlen Hmin Hmax.
  destruct (decode_min_max_policy parseDicom id payload image Himage)
    as (dataSet' & minTag & maxTag & Hparse' & Hmin' & Hmax' & _ & _ & Hlo & Hhi).
  rewrite Hparse in Hparse'. injection Hparse' as <-.
  destruct (scan_empty (getPixelData image)) as [Hsmin Hsmax]; [lia|].
  assert (Hlo' : minPixelValue image = None).
  { rewrite Hlo, Hsmin; [reflexivity|].
    rewrite Hmin' in Hmin. destruct Hmin as [[= ->]|[= ->]]; auto. }
  assert (Hhi' : maxPixelValue image = None).
  { rewrite Hhi, Hsmax; [reflexivity|].
    rewrite Hmax' in Hmax. destruct Hmax as [[= ->]|[= ->]]; auto. }
  destruct (createImageObjectFromDicom_Normal parseDicom id payload image Himage)
    as (_ & _ & _ & _ & _ & _ & _ & _ & _ & _ & _ & _ & _ & _ & _ & _ & _ & _ & _
        & Hc & Hw & _).
  split; [unfold samples; rewrite Hlen; reflexivity|].
  split; [exact Hlo'|]. split; [exact Hhi'|].
  rewrite Hc, Hw, Hlo', Hhi'. split; reflexivity.
Qed.

Lemma empty_pixel_data_gives_NaN_window_witness :
  exists image,
    createImageObjectFromDicom (fun _ => Normal Edge.dataSetNoSamples)
      "dicomImageLoader://store/instances/5" Edge.payloadNoSamples = Normal image
    /\ samples (getPixelData image) = []
    /\ minPixelValue image = None /\ maxPixelValue image = None
    /\ windowCenter image = NaN /\ windowWidth image = NaN.
Proof.
  eexists.
  assert (H : createImageObjectFromDicom (fun _ => Normal Edge.dataSetNoSamples)
                "dicomImageLoader://store/instances/5" Edge.payloadNoSamples
              = Normal _) by (vm_compute; reflexivity).
  split; [exact H|].
  apply (empty_pixel_data_gives_NaN_window _ _ _ _ Edge.dataSetNoSamples eq_refl H).
  - reflexivity.
  - left. reflexivity.
  - left. reflexivity.
Defined.

(** ** Calling [configure] again *)

(** X7.  [configure] is idempotent, it never removes an option from the
    configuration, and after a call every option that is given or has a
    default has a value that does not depend on what the configuration was
    before. *)
Theorem configure_composes (newConfig cfg cfg' : gmap string bool) :
  configure newConfig (configure newConfig cfg) = configure newConfig cfg
  /\ (forall k, is_Some (cfg !! k) -> is_Some (configure newConfig cfg !! k))
  /\ (forall k, is_Some (newConfig !! k) \/ is_Some (defaultConfig !! k) ->
                configure newConfig cfg !! k = configure newConfig cfg' !! k).
Proof.
  split; [|split].
  - apply map_eq; intros k. rewrite !configure_lookup.
    destruct (newConfig !! k); [reflexivity|].
    destruct (defaultConfig !! k); reflexivity.
  - intros k [v Hv]. rewrite configure_lookup, Hv.
    destruct (newConfig !! k); [eauto|]. destruct (defaultConfig !! k); eauto.
  - intros k [[v Hv]|[v Hv]]; rewrite !configure_lookup, Hv; [reflexivity|].
    destruct (newConfig !! k); reflexivity.
Qed.

Lemma configure_composes_witness :
  is_Some (configure {[ "useWebworkersToFetch" := true ]}
             {[ "useWebworkersToParse" := true ]} !! "useWebworkersToParse")
  /\ configure {[ "useWebworkersToParse" := true ]} initialConfig
       !! "useWebworkersToFetch"
     = configure {[ "useWebworkersToParse" := true ]}
         {[ "useWebworkersToFetch" := true ]} !! "useWebworkersToFetch".
Proof.
  split.
  - apply (proj1 (proj2 (configure_composes {[ "useWebworkersToFetch" := true ]}
                           {[ "useWebworkersToParse" := true ]} ∅))).
    exists true. reflexivity.
  - apply (proj2 (proj2 (configure_composes {[ "useWebworkersToParse" := true ]}
                           initialConfig {[ "useWebworkersToFetch" := true ]}))).
    right. exists false. reflexivity.
Defined.

(** * Properties of the listing requests *)

(** ** The last part of a name *)

Lemma split_not_nil (sep : ascii) (s : string) : split sep s <> [].
Proof.
  destruct s as [|c s]; cbn; [discriminate|].
  destruct (Ascii.eqb c sep); [discriminate|].
  destruct (split sep s); discriminate.
Qed.

Lemma joinParts_cons (sep : ascii) (part : string) (parts : list string) :
  parts <> [] ->
  joinParts sep (part :: parts) = part +:+ String sep (joinParts sep parts).
Proof. destruct parts; [contradiction|reflexivity]. Qed.

Lemma join_split (sep : ascii) (s : string) : joinParts sep (split sep s) = s.
Proof.
  induction s as [|c s IH]; [reflexivity|].
  pose proof (split_not_nil sep s) as Hnil.
  cbn [split]. destruct (Ascii.eqb_spec c sep) as [->|Hne].
  - rewrite joinParts_cons by exact Hnil. rewrite IH. reflexivity.
  - destruct (split sep s) as [|part parts] eqn:Hs; [contradiction|].
    destruct parts as [|part' parts].
    + cbn in IH |- *. rewrite IH. reflexivity.
    + rewrite joinParts_cons in IH |- * by discriminate.
      rewrite app_cons, IH. reflexivity.
Qed.

Lemma free_of_empty (sep : ascii) : free_of sep "".
Proof. intros [|c before] rest; discriminate. Qed.

Lemma free_of_cons (sep c : ascii) (s : string) :
  c <> sep -> free_of sep s -> free_of sep (String c s).
Proof.
  intros Hne Hs [|d before] rest Heq.
  - rewrite app_empty in Heq. injection Heq as Hc _. contradiction.
  - rewrite app_cons in Heq. injection Heq as _ Heq. exact (Hs before rest Heq).
Qed.

Lemma split_free_of (sep : ascii) (s : string) : Forall (free_of sep) (split sep s).
Proof.
  induction s as [|c s IH]; cbn [split].
  - constructor; [apply free_of_empty|constructor].
  - destruct (Ascii.eqb_spec c sep) as [->|Hne].
    + constructor; [apply free_of_empty|exact IH].
    + destruct (split sep s) as [|part parts]; [|inversion IH; subst].
      * constructor; [|constructor].
        apply free_of_cons; [exact Hne|apply free_of_empty].
      * constructor; [|assumption]. apply free_of_cons; assumption.
Qed.

Lemma string_app_assoc (s t u : string) : (s +:+ t) +:+ u = s +:+ (t +:+ u).
Proof.
  induction s as [|c s IH]; [reflexivity|]. rewrite !app_cons, IH. reflexivity.
Qed.

Lemma join_snoc (sep : ascii) (parts : list string) (part : string) :
  parts <> [] ->
  joinParts sep (parts ++ [part]) = joinParts sep parts +:+ String sep part.
Proof.
  induction parts as [|x parts IH]; intros Hne; [contradiction|].
  destruct parts as [|y parts]; [reflexivity|].
  change ((x :: y :: parts) ++ [part]) with (x :: ((y :: parts) ++ [part])).
  rewrite joinParts_cons by (destruct parts; discriminate).
  rewrite IH by discriminate.
  rewrite (joinParts_cons sep x (y :: parts)) by discriminate.
  rewrite string_app_assoc, app_cons. reflexivity.
Qed.

Lemma last_part_of_name_aux :
  (forall s : string,
      exists part,
        last (split "/" s) = Some part
        /\ free_of "/" part
        /\ (s = part \/ exists before, s = before +:+ String "/" part)).
Proof.
  intros s.
  pose proof (split_not_nil "/" s) as Hnil.
  pose proof (split_free_of "/" s) as Hfree.
  pose proof (join_split "/" s) as Hjoin.
  destruct (split "/" s) as [|part init _] using rev_ind; [contradiction|].
  exists part. rewrite last_snoc. split; [reflexivity|]. split.
  - apply Forall_app in Hfree as [_ Hpart]. inversion Hpart; assumption.
  - destruct init as [|x init]; [left; symmetry; exact Hjoin|].
    right. rewrite join_snoc in Hjoin by discriminate. eauto.
Qed.

(** X8.  [name.split('/').slice(-1)[0]] is what follows the last slash of
    the name: the result contains no slash, and the name is either the
    result itself or something, a slash, and the result.  (An empty name
    and a name ending in a slash give the empty string.)  A name that is
    not a string makes the expression throw a [TypeError]. *)
Theorem last_part_of_name :
  (forall s : string,
      exists part,
        apiLists.lastPart (Some (JString s)) = Normal (Some part)
        /\ free_of "/" part
        /\ (s = part \/ exists before, s = before +:+ String "/" part))
  /\ (forall v : option Json,
         (forall s, v <> Some (JString s)) ->
         exists msg, apiLists.lastPart v = Throw (TypeError msg)).
Proof.
  split.
  - intros s. destruct (last_part_of_name_aux s) as (part & Hpart & Hrest).
    exists part. split; [|exact Hrest].
    unfold apiLists.lastPart, callSplit. cbn. rewrite Hpart. reflexivity.
  - intros v Hv. unfold apiLists.lastPart, callSplit.
    destruct v as [[| | |s| |]|]; cbn; eauto.
    exfalso. exact (Hv s eq_refl).
Qed.

Lemma last_part_of_name_witness :
  exists msg, apiLists.lastPart (Some (JNumber 7)) = Throw (TypeError msg).
Proof.
  apply (proj2 last_part_of_name). intros s. discriminate.
Defined.

(** ** Listings *)

Lemma mapCompletion_Normal {A B : Type} (f : A -> Completion B) (g : A -> B)
    (l : list A) :
  Forall (fun x => f x = Normal (g x)) l ->
  mapCompletion f l = Normal (map g l).
Proof.
  induction 1 as [|x l Hx _ IH]; [reflexivity|].
  cbn. rewrite Hx. cbn. rewrite IH. reflexivity.
Qed.

Section ListingFacts.

Variable env : api.Env.
Variable json : api.Response -> Completion Json.
Variable ToString : Json -> string.

Let authorization : string := "Bearer " +:+ default "" (api.getAccessToken env).

Lemma fetchBody_no_token (url : string) (w : api.World) :
  api.hasToken (api.getAccessToken env) = false ->
  apiLists.fetchBody env json url w
  = (api.signInToGoogle w,
     Throw (TypeError "Cannot read property 'json' of undefined")).
Proof.
  intros Htoken. unfold apiLists.fetchBody.
  rewrite (authenticatedFetch_no_token env url w Htoken). reflexivity.
Qed.

Lemma fetchBody_ok (url : string) (w : api.World) (r : api.Response) :
  api.hasToken (api.getAccessToken env) = true ->
  api.fetch env url authorization = Normal r ->
  api.ok r = true ->
  apiLists.fetchBody env json url w
  = ({| api.signIns := api.signIns w;
        api.requests := api.requests w ++ [(url, authorization)] |}, json r).
Proof.
  intros Htoken Hfetch Hok. unfold apiLists.fetchBody.
  rewrite (authenticatedFetch_ok env url w r Htoken Hfetch Hok). reflexivity.
Qed.

Lemma fetchBody_unauthorized (url : string) (w : api.World) (r : api.Response) :
  api.hasToken (api.getAccessToken env) = true ->
  api.fetch env url authorization = Normal r ->
  api.status r = 401 ->
  apiLists.fetchBody env json url w
  = (api.signInToGoogle
       {| api.signIns := api.signIns w;
          api.requests := api.requests w ++ [(url, authorization)] |}, json r).
Proof.
  intros Htoken Hfetch Hstatus. unfold apiLists.fetchBody.
  rewrite (authenticatedFetch_unauthorized env url w r Htoken Hfetch Hstatus).
  reflexivity.
Qed.

End ListingFacts.

Lemma getProp_propertyOf (k : string) (item : Json) :
  item <> JNull -> getProp (Some item) k = Normal (propertyOf k item).
Proof. destruct item; cbn; congruence. Qed.

Section PagingFacts.

Variable env : api.Env.
Variable json : api.Response -> Completion Json.
Variable ToString : Json -> string.

Lemma fetchProjects_pages (pageToken : option Json) (pages : list (list Json)) :
  Paged env json ToString pageToken pages ->
  api.hasToken (api.getAccessToken env) = true ->
  forall (fuel : nat) (projects : option Json) (acc : list Json) (w : api.World),
    (projects = None /\ acc = []) \/ projects = Some (JArray acc) ->
    (List.length pages <= fuel)%nat ->
    exists w',
      apiLists.fetchProjects env json ToString fuel pageToken projects w
      = Some (w', mapCompletion (fun project => getProp (Some project) "projectId")
                                (acc ++ concat pages))
      /\ api.signIns w' = api.signIns w
      /\ List.length (api.requests w')
         = (List.length (api.requests w) + List.length pages)%nat.
Proof.
  intros Hpaged Htoken.
  induction Hpaged as [pageToken r fields items Hfetch Hok Hjson Hnext Hitems
                      |pageToken r fields items rest Hfetch Hok Hjson Hnext Hitems
                         Hrest IH];
    intros fuel projects acc w Hprojects Hfuel;
    (destruct fuel as [|fuel]; [cbn in Hfuel; lia|]);
    cbn [apiLists.fetchProjects];
    rewrite (fetchBody_ok env json _ w r Htoken Hfetch Hok), Hjson;
    cbn [getProp]; rewrite Hnext, Hitems.
  - eexists. split.
    + cbn [concat]. rewrite app_nil_r.
      destruct Hprojects as [[-> ->]| ->]; reflexivity.
    + split; [reflexivity|]. cbn. rewrite length_app. reflexivity.
  - destruct Hprojects as [[-> ->]| ->]; cbn -[apiLists.fetchProjects].
    + destruct (IH fuel (Some (JArray items)) items
                  {| api.signIns := api.signIns w;
                     api.requests := api.requests w
                       ++ [(apiLists.CLOUD_RESOURCE_MANAGER_API_BASE
                            +:+ apiLists.projectsEndpoint ToString pageToken,
                            "Bearer " +:+ default "" (api.getAccessToken env))] |})
        as (w' & Hrun & Hsign & Hreq); [right; reflexivity|cbn in Hfuel; lia|].
      exists w'. split; [exact Hrun|]. split; [exact Hsign|].
      rewrite Hreq. cbn. rewrite length_app. cbn. lia.
    + destruct (IH fuel (Some (JArray (acc ++ items))) (acc ++ items)
                  {| api.signIns := api.signIns w;
                     api.requests := api.requests w
                       ++ [(apiLists.CLOUD_RESOURCE_MANAGER_API_BASE
                            +:+ apiLists.projectsEndpoint ToString pageToken,
                            "Bearer " +:+ default "" (api.getAccessToken env))] |})
        as (w' & Hrun & Hsign & Hreq); [right; reflexivity|cbn in Hfuel; lia|].
      exists w'. rewrite <- app_assoc in Hrun. split; [exact Hrun|].
      split; [exact Hsign|].
      rewrite Hreq. cbn. rewrite length_app. cbn. lia.
Qed.

End PagingFacts.

(** X9.  [fetchProjects], called as the main page calls it, follows the
    page tokens to the last page: when the listing has n pages, the call
    (given room for n recursive calls) sends n requests, triggers no
    sign-in, and answers the [projectId] of every project of every page, in
    page order. *)
Theorem fetchProjects_collects_all_pages (env : api.Env)
    (json : api.Response -> Completion Json) (ToString : Json -> string)
    (pages : list (list Json)) (fuel : nat) (w : api.World) :
  api.hasToken (api.getAccessToken env) = true ->
  Paged env json ToString None pages ->
  Forall (fun project => project <> JNull) (concat pages) ->
  (List.length pages <= fuel)%nat ->
  exists w',
    apiLists.fetchProjects env json ToString fuel None None w
    = Some (w', Normal (map (propertyOf "projectId") (concat pages)))
    /\ api.signIns w' = api.signIns w
    /\ List.length (api.requests w')
       = (List.length (api.requests w) + List.length pages)%nat.
Proof.
  intros Htoken Hpaged Hitems Hfuel.
  destruct (fetchProjects_pages env json ToString None pages Hpaged Htoken
              fuel None [] w) as (w' & Hrun & Hrest); [left; auto|exact Hfuel|].
  exists w'. split; [|exact Hrest].
  rewrite Hrun. cbn [app]. f_equal. f_equal.
  apply mapCompletion_Normal.
  eapply Forall_impl; [exact Hitems|].
  intros project Hproject. apply getProp_propertyOf. exact Hproject.
Qed.

Lemma catalog_is_paged :
  Paged Catalog.signedIn Catalog.json Catalog.ToString None
        [[Catalog.project "alpha"; Catalog.project "beta"]; [Catalog.project "gamma"]].
Proof.
  eapply (Paged_more Catalog.signedIn Catalog.json Catalog.ToString None
            (api.mkResponse 200 "page1")); try reflexivity.
  eapply (Paged_last Catalog.signedIn Catalog.json Catalog.ToString _
            (api.mkResponse 200 "page2")); reflexivity.
Qed.

Lemma fetchProjects_collects_all_pages_witness :
  exists w',
    apiLists.fetchProjects Catalog.signedIn Catalog.json Catalog.ToString 5
      None None Catalog.start
    = Some (w', Normal [Some (JString "alpha"); Some (JString "beta");
                        Some (JString "gamma")])
    /\ api.signIns w' = 0%nat
    /\ List.length (api.requests w') = 2%nat.
Proof.
  destruct (fetchProjects_collects_all_pages Catalog.signedIn Catalog.json
              Catalog.ToString
              [[Catalog.project "alpha"; Catalog.project "beta"];
               [Catalog.project "gamma"]] 5 Catalog.start)
    as (w' & Hrun & Hsign & Hreq).
  - reflexivity.
  - exact catalog_is_paged.
  - repeat constructor; discriminate.
  - cbn. lia.
  - exists w'. split; [exact Hrun|]. split; [exact Hsign|exact Hreq].
Defined.

Lemma lastPart_string (s : string) :
  apiLists.lastPart (Some (JString s)) = Normal (last (split "/" s)).
Proof. reflexivity. Qed.

Lemma bind_Normal {A B : Type} (a : A) (f : A -> Completion B) :
  (Normal a ≫= f) = f a.
Proof. reflexivity. Qed.

Lemma mapCompletion_cons {A B : Type} (f : A -> Completion B) (x : A) (l : list A)
    (y : B) (ys : list B) :
  f x = Normal y -> mapCompletion f l = Normal ys ->
  mapCompletion f (x :: l) = Normal (y :: ys).
Proof. intros Hx Hl. cbn. rewrite Hx. cbn. rewrite Hl. reflexivity. Qed.

Lemma names_last_parts (items : list Json) (names : list string) :
  Forall2 (fun item name =>
             exists fields, item = JObject fields
                            /\ fields !! "name" = Some (JString name)) items names ->
  mapCompletion (fun item => name ← getProp (Some item) "name"; apiLists.lastPart name)
                items
  = Normal (map (fun name => last (split "/" name)) names).
Proof.
  induction 1 as [|item name items names (fields & -> & Hname) _ IH]; [reflexivity|].
  cbn [map]. apply mapCompletion_cons; [|exact IH].
  cbn [getProp]. rewrite Hname. reflexivity.
Qed.

(** X10.  For an ok response whose body lists datasets (or DICOM stores)
    by name, [fetchDatasets] ([fetchDicomStores]) sends one request,
    triggers no sign-in, and answers, in the order of the body, what
    follows the last slash of each name: one string per item, none of them
    containing a slash. *)
Theorem listed_names_are_last_parts (env : api.Env)
    (json : api.Response -> Completion Json) (w : api.World) (r : api.Response)
    (fields : gmap string Json) (items : list Json) (names : list string) :
  api.hasToken (api.getAccessToken env) = true ->
  api.ok r = true ->
  json r = Normal (JObject fields) ->
  Forall2 (fun item name =>
             exists fields, item = JObject fields
                            /\ fields !! "name" = Some (JString name)) items names ->
  (forall projectId location,
      api.fetch env (apiLists.HEALTHCARE_API_BASE +:+ "/v1/projects/" +:+ projectId
                     +:+ "/locations/" +:+ location +:+ "/datasets")
                ("Bearer " +:+ default "" (api.getAccessToken env)) = Normal r ->
      fields !! "datasets" = Some (JArray items) ->
      exists w' parts,
        apiLists.fetchDatasets env json projectId location w
        = (w', Normal (map Some parts))
        /\ api.signIns w' = api.signIns w
        /\ List.length (api.requests w') = S (List.length (api.requests w))
        /\ Forall2 (fun name part =>
                      free_of "/" part
                      /\ (name = part \/ exists before, name = before +:+ String "/" part))
                   names parts)
  /\ (forall projectId location dataset,
         api.fetch env (apiLists.HEALTHCARE_API_BASE +:+ "/v1/projects/" +:+ projectId
                        +:+ "/locations/" +:+ location +:+ "/datasets/" +:+ dataset
                        +:+ "/dicomStores")
                   ("Bearer " +:+ default "" (api.getAccessToken env)) = Normal r ->
         fields !! "dicomStores" = Some (JArray items) ->
         exists w' parts,
           apiLists.fetchDicomStores env json projectId location dataset w
           = (w', Normal (map Some parts))
           /\ api.signIns w' = api.signIns w
           /\ List.length (api.requests w') = S (List.length (api.requests w))
           /\ Forall2 (fun name part =>
                         free_of "/" part
                         /\ (name = part
                             \/ exists before, name = before +:+ String "/" part))
                      names parts).
Proof.
  intros Htoken Hok Hjson Hnames.
  assert (Hparts : exists parts,
             map (fun name => last (split "/" name)) names = map Some parts
             /\ Forall2 (fun name part =>
                           free_of "/" part
                           /\ (name = part
                               \/ exists before, name = before +:+ String "/" part))
                        names parts).
  { clear. induction names as [|name names (parts & Heq & Hall)].
    - exists []. split; [reflexivity|constructor].
    - destruct (last_part_of_name_aux name) as (part & Hpart & Hfree & Hshape).
      exists (part :: parts). cbn [map]. rewrite Heq, Hpart.
      split; [reflexivity|]. constructor; auto. }
  destruct Hparts as (parts & Hmap & Hall).
  split.
  - intros projectId location Hfetch Hlist. unfold apiLists.fetchDatasets.
    rewrite (fetchBody_ok env json _ w r Htoken Hfetch Hok), Hjson.
    eexists _, parts. split.
    + change (getProp (Some (JObject fields)) "datasets")
        with (Normal (fields !! "datasets")).
      rewrite Hlist, bind_Normal. unfold callMap.
      rewrite (names_last_parts items names Hnames), Hmap. reflexivity.
    + split; [reflexivity|]. split; [|exact Hall].
      cbn. rewrite length_app. cbn. lia.
  - intros projectId location dataset Hfetch Hlist. unfold apiLists.fetchDicomStores.
    rewrite (fetchBody_ok env json _ w r Htoken Hfetch Hok), Hjson.
    eexists _, parts. split.
    + change (getProp (Some (JObject fields)) "dicomStores")
        with (Normal (fields !! "dicomStores")).
      rewrite Hlist, bind_Normal. unfold callMap.
      rewrite (names_last_parts items names Hnames), Hmap. reflexivity.
    + split; [reflexivity|]. split; [|exact Hall].
      cbn. rewrite length_app. cbn. lia.
Qed.

Lemma listed_names_are_last_parts_witness :
  exists w' parts,
    apiLists.fetchDatasets Catalog.signedIn Catalog.json "alpha" "us" Catalog.start
    = (w', Normal (map Some parts))
    /\ api.signIns w' = 0%nat
    /\ Forall2 (fun name part =>
                  free_of "/" part
                  /\ (name = part \/ exists before, name = before +:+ String "/" part))
               ["projects/alpha/locations/us/datasets/chest"; "knee"] parts.
Proof.
  destruct (listed_names_are_last_parts Catalog.signedIn Catalog.json Catalog.start
              (api.mkResponse 200 "datasets")
              {[ "datasets" :=
                   JArray [JObject {[ "name" :=
                              JString "projects/alpha/locations/us/datasets/chest" ]};
                           JObject {[ "name" := JString "knee" ]}] ]}
              [JObject {[ "name" :=
                  JString "projects/alpha/locations/us/datasets/chest" ]};
               JObject {[ "name" := JString "knee" ]}]
              ["projects/alpha/locations/us/datasets/chest"; "knee"])
    as [Hdatasets _].
  - reflexivity.
  - reflexivity.
  - reflexivity.
  - repeat constructor; eexists; split; reflexivity.
  - destruct (Hdatasets "alpha" "us") as (w' & parts & Hrun & Hsign & _ & Hall).
    + reflexivity.
    + reflexivity.
    + exists w', parts. split; [exact Hrun|]. split; [exact Hsign|exact Hall].
Defined.

(** ** Requests that cannot be answered *)

(** X11.  Without an access token no listing function sends a request:
    each triggers the sign-in once and is rejected with the [TypeError] of
    reading [json] of [undefined], whatever its arguments. *)
Theorem listing_without_token (env : api.Env)
    (json : api.Response -> Completion Json) (ToString : Json -> string)
    (w : api.World) :
  api.hasToken (api.getAccessToken env) = false ->
  (forall fuel pageToken projects,
      apiLists.fetchProjects env json ToString (S fuel) pageToken projects w
      = Some (api.signInToGoogle w,
              Throw (TypeError "Cannot read property 'json' of undefined")))
  /\ (forall projectId,
         apiLists.fetchLocations env json projectId w
         = (api.signInToGoogle w,
            Throw (TypeError "Cannot read property 'json' of undefined")))
  /\ (forall projectId location,
         apiLists.fetchDatasets env json projectId location w
         = (api.signInToGoogle w,
            Throw (TypeError "Cannot read property 'json' of undefined")))
  /\ (forall projectId location dataset,
         apiLists.fetchDicomStores env json projectId location dataset w
         = (api.signInToGoogle w,
            Throw (TypeError "Cannot read property 'json' of undefined")))
  /\ (forall projectId location dataset dicomStore,
         apiLists.fetchStudies env json projectId location dataset dicomStore w
         = (api.signInToGoogle w,
            Throw (TypeError "Cannot read property 'json' of undefined")))
  /\ (forall projectId location dataset dicomStore studyId,
         apiLists.fetchSeries env json projectId location dataset dicomStore studyId w
         = (api.signInToGoogle w,
            Throw (TypeError "Cannot read property 'json' of undefined"))).
Proof.
  intros Htoken.
  repeat split; intros;
    unfold apiLists.fetchLocations, apiLists.fetchDatasets, apiLists.fetchDicomStores,
      apiLists.fetchStudies, apiLists.fetchSeries;
    cbn [apiLists.fetchProjects];
    rewrite (fetchBody_no_token env json _ w Htoken); reflexivity.
Qed.

Lemma listing_without_token_witness :
  apiLists.fetchProjects Catalog.signedOut Catalog.json Catalog.ToString 3
    None None Catalog.start
  = Some (api.mkWorld 1 [],
          Throw (TypeError "Cannot read property 'json' of undefined"))
  /\ apiLists.fetchStudies Catalog.signedOut Catalog.json "alpha" "us" "chest" "ct"
       Catalog.start
     = (api.mkWorld 1 [],
        Throw (TypeError "Cannot read property 'json' of undefined")).
Proof.
  pose proof (listing_without_token Catalog.signedOut Catalog.json Catalog.ToString
                Catalog.start eq_refl) as H.
  destruct H as (Hprojects & _ & _ & _ & Hstudies & _).
  split; [apply (Hprojects 2%nat)|apply Hstudies].
Defined.

(** X12.  A listing whose body lacks the list makes the function throw:
    for an ok response whose body is an object without [locations]
    ([datasets], [dicomStores]; for [fetchProjects], without [projects] and
    [nextPageToken]), as for a catalog that has nothing to list, the
    function is rejected with the [TypeError] of reading [map] of
    [undefined]; it does not answer an empty list. *)
Theorem listing_without_list_is_rejected (env : api.Env)
    (json : api.Response -> Completion Json) (ToString : Json -> string)
    (w : api.World) (r : api.Response) (fields : gmap string Json) :
  api.hasToken (api.getAccessToken env) = true ->
  api.ok r = true ->
  json r = Normal (JObject fields) ->
  (forall fuel,
      api.fetch env (apiLists.CLOUD_RESOURCE_MANAGER_API_BASE +:+ "/v1/projects")
                (authorizationOf env) = Normal r ->
      fields !! "projects" = None -> fields !! "nextPageToken" = None ->
      apiLists.fetchProjects env json ToString (S fuel) None None w
      = Some (afterRequest env
                (apiLists.CLOUD_RESOURCE_MANAGER_API_BASE +:+ "/v1/projects") w,
              Throw (TypeError "Cannot read property 'map' of undefined")))
  /\ (forall projectId,
         api.fetch env (apiLists.HEALTHCARE_BETA_API_BASE +:+ "/v1beta1/projects/"
                        +:+ projectId +:+ "/locations")
                   (authorizationOf env) = Normal r ->
         fields !! "locations" = None ->
         apiLists.fetchLocations env json projectId w
         = (afterRequest env
              (apiLists.HEALTHCARE_BETA_API_BASE +:+ "/v1beta1/projects/"
               +:+ projectId +:+ "/locations") w,
            Throw (TypeError "Cannot read property 'map' of undefined")))
  /\ (forall projectId location,
         api.fetch env (apiLists.HEALTHCARE_API_BASE +:+ "/v1/projects/" +:+ projectId
                        +:+ "/locations/" +:+ location +:+ "/datasets")
                   (authorizationOf env) = Normal r ->
         fields !! "datasets" = None ->
         apiLists.fetchDatasets env json projectId location w
         = (afterRequest env
              (apiLists.HEALTHCARE_API_BASE +:+ "/v1/projects/" +:+ projectId
               +:+ "/locations/" +:+ location +:+ "/datasets") w,
            Throw (TypeError "Cannot read property 'map' of undefined")))
  /\ (forall projectId location dataset,
         api.fetch env (apiLists.HEALTHCARE_API_BASE +:+ "/v1/projects/" +:+ projectId
                        +:+ "/locations/" +:+ location +:+ "/datasets/" +:+ dataset
                        +:+ "/dicomStores")
                   (authorizationOf env) = Normal r ->
         fields !! "dicomStores" = None ->
         apiLists.fetchDicomStores env json projectId location dataset w
         = (afterRequest env
              (apiLists.HEALTHCARE_API_BASE +:+ "/v1/projects/" +:+ projectId
               +:+ "/locations/" +:+ location +:+ "/datasets/" +:+ dataset
               +:+ "/dicomStores") w,
            Throw (TypeError "Cannot read property 'map' of undefined"))).
Proof.
  intros Htoken Hok Hjson. unfold authorizationOf, afterRequest.
  split; [|split; [|split]].
  - intros fuel Hfetch Hprojects Hnext. cbn [apiLists.fetchProjects].
    change (apiLists.projectsEndpoint ToString None) with "/v1/projects".
    rewrite (fetchBody_ok env json _ w r Htoken Hfetch Hok), Hjson.
    cbn [getProp]. rewrite Hnext, Hprojects. reflexivity.
  - intros projectId Hfetch Hlist. unfold apiLists.fetchLocations.
    rewrite (fetchBody_ok env json _ w r Htoken Hfetch Hok), Hjson.
    change (getProp (Some (JObject fields)) "locations")
      with (Normal (fields !! "locations")).
    rewrite Hlist. reflexivity.
  - intros projectId location Hfetch Hlist. unfold apiLists.fetchDatasets.
    rewrite (fetchBody_ok env json _ w r Htoken Hfetch Hok), Hjson.
    change (getProp (Some (JObject fields)) "datasets")
      with (Normal (fields !! "datasets")).
    rewrite Hlist. reflexivity.
  - intros projectId location dataset Hfetch Hlist.
    unfold apiLists.fetchDicomStores.
    rewrite (fetchBody_ok env json _ w r Htoken Hfetch Hok), Hjson.
    change (getProp (Some (JObject fields)) "dicomStores")
      with (Normal (fields !! "dicomStores")).
    rewrite Hlist. reflexivity.
Qed.

Lemma listing_without_list_is_rejected_witness :
  apiLists.fetchProjects EmptyCatalog.signedIn EmptyCatalog.json Catalog.ToString 1
    None None Catalog.start
  = Some (api.mkWorld 0 [("https://cloudresourcemanager.googleapis.com/v1/projects",
                          "Bearer token")],
          Throw (TypeError "Cannot read property 'map' of undefined"))
  /\ apiLists.fetchDatasets EmptyCatalog.signedIn EmptyCatalog.json "alpha" "us"
       Catalog.start
     = (api.mkWorld 0
          [("https://healthcare.googleapis.com/v1/projects/alpha/locations/us/datasets",
            "Bearer token")],
        Throw (TypeError "Cannot read property 'map' of undefined")).
Proof.
  destruct (listing_without_list_is_rejected EmptyCatalog.signedIn EmptyCatalog.json
              Catalog.ToString Catalog.start (api.mkResponse 200 "{}") ∅
              eq_refl eq_refl eq_refl) as (Hprojects & _ & Hdatasets & _).
  split.
  - apply (Hprojects 0%nat); reflexivity.
  - apply (Hdatasets "alpha" "us"); reflexivity.
Defined.

(** X13.  [fetchStudies] and [fetchSeries] hand the parsed body of the
    response to their caller as it is.  For an ok response that is the
    list; for a 401 response it is the body of the error, returned as if it
    were the list, after the sign-in was triggered; any other response that
    is not ok rejects the call. *)
Theorem studies_body_is_passed_through (env : api.Env)
    (json : api.Response -> Completion Json) (w : api.World) (r : api.Response)
    (projectId location dataset dicomStore : string) :
  api.hasToken (api.getAccessToken env) = true ->
  (api.fetch env (apiLists.HEALTHCARE_API_BASE +:+ "/v1/projects/" +:+ projectId
                  +:+ "/locations/" +:+ location +:+ "/datasets/" +:+ dataset
                  +:+ "/dicomStores/" +:+ dicomStore +:+ "/dicomWeb/studies")
             (authorizationOf env) = Normal r ->
   (api.ok r = true ->
    apiLists.fetchStudies env json projectId location dataset dicomStore w
    = (afterRequest env
         (apiLists.HEALTHCARE_API_BASE +:+ "/v1/projects/" +:+ projectId
          +:+ "/locations/" +:+ location +:+ "/datasets/" +:+ dataset
          +:+ "/dicomStores/" +:+ dicomStore +:+ "/dicomWeb/studies") w, json r))
   /\ (api.status r = 401 ->
       apiLists.fetchStudies env json projectId location dataset dicomStore w
       = (api.signInToGoogle
            (afterRequest env
               (apiLists.HEALTHCARE_API_BASE +:+ "/v1/projects/" +:+ projectId
                +:+ "/locations/" +:+ location +:+ "/datasets/" +:+ dataset
                +:+ "/dicomStores/" +:+ dicomStore +:+ "/dicomWeb/studies") w),
          json r))
   /\ (api.ok r = false -> api.status r <> 401 ->
       apiLists.fetchStudies env json projectId location dataset dicomStore w
       = (afterRequest env
            (apiLists.HEALTHCARE_API_BASE +:+ "/v1/projects/" +:+ projectId
             +:+ "/locations/" +:+ location +:+ "/datasets/" +:+ dataset
             +:+ "/dicomStores/" +:+ dicomStore +:+ "/dicomWeb/studies") w,
          Throw (Error "[object Promise]"))))
  /\ (forall studyId,
         api.fetch env (apiLists.HEALTHCARE_API_BASE +:+ "/v1/projects/" +:+ projectId
                        +:+ "/locations/" +:+ location +:+ "/datasets/" +:+ dataset
                        +:+ "/dicomStores/" +:+ dicomStore +:+ "/dicomWeb/studies/"
                        +:+ studyId +:+ "/series")
                   (authorizationOf env) = Normal r ->
         (api.ok r = true ->
          apiLists.fetchSeries env json projectId location dataset dicomStore studyId w
          = (afterRequest env
               (apiLists.HEALTHCARE_API_BASE +:+ "/v1/projects/" +:+ projectId
                +:+ "/locations/" +:+ location +:+ "/datasets/" +:+ dataset
                +:+ "/dicomStores/" +:+ dicomStore +:+ "/dicomWeb/studies/"
                +:+ studyId +:+ "/series") w, json r))
         /\ (api.status r = 401 ->
             apiLists.fetchSeries env json projectId location dataset dicomStore
               studyId w
             = (api.signInToGoogle
                  (afterRequest env
                     (apiLists.HEALTHCARE_API_BASE +:+ "/v1/projects/" +:+ projectId
                      +:+ "/locations/" +:+ location +:+ "/datasets/" +:+ dataset
                      +:+ "/dicomStores/" +:+ dicomStore +:+ "/dicomWeb/studies/"
                      +:+ studyId +:+ "/series") w),
                json r))).
Proof.
  intros Htoken. unfold authorizationOf, afterRequest. split.
  - intros Hfetch. unfold apiLists.fetchStudies. split; [|split].
    + intros Hok. apply (fetchBody_ok env json _ w r Htoken Hfetch Hok).
    + intros H401. apply (fetchBody_unauthorized env json _ w r Htoken Hfetch H401).
    + intros Hok Hnot. unfold apiLists.fetchBody.
      rewrite (authenticatedFetch_other_failure env _ w r Htoken Hfetch Hok Hnot).
      reflexivity.
  - intros studyId Hfetch. unfold apiLists.fetchSeries. split.
    + intros Hok. apply (fetchBody_ok env json _ w r Htoken Hfetch Hok).
    + intros H401. apply (fetchBody_unauthorized env json _ w r Htoken Hfetch H401).
Qed.

Lemma studies_body_is_passed_through_witness :
  apiLists.fetchStudies Catalog.signedIn Catalog.json "alpha" "us" "chest" "ct"
    Catalog.start
  = (api.mkWorld 1
       [("https://healthcare.googleapis.com/v1/projects/alpha/locations/us/datasets/chest/dicomStores/ct/dicomWeb/studies",
         "Bearer token")],
     Normal Catalog.unauthorized)
  /\ apiLists.fetchStudies EmptyCatalog.signedIn EmptyCatalog.json "alpha" "us" "chest"
       "ct" Catalog.start
     = (api.mkWorld 0
          [("https://healthcare.googleapis.com/v1/projects/alpha/locations/us/datasets/chest/dicomStores/ct/dicomWeb/studies",
            "Bearer token")],
        Normal (JObject ∅)).
Proof.
  split.
  - destruct (studies_body_is_passed_through Catalog.signedIn Catalog.json Catalog.start
                (api.mkResponse 401 "unauthorized") "alpha" "us" "chest" "ct" eq_refl)
      as [Hstudies _].
    destruct (Hstudies eq_refl) as (_ & H401 & _). apply H401. reflexivity.
  - destruct (studies_body_is_passed_through EmptyCatalog.signedIn EmptyCatalog.json
                Catalog.start (api.mkResponse 200 "{}") "alpha" "us" "chest" "ct"
                eq_refl) as [Hstudies _].
    destruct (Hstudies eq_refl) as (Hok & _). apply Hok. reflexivity.
Defined.

(** * Properties of the viewer component *)

Section ViewerFacts.

Variable project location dataset dicomStore : string.
Variable study series : Json.
Variable STUDY_UID SERIES_UID : string.

Local Abbreviation step := (viewer.step project location dataset dicomStore study series
                              STUDY_UID SERIES_UID).
Local Abbreviation run := (viewer.run project location dataset dicomStore study series
                            STUDY_UID SERIES_UID).

Lemma viewer_run_cons (v : viewer.Viewer) (ev : viewer.Event) (evs : list viewer.Event) :
  run v (ev :: evs) = run (step v ev) evs.
Proof. reflexivity. Qed.

(** ** Images are shown in the order they arrive *)

Lemma displayNextImage_conserves (v : viewer.Viewer) :
  viewer.displayed (viewer.displayNextImage v)
    ++ viewer.readyImages (viewer.displayNextImage v)
  = viewer.displayed v ++ viewer.readyImages v.
Proof.
  unfold viewer.displayNextImage.
  destruct (viewer.readyImages v) as [|image rest]; cbn; [reflexivity|].
  rewrite <- app_assoc. reflexivity.
Qed.

Lemma step_conserves (v : viewer.Viewer) (ev : viewer.Event) :
  notStart ev ->
  viewer.displayed (step v ev) ++ viewer.readyImages (step v ev)
  = viewer.displayed v ++ viewer.readyImages v ++ viewer.delivered [ev].
Proof.
  intros Hev.
  destruct ev as [| |l|now|image|now1 now2|id now1 now2|checked|checked|value];
    cbn [viewer.step viewer.delivered omap list_omap]; rewrite ?app_nil_r.
  - unfold viewer.componentDidMount.
    destruct (viewer.getInstancesRequest _ _ _ _ _ _ _ _); reflexivity.
  - reflexivity.
  - destruct (viewer.metadataAwaited v); reflexivity.
  - contradiction.
  - unfold viewer.onImageReady. cbn [viewer.newSequence].
    destruct (viewer.newSequence v); cbn [viewer.displayed viewer.readyImages];
      [|reflexivity].
    rewrite displayNextImage_conserves. reflexivity.
  - destruct (viewer.listening v); [|reflexivity].
    unfold viewer.onImageRendered. rewrite displayNextImage_conserves.
    cbn [viewer.renderedImagesCount viewer.withCount].
    destruct (S (viewer.renderedImagesCount v) =? 1)%nat; [reflexivity|].
    destruct (_ =? _)%nat; reflexivity.
  - destruct (decide (id ∈ viewer.intervals v)); reflexivity.
  - reflexivity.
  - reflexivity.
  - reflexivity.
Qed.

(** X14.  Between two presses on Start no image is lost, shown twice or
    overtaken: the images handed to [cornerstone.displayImage], followed by
    those still waiting in [readyImages], are exactly the images shown or
    waiting before, followed by the images the sequencer has delivered
    since, in the order of delivery. *)
Theorem images_are_shown_in_arrival_order (v : viewer.Viewer)
    (evs : list viewer.Event) :
  Forall notStart evs ->
  viewer.displayed (run v evs) ++ viewer.readyImages (run v evs)
  = viewer.displayed v ++ viewer.readyImages v ++ viewer.delivered evs.
Proof.
  revert v. induction evs as [|ev evs IH]; intros v Hevs.
  - cbn. rewrite app_nil_r. reflexivity.
  - inversion Hevs as [|? ? Hev Hrest]; subst.
    rewrite viewer_run_cons, (IH _ Hrest), app_assoc, (step_conserves v ev Hev).
    rewrite <- !app_assoc. f_equal. f_equal.
    destruct ev; reflexivity.
Qed.

(** ** One image at a time *)

Lemma oneInFlight_run (base : nat) (evs : list viewer.Event) :
  forall (reported : nat) (v : viewer.Viewer),
    Forall notStart evs ->
    rendersAnswerDisplays step base reported v evs ->
    oneInFlight base reported v ->
    oneInFlight base (reported + viewer.renderings evs) (run v evs).
Proof.
  induction evs as [|ev evs IH]; intros reported v Hevs Hanswers Hinv.
  - cbn. rewrite Nat.add_0_r. exact Hinv.
  - inversion Hevs as [|? ? Hev Hrest]; subst.
    rewrite viewer_run_cons.
    destruct Hinv as (Hlen & Hidle & Hlisten).
    destruct ev as [| |l|now|image|now1 now2|id now1 now2|checked|checked|value];
      try contradiction;
      try (cbn [viewer.renderings]; apply IH; [exact Hrest|exact Hanswers|]).
    + cbn [viewer.step]. unfold viewer.componentDidMount.
      destruct (viewer.getInstancesRequest _ _ _ _ _ _ _ _);
        (split; [exact Hlen|split; [exact Hidle|reflexivity]]).
    + split; [exact Hlen|split; [exact Hidle|exact Hlisten]].
    + cbn [viewer.step]. destruct (viewer.metadataAwaited v);
        (split; [exact Hlen|split; [exact Hidle|exact Hlisten]]).
    + cbn [viewer.step]. unfold viewer.onImageReady. cbn [viewer.newSequence].
      destruct (viewer.newSequence v) eqn:Hnew.
      * rewrite (Hidle eq_refl). unfold oneInFlight. cbn.
        rewrite length_app. cbn. split; [lia|]. split; [discriminate|exact Hlisten].
      * unfold oneInFlight. cbn.
        split; [exact Hlen|]. split; [discriminate|exact Hlisten].
    + destruct Hanswers as [Hsome Hanswers].
      cbn [viewer.renderings]. rewrite <- Nat.add_succ_comm.
      apply IH; [exact Hrest|exact Hanswers|].
      destruct (viewer.newSequence v) eqn:Hnew; [lia|].
      cbn [viewer.step]. rewrite Hlisten.
      assert (Hshape : forall u,
                 viewer.displayed u = viewer.displayed v ->
                 viewer.readyImages u = viewer.readyImages v ->
                 viewer.newSequence u = false -> viewer.listening u = true ->
                 oneInFlight base (S reported) (viewer.displayNextImage u)).
      { intros u Hd Hr Hn Hl. unfold viewer.displayNextImage, oneInFlight.
        rewrite Hr. destruct (viewer.readyImages v) as [|image rest]; cbn.
        - rewrite Hd. split; [lia|]. split; [reflexivity|exact Hl].
        - rewrite Hn, Hd, length_app. cbn.
          split; [lia|]. split; [discriminate|exact Hl]. }
      unfold viewer.onImageRendered.
      cbn [viewer.renderedImagesCount viewer.withCount].
      destruct (S (viewer.renderedImagesCount v) =? 1)%nat;
        [apply Hshape; first [reflexivity|exact Hnew|exact Hlisten]|].
      destruct (_ =? _)%nat;
        apply Hshape; first [reflexivity|exact Hnew|exact Hlisten].
    + cbn [viewer.step]. destruct (decide (id ∈ viewer.intervals v));
        (split; [exact Hlen|split; [exact Hidle|exact Hlisten]]).
    + split; [exact Hlen|split; [exact Hidle|exact Hlisten]].
    + split; [exact Hlen|split; [exact Hidle|exact Hlisten]].
    + split; [exact Hlen|split; [exact Hidle|exact Hlisten]].
Qed.

(** X15.  From a press on Start on, as long as the canvas reports a
    rendered image only in answer to a displayed one, the component hands
    one image at a time to [cornerstone.displayImage]: the images displayed
    since are the reported ones plus at most one, and while an image waits
    in [readyImages] there is exactly one displayed image that has not been
    reported yet. *)
Theorem one_image_in_flight (v : viewer.Viewer) (now : Z) (evs : list viewer.Event) :
  viewer.listening v = true ->
  Forall notStart evs ->
  rendersAnswerDisplays step (List.length (viewer.displayed v)) 0
    (viewer.startDisplayingInstances now v) evs ->
  (List.length (viewer.displayed (run (viewer.startDisplayingInstances now v) evs))
   = List.length (viewer.displayed v) + viewer.renderings evs
   \/ List.length (viewer.displayed (run (viewer.startDisplayingInstances now v) evs))
      = S (List.length (viewer.displayed v) + viewer.renderings evs))%nat
  /\ (viewer.readyImages (run (viewer.startDisplayingInstances now v) evs) <> [] ->
      List.length (viewer.displayed (run (viewer.startDisplayingInstances now v) evs))
      = S (List.length (viewer.displayed v) + viewer.renderings evs)).
Proof.
  intros Hlisten Hevs Hanswers.
  destruct (oneInFlight_run (List.length (viewer.displayed v)) evs 0
              (viewer.startDisplayingInstances now v) Hevs Hanswers)
    as (Hlen & Hidle & _).
  { split; [cbn; lia|]. split; [reflexivity|exact Hlisten]. }
  cbn [Nat.add] in Hlen.
  destruct (viewer.newSequence (run (viewer.startDisplayingInstances now v) evs)).
  - split; [left; lia|]. intros Hwaiting. contradiction Hwaiting. auto.
  - split; [right; lia|]. intros _. lia.
Qed.

(** ** When a sequence is finished *)

Lemma sequenceState_rendered (v0 v : viewer.Viewer) (reported : nat) (now1 now2 : Z) :
  sequenceState v0 reported v ->
  sequenceState v0 (S reported) (viewer.onImageRendered now1 now2 v).
Proof.
  intros (Hcount & Hinst & Hawait & Hlisten & Hid & Hdisp & Hint).
  set (n := List.length (viewer.instances (viewer.state v0))) in *.
  assert (Hnext : forall u,
             viewer.renderedImagesCount u = S reported ->
             viewer.instances (viewer.state u) = viewer.instances (viewer.state v0) ->
             viewer.metadataAwaited u = false -> viewer.listening u = true ->
             viewer.metricsIntervalId u = S (viewer.intervalsSet v0) ->
             viewer.isDisplaying (viewer.state u) = negb (finishedAfter n (S reported)) ->
             (S (viewer.intervalsSet v0) ∈ viewer.intervals u
              <-> viewer.isDisplaying (viewer.state u) = true) ->
             sequenceState v0 (S reported) (viewer.displayNextImage u)).
  { intros u H1 H2 H3 H4 H5 H6 H7. unfold viewer.displayNextImage, sequenceState.
    destruct (viewer.readyImages u); cbn; fold n; auto 10. }
  unfold viewer.onImageRendered. cbn [viewer.renderedImagesCount viewer.withCount].
  rewrite Hcount.
  destruct (Nat.eqb_spec (S reported) 1) as [H1|H1].
  - apply Hnext; cbn; auto.
    + rewrite Hdisp. unfold finishedAfter. f_equal.
      destruct (Nat.leb_spec 2 n); cbn; [|reflexivity].
      destruct (Nat.leb_spec n reported), (Nat.leb_spec n (S reported)); lia || reflexivity.
  - cbn [viewer.state viewer.withCount]. rewrite Hinst. fold n.
    destruct (Nat.eqb_spec (S reported) n) as [Hn|Hn].
    + apply Hnext; cbn; auto.
      * unfold finishedAfter.
        destruct (Nat.leb_spec 2 n), (Nat.leb_spec n (S reported)); cbn; lia || reflexivity.
      * rewrite Hid. split; [|discriminate].
        intros Hin. apply elem_of_difference in Hin as [_ Hnot].
        contradiction Hnot. apply elem_of_singleton. reflexivity.
    + apply Hnext; cbn; auto.
      rewrite Hdisp. unfold finishedAfter. f_equal.
      destruct (Nat.leb_spec 2 n); cbn; [|reflexivity].
      destruct (Nat.leb_spec n reported), (Nat.leb_spec n (S reported)); lia || reflexivity.
Qed.

Lemma sequenceState_run (v0 : viewer.Viewer) (evs : list viewer.Event) :
  forall (reported : nat) (v : viewer.Viewer),
    Forall notStartNorMount evs ->
    sequenceState v0 reported v ->
    sequenceState v0 (reported + viewer.renderings evs) (run v evs).
Proof.
  induction evs as [|ev evs IH]; intros reported v Hevs Hinv.
  - cbn. rewrite Nat.add_0_r. exact Hinv.
  - inversion Hevs as [|? ? Hev Hrest]; subst. rewrite viewer_run_cons.
    pose proof Hinv as (Hcount & Hinst & Hawait & Hlisten & Hid & Hdisp & Hint).
    destruct ev as [| |l|now|image|now1 now2|id now1 now2|checked|checked|value];
      try contradiction;
      try (cbn [viewer.renderings]; apply IH; [exact Hrest|]).
    + unfold sequenceState. cbn. auto 10.
    + cbn [viewer.step]. rewrite Hawait. exact Hinv.
    + cbn [viewer.step]. unfold viewer.onImageReady. cbn [viewer.newSequence].
      destruct (viewer.newSequence v); [|unfold sequenceState; cbn; auto 10].
      unfold viewer.displayNextImage. cbn [viewer.readyImages].
      destruct (viewer.readyImages v ++ [image]); unfold sequenceState; cbn; auto 10.
    + cbn [viewer.renderings]. rewrite <- Nat.add_succ_comm.
      apply IH; [exact Hrest|]. cbn [viewer.step]. rewrite Hlisten.
      apply sequenceState_rendered. exact Hinv.
    + cbn [viewer.step]. destruct (decide (id ∈ viewer.intervals v)); [|exact Hinv].
      unfold sequenceState. cbn. auto 10.
    + unfold sequenceState. cbn. auto 10.
    + unfold sequenceState. cbn. auto 10.
    + unfold sequenceState. cbn. auto 10.
Qed.

(** X16.  A sequence over n instances is marked finished exactly when n is
    at least 2 and n rendered images have been reported since Start: only
    then is [isDisplaying] false again and the metrics interval cleared.  A
    sequence over a single instance is never marked finished: the first
    report takes the branch of the first image and the test against the
    number of instances is skipped, so the interval keeps running and the
    Start button stays disabled. *)
Theorem sequence_finishes_at_last_rendering (v : viewer.Viewer) (now : Z)
    (evs : list viewer.Event) :
  viewer.listening v = true ->
  viewer.metadataAwaited v = false ->
  Forall notStartNorMount evs ->
  viewer.isDisplaying
    (viewer.state (run (viewer.startDisplayingInstances now v) evs))
  = negb (finishedAfter (List.length (viewer.instances (viewer.state v)))
                        (viewer.renderings evs))
  /\ (viewer.metricsIntervalId (run (viewer.startDisplayingInstances now v) evs)
        ∈ viewer.intervals (run (viewer.startDisplayingInstances now v) evs)
      <-> viewer.isDisplaying
            (viewer.state (run (viewer.startDisplayingInstances now v) evs)) = true)
  /\ (List.length (viewer.instances (viewer.state v)) = 1%nat ->
      viewer.canStart (run (viewer.startDisplayingInstances now v) evs) = false).
Proof.
  intros Hlisten Hawait Hevs.
  destruct (sequenceState_run v evs 0 (viewer.startDisplayingInstances now v) Hevs)
    as (_ & Hinst & _ & _ & Hid & Hdisp & Hint).
  { unfold sequenceState. cbn. rewrite Hawait, Hlisten.
    repeat split; auto.
    - unfold finishedAfter.
      destruct (Nat.leb_spec 2 (List.length (viewer.instances (viewer.state v)))),
               (Nat.leb_spec (List.length (viewer.instances (viewer.state v))) 0);
        cbn; lia || reflexivity.
    - intros _. apply elem_of_union. right. apply elem_of_singleton. reflexivity. }
  cbn [Nat.add] in Hdisp. split; [exact Hdisp|]. split.
  - rewrite Hid. exact Hint.
  - intros Hone. unfold viewer.canStart. rewrite Hdisp, Hinst, Hone. reflexivity.
Qed.

(** ** The loader follows the checkboxes *)




End ViewerFacts.

Lemma images_are_shown_in_arrival_order_witness :
  viewer.displayed (Screening.run Screening.started Screening.playing)
    ++ viewer.readyImages (Screening.run Screening.started Screening.playing)
  = viewer.displayed Screening.started ++ viewer.readyImages Screening.started
    ++ [Screening.image "a"; Screening.image "b"].
Proof.
  apply (images_are_shown_in_arrival_order "alpha" "us" "chest" "ct"
           Screening.study Screening.series "0020000D" "0020000E"
           Screening.started Screening.playing).
  repeat constructor.
Defined.

Lemma one_image_in_flight_witness :
  (List.length (viewer.displayed (Screening.run Screening.started Screening.playing))
   = 0 + 2
   \/ List.length (viewer.displayed (Screening.run Screening.started Screening.playing))
      = S (0 + 2))%nat.
Proof.
  apply (one_image_in_flight "alpha" "us" "chest" "ct"
           Screening.study Screening.series "0020000D" "0020000E"
           Screening.loaded 1000 Screening.playing).
  - reflexivity.
  - repeat constructor.
  - vm_compute. repeat split; lia.
Defined.

Lemma sequence_finishes_at_last_rendering_witness :
  viewer.isDisplaying
    (viewer.state (Screening.run Screening.started Screening.playing)) = false
  /\ viewer.canStart
       (Screening.run (viewer.startDisplayingInstances 1000 Screening.loadedOne)
          [viewer.ImageReady (Screening.image "a"); viewer.ImageRendered 1010 1010;
           viewer.ImageRendered 1020 1020]) = false.
Proof.
  split.
  - apply (sequence_finishes_at_last_rendering "alpha" "us" "chest" "ct"
             Screening.study Screening.series "0020000D" "0020000E"
             Screening.loaded 1000 Screening.playing).
    + reflexivity.
    + reflexivity.
    + repeat constructor.
  - apply (sequence_finishes_at_last_rendering "alpha" "us" "chest" "ct"
             Screening.study Screening.series "0020000D" "0020000E"
             Screening.loadedOne 1000
             [viewer.ImageReady (Screening.image "a"); viewer.ImageRendered 1010 1010;
              viewer.ImageRendered 1020 1020]).
    + reflexivity.
    + reflexivity.
    + repeat constructor.
    + reflexivity.
Defined.


(** ** The main page *)

Lemma selected_loadData (level : main.Level) (call : main.ApiCall) (m : main.Main) :
  main.selected (main.loadData level call m) = main.selected m.
Proof. reflexivity. Qed.

Lemma selected_loadDataDone (level : main.Level)
    (outcome : Completion (list (option Json))) (m : main.Main) :
  main.selected (main.loadDataDone level outcome m) = main.selected m.
Proof. destruct outcome; reflexivity. Qed.

Lemma selected_loadLevel (level : main.Level) (m : main.Main) :
  main.selected (main.loadLevel level m) = main.selected m.
Proof.
  destruct level; try reflexivity.
  cbn. destruct (main.studyUid _); reflexivity.
Qed.

Lemma selected_select (level : main.Level) (item : option Json) (m : main.Main) :
  main.selected (main.select level item m)
  = main.update (main.selected m) level item.
Proof.
  destruct level; unfold main.select; try rewrite selected_loadLevel; reflexivity.
Qed.

Lemma selected_clear (level l : main.Level) (m : main.Main) :
  main.selected (main.clear level m) l
  = if main.atOrBelow level l then Some JNull else main.selected m l.
Proof.
  destruct level; cbn [main.clear];
    try (destruct (main.studyUid _));
    destruct l; reflexivity.
Qed.

Lemma selected_step (m : main.Main) (ev : main.Event) (l : main.Level) :
  main.selected (main.step m ev) l
  = match ev with
    | main.ClickItem level item => main.update (main.selected m) level item l
    | main.ClickBreadcrumb level =>
        if main.atOrBelow level l then Some JNull else main.selected m l
    | _ => main.selected m l
    end.
Proof.
  destruct ev; cbn [main.step].
  - unfold main.onMount. destruct (api.hasToken accessToken); reflexivity.
  - rewrite selected_select. reflexivity.
  - apply selected_clear.
  - rewrite selected_loadDataDone. reflexivity.
  - rewrite selected_loadDataDone. reflexivity.
  - rewrite selected_loadDataDone. reflexivity.
Qed.

Lemma nested_initial : main.nested main.initial.
Proof. intros level up _ H. discriminate H. Qed.

(** The tests of the render function read the selections through their
    truthiness only: the proofs about panels name the six truth values and
    go through their cases. *)
Ltac name_truthy m :=
  let b0 := fresh "b" in let b1 := fresh "b" in let b2 := fresh "b" in
  let b3 := fresh "b" in let b4 := fresh "b" in let b5 := fresh "b" in
  let E0 := fresh in let E1 := fresh in let E2 := fresh in
  let E3 := fresh in let E4 := fresh in let E5 := fresh in
  remember (truthyValue (main.selected m main.Project)) as b0 eqn:E0;
  remember (truthyValue (main.selected m main.Location)) as b1 eqn:E1;
  remember (truthyValue (main.selected m main.Dataset)) as b2 eqn:E2;
  remember (truthyValue (main.selected m main.DicomStore)) as b3 eqn:E3;
  remember (truthyValue (main.selected m main.Study)) as b4 eqn:E4;
  remember (truthyValue (main.selected m main.Series)) as b5 eqn:E5;
  clear E0 E1 E2 E3 E4 E5;
  destruct b0, b1, b2, b3, b4, b5.

Ltac decide_levels :=
  repeat match goal with
         | |- context [decide (?a = ?b)] =>
             let D := fresh in
             destruct (decide (a = b)) as [D|D];
             [try discriminate D | try (exfalso; apply D; reflexivity)]
         | H : context [decide (?a = ?b)] |- _ =>
             let D := fresh in
             destruct (decide (a = b)) as [D|D];
             [try discriminate D | try (exfalso; apply D; reflexivity)]
         end.

Ltac use_nested :=
  repeat match goal with
         | H : true = true -> _ |- _ => specialize (H eq_refl)
         | H : false = true -> _ |- _ => clear H
         end;
  try discriminate.

Lemma nested_chain (m : main.Main) :
  main.nested m ->
  (truthyValue (main.selected m main.Location) = true ->
   truthyValue (main.selected m main.Project) = true) /\
  (truthyValue (main.selected m main.Dataset) = true ->
   truthyValue (main.selected m main.Location) = true) /\
  (truthyValue (main.selected m main.DicomStore) = true ->
   truthyValue (main.selected m main.Dataset) = true) /\
  (truthyValue (main.selected m main.Study) = true ->
   truthyValue (main.selected m main.DicomStore) = true) /\
  (truthyValue (main.selected m main.Series) = true ->
   truthyValue (main.selected m main.Study) = true).
Proof. intros Hn. repeat split; apply Hn; reflexivity. Qed.

Lemma nested_step (m : main.Main) (ev : main.Event) :
  main.nested m -> main.offered m ev -> main.nested (main.step m ev).
Proof.
  intros Hn Hoff. destruct (nested_chain m Hn) as (H1 & H2 & H3 & H4 & H5).
  intros level up Hup. rewrite !selected_step.
  destruct ev as [token|lv item|lv|lv outcome|outcome|outcome];
    try (apply Hn; exact Hup).
  - (* an item of the list on screen *)
    cbn in Hoff. unfold main.listShown in Hoff. unfold main.update.
    destruct level; inversion Hup; subst up; clear Hup;
      destruct lv; cbn in Hoff |- *; intros Hitem; decide_levels;
      name_truthy m; cbn in *; use_nested; congruence.
  - (* a breadcrumb *)
    cbn in Hoff.
    destruct level; inversion Hup; subst up; clear Hup;
      destruct lv; cbn in Hoff |- *; intros Hitem;
      name_truthy m; cbn in *; use_nested; congruence.
Qed.

Lemma nested_run (evs : list main.Event) (m : main.Main) :
  main.nested m -> main.allOffered m evs -> main.nested (main.run m evs).
Proof.
  revert m. induction evs as [|ev evs IH]; intros m Hn Hoff; [exact Hn|].
  destruct Hoff as [Hev Hrest]. cbn [main.run fold_left].
  apply IH; [apply nested_step; assumption|exact Hrest].
Qed.

(** On a nested page exactly one panel is rendered: the list of the first
    level without a selection, or the viewer when every level has one. *)
Lemma nested_panels (m : main.Main) :
  main.nested m ->
  exists panel,
    main.panels m = [panel] /\
    (panel = main.ViewerPanel ->
     forall level, truthyValue (main.selected m level) = true).
Proof.
  intros Hn. destruct (nested_chain m Hn) as (H1 & H2 & H3 & H4 & H5).
  assert (Hall : truthyValue (main.selected m main.Project) = true ->
                 truthyValue (main.selected m main.Location) = true ->
                 truthyValue (main.selected m main.Dataset) = true ->
                 truthyValue (main.selected m main.DicomStore) = true ->
                 truthyValue (main.selected m main.Study) = true ->
                 truthyValue (main.selected m main.Series) = true ->
                 forall level, truthyValue (main.selected m level) = true)
    by (intros ? ? ? ? ? ? []; assumption).
  unfold main.panels, main.listShown. cbn [List.filter main.above].
  name_truthy m; use_nested; cbn; eexists; (split; [reflexivity|]);
    intros Hp; try discriminate Hp; apply Hall; reflexivity.
Qed.

(** X18. However the page is used (whatever is clicked among the items and
    breadcrumb links it offers, and however the api calls come back), a
    level has a selection only if the level above has one, and the page
    renders exactly one panel: one list, or the viewer; the viewer is only
    rendered with every one of its six coordinates selected. *)
Theorem one_panel_at_a_time (m : main.Main) (evs : list main.Event) :
  main.nested m ->
  main.allOffered m evs ->
  main.nested (main.run m evs) /\
  exists panel,
    main.panels (main.run m evs) = [panel] /\
    (panel = main.ViewerPanel ->
     forall level, truthyValue (main.selected (main.run m evs) level) = true).
Proof.
  intros Hn Hoff.
  pose proof (nested_run evs m Hn Hoff) as Hn'.
  split; [exact Hn'|].
  apply nested_panels. exact Hn'.
Qed.

Lemma one_panel_at_a_time_witness :
  main.nested (main.run main.initial Browsing.visit) /\
  exists panel,
    main.panels (main.run main.initial Browsing.visit) = [panel] /\
    (panel = main.ViewerPanel ->
     forall level,
       truthyValue (main.selected (main.run main.initial Browsing.visit) level) = true).
Proof.
  apply (one_panel_at_a_time main.initial Browsing.visit).
  - intros level up _ H. discriminate H.
  - vm_compute. repeat split.
Defined.

Lemma panels_after_item (m : main.Main) (level : main.Level) (item : option Json) :
  main.nested m ->
  main.offered m (main.ClickItem level item) ->
  main.panels (main.step m (main.ClickItem level item))
  = [if truthyValue item then main.below level else main.ListOf level].
Proof.
  intros Hn Hoff. destruct (nested_chain m Hn) as (H1 & H2 & H3 & H4 & H5).
  cbn in Hoff. unfold main.listShown in Hoff.
  unfold main.panels, main.listShown. cbn [List.filter main.above].
  rewrite !selected_step. unfold main.update.
  destruct level; cbn in Hoff |- *; decide_levels;
    destruct (truthyValue item);
    name_truthy m; cbn in *; use_nested; congruence.
Qed.

(** X19. A click moves the page by one level.  Clicking an item of the
    list on screen selects it, and with a truthy item the page shows the
    panel one level down and nothing else; with a falsy item (an
    [undefined] or empty identifier) the same list stays on screen, although
    the handler ran.  Clicking the breadcrumb link of a level brings back
    the list of that level and nothing else, with every selection at and
    below that level reset to [null] and every selection above it kept. *)
Theorem navigation_moves_one_level (m : main.Main) (level : main.Level) :
  main.nested m ->
  (forall item,
     main.offered m (main.ClickItem level item) ->
     main.panels (main.step m (main.ClickItem level item))
     = [if truthyValue item then main.below level else main.ListOf level]) /\
  (main.offered m (main.ClickBreadcrumb level) ->
   main.panels (main.step m (main.ClickBreadcrumb level)) = [main.ListOf level] /\
   forall l,
     main.selected (main.step m (main.ClickBreadcrumb level)) l
     = if main.atOrBelow level l then Some JNull else main.selected m l).
Proof.
  intros Hn. destruct (nested_chain m Hn) as (H1 & H2 & H3 & H4 & H5). split.
  - intros item Hoff. apply panels_after_item; assumption.
  - intros Hoff. cbn in Hoff.
    split; [|intros l; apply selected_clear].
    unfold main.panels, main.listShown. cbn [List.filter main.above].
    rewrite !selected_step.
    destruct level; cbn in Hoff |- *;
      name_truthy m; cbn in *; use_nested; congruence.
Qed.

Lemma navigation_moves_one_level_witness :
  (forall item,
     main.offered Browsing.atLocations (main.ClickItem main.Location item) ->
     main.panels (main.step Browsing.atLocations (main.ClickItem main.Location item))
     = [if truthyValue item then main.below main.Location
        else main.ListOf main.Location]) /\
  (main.offered Browsing.atLocations (main.ClickBreadcrumb main.Project) ->
   main.panels (main.step Browsing.atLocations (main.ClickBreadcrumb main.Project))
   = [main.ListOf main.Project] /\
   forall l,
     main.selected (main.step Browsing.atLocations (main.ClickBreadcrumb main.Project)) l
     = if main.atOrBelow main.Project l then Some JNull
       else main.selected Browsing.atLocations l).
Proof.
  pose proof (navigation_moves_one_level Browsing.atLocations main.Location) as [Hitem _].
  { intros level up Hup. destruct level; inversion Hup; vm_compute; congruence. }
  pose proof (navigation_moves_one_level Browsing.atLocations main.Project) as [_ Hcrumb].
  { intros level up Hup. destruct level; inversion Hup; vm_compute; congruence. }
  split; assumption.
Defined.

(** *** Display values *)

Lemma mapCompletion_Throw {A B : Type} (f : A -> Completion B) (l : list A) (x : A)
    (e : Exn) :
  In x l -> f x = Throw e -> exists e', mapCompletion f l = Throw e'.
Proof.
  induction l as [|y l IH]; intros Hin Hx; [destruct Hin|].
  cbn [mapCompletion]. destruct (f y) as [b|e'] eqn:Hy; [|exists e'; reflexivity].
  destruct Hin as [->|Hin]; [congruence|].
  destruct (IH Hin Hx) as [e' He']. rewrite He'. exists e'. reflexivity.
Qed.

Lemma mapCompletion_Forall2 {A B : Type} (f : A -> Completion B) (l : list A) :
  Forall (fun x => exists y, f x = Normal y) l ->
  exists ys, mapCompletion f l = Normal ys /\ Forall2 (fun x y => f x = Normal y) l ys.
Proof.
  induction 1 as [|x l [y Hy] _ (ys & Hys & Hall)].
  - exists []. split; [reflexivity|constructor].
  - exists (y :: ys). split; [apply mapCompletion_cons; assumption|].
    constructor; assumption.
Qed.

Lemma patientName_untagged (fields : gmap string Json) :
  fields !! "00100010" = None ->
  exists e, main.patientName (JObject fields) = Throw e.
Proof.
  intros H. unfold main.patientName. cbn [getProp]. rewrite H. eexists. reflexivity.
Qed.

Lemma seriesDescription_untagged (fields : gmap string Json) :
  fields !! "0008103E" = None ->
  exists e, main.seriesDescription (JObject fields) = Throw e.
Proof.
  intros H. unfold main.seriesDescription. cbn [getProp]. rewrite H.
  eexists. reflexivity.
Qed.

Lemma patientName_object (study : Json) (name : option Json) :
  main.patientName study = Normal name -> exists fields, study = JObject fields.
Proof.
  destruct study; try discriminate; intros _; eexists; reflexivity.
Qed.

Lemma seriesDescription_object (series : Json) (description : option Json) :
  main.seriesDescription series = Normal description ->
  exists fields, series = JObject fields.
Proof.
  destruct series; try discriminate; intros _; eexists; reflexivity.
Qed.

Lemma getProp_withDisplayValue (fields : gmap string Json) (value : option Json)
    (k : string) :
  getProp (Some (main.withDisplayValue (JObject fields) value)) k
  = if decide (k = "displayValue") then Normal value else Normal (fields !! k).
Proof.
  cbn [main.withDisplayValue getProp].
  destruct (decide (k = "displayValue")) as [->|Hk]; destruct value as [v|].
  - rewrite lookup_insert_eq. reflexivity.
  - rewrite lookup_delete_eq. reflexivity.
  - rewrite lookup_insert_ne by congruence. reflexivity.
  - rewrite lookup_delete_ne by congruence. reflexivity.
Qed.

Section DisplayValues.

Variable describe : Json -> Completion (option Json).
Hypothesis describe_object :
  forall item value, describe item = Normal value -> exists fields, item = JObject fields.

(** What [loadData] does with the outcome of the mapping over the body. *)
Lemma loadDataDone_rejected (level : main.Level) (m : main.Main) (body : list Json)
    (item : Json) (e : Exn) :
  In item body -> describe item = Throw e ->
  main.items (main.loadDataDone level
                (callMap (Some (JArray body)) (main.addDisplayValue describe)) m)
  = main.items m /\
  main.loading (main.loadDataDone level
                  (callMap (Some (JArray body)) (main.addDisplayValue describe)) m)
               level = false /\
  exists e',
    main.consoleErrors
      (main.loadDataDone level
         (callMap (Some (JArray body)) (main.addDisplayValue describe)) m)
    = main.consoleErrors m ++ [e'].
Proof.
  intros Hin He.
  assert (Hthrow : main.addDisplayValue describe item = Throw e)
    by (unfold main.addDisplayValue; rewrite He; reflexivity).
  destruct (mapCompletion_Throw _ body item e Hin Hthrow) as [e' He'].
  cbn [callMap]. rewrite He'. cbn.
  repeat split.
  - unfold main.update. destruct (decide (level = level)); congruence.
  - exists e'. reflexivity.
Qed.

Lemma loadDataDone_described (level : main.Level) (m : main.Main) (body : list Json) :
  Forall (fun item => exists value, describe item = Normal value) body ->
  Forall2 (fun item shown =>
             exists d, shown = Some d /\
                       getProp (Some d) "displayValue" = describe item /\
                       forall k, k <> "displayValue" ->
                                 getProp (Some d) k = getProp (Some item) k)
          body
          (main.items (main.loadDataDone level
                         (callMap (Some (JArray body)) (main.addDisplayValue describe)) m)
                      level) /\
  main.loading (main.loadDataDone level
                  (callMap (Some (JArray body)) (main.addDisplayValue describe)) m)
               level = false /\
  main.consoleErrors
    (main.loadDataDone level
       (callMap (Some (JArray body)) (main.addDisplayValue describe)) m)
  = main.consoleErrors m.
Proof.
  intros Hall.
  assert (Hall' : Forall (fun item => exists y, main.addDisplayValue describe item = Normal y)
                         body).
  { eapply Forall_impl; [exact Hall|]. intros item [value Hv].
    unfold main.addDisplayValue. rewrite Hv. eexists. reflexivity. }
  destruct (mapCompletion_Forall2 _ body Hall') as (ys & Hys & Hrel).
  cbn [callMap]. rewrite Hys. cbn.
  unfold main.update. destruct (decide (level = level)) as [_|Hne]; [|congruence].
  repeat split.
  eapply Forall2_impl; [exact Hrel|].
  intros item shown Hshown. cbn beta in Hshown.
  unfold main.addDisplayValue in Hshown.
  destruct (describe item) as [value|e] eqn:Hv; [|discriminate Hshown].
  destruct (describe_object item value Hv) as [fields ->].
  assert (Hs : Normal shown = Normal (Some (main.withDisplayValue (JObject fields) value)))
    by (rewrite <- Hshown; reflexivity).
  injection Hs as ->.
  exists (main.withDisplayValue (JObject fields) value). split; [reflexivity|]. split.
  - pose proof (getProp_withDisplayValue fields value "displayValue") as H.
    destruct (decide _) in H; [exact H|congruence].
  - intros k Hk. pose proof (getProp_withDisplayValue fields value k) as H.
    destruct (decide _) in H; [congruence|exact H].
Qed.

End DisplayValues.

(** X20. One item without its display tag hides the whole list.  When the
    body of the studies (or of the series) comes back as an array in which
    one object lacks the patient name tag 00100010 (the series description
    tag 0008103E), nothing of the body reaches the page: the list is what it
    was before, also for the items that have the tag; one error is written to
    the console and the loading flag is lowered. *)
Theorem item_without_display_tag_hides_the_list (m : main.Main) (body : list Json)
    (fields : gmap string Json) :
  In (JObject fields) body ->
  (fields !! "00100010" = None ->
   main.items (main.step m (main.StudiesLoaded (Normal (JArray body)))) = main.items m /\
   main.loading (main.step m (main.StudiesLoaded (Normal (JArray body)))) main.Study
   = false /\
   exists e,
     main.consoleErrors (main.step m (main.StudiesLoaded (Normal (JArray body))))
     = main.consoleErrors m ++ [e]) /\
  (fields !! "0008103E" = None ->
   main.items (main.step m (main.SeriesLoaded (Normal (JArray body)))) = main.items m /\
   main.loading (main.step m (main.SeriesLoaded (Normal (JArray body)))) main.Series
   = false /\
   exists e,
     main.consoleErrors (main.step m (main.SeriesLoaded (Normal (JArray body))))
     = main.consoleErrors m ++ [e]).
Proof.
  intros Hin. split; intros Hno.
  - destruct (patientName_untagged fields Hno) as [e He].
    exact (loadDataDone_rejected main.patientName main.Study m body _ e Hin He).
  - destruct (seriesDescription_untagged fields Hno) as [e He].
    exact (loadDataDone_rejected main.seriesDescription main.Series m body _ e Hin He).
Qed.

Lemma item_without_display_tag_hides_the_list_witness :
  main.items (main.step main.initial
                (main.StudiesLoaded
                   (Normal (JArray [Browsing.study; Browsing.unnamedStudy]))))
  = main.items main.initial.
Proof.
  refine (proj1 (proj1 (item_without_display_tag_hides_the_list main.initial
                   [Browsing.study; Browsing.unnamedStudy]
                   {[ "0020000D" := Browsing.values (JString "1.2.840.2") ]} _) _)).
  - right. left. reflexivity.
  - reflexivity.
Defined.

(** X21. When the display value can be read from every study of the body
    (every series), the list on the page has one entry per item of the
    body, in the order of the body; each entry is the item with one more
    property, [displayValue], which holds the patient name (the series
    description); every other property reads as in the body.  Nothing is
    written to the console and the loading flag is lowered. *)
Theorem display_values_keep_the_items (m : main.Main) (body : list Json) :
  (Forall (fun study => exists name, main.patientName study = Normal name) body ->
   Forall2 (fun study shown =>
              exists d, shown = Some d /\
                        getProp (Some d) "displayValue" = main.patientName study /\
                        forall k, k <> "displayValue" ->
                                  getProp (Some d) k = getProp (Some study) k)
           body
           (main.items (main.step m (main.StudiesLoaded (Normal (JArray body))))
                       main.Study) /\
   main.loading (main.step m (main.StudiesLoaded (Normal (JArray body)))) main.Study
   = false /\
   main.consoleErrors (main.step m (main.StudiesLoaded (Normal (JArray body))))
   = main.consoleErrors m) /\
  (Forall (fun series => exists description,
                           main.seriesDescription series = Normal description) body ->
   Forall2 (fun series shown =>
              exists d, shown = Some d /\
                        getProp (Some d) "displayValue" = main.seriesDescription series /\
                        forall k, k <> "displayValue" ->
                                  getProp (Some d) k = getProp (Some series) k)
           body
           (main.items (main.step m (main.SeriesLoaded (Normal (JArray body))))
                       main.Series) /\
   main.loading (main.step m (main.SeriesLoaded (Normal (JArray body)))) main.Series
   = false /\
   main.consoleErrors (main.step m (main.SeriesLoaded (Normal (JArray body))))
   = main.consoleErrors m).
Proof.
  split; intros Hall.
  - exact (loadDataDone_described main.patientName patientName_object main.Study m body
             Hall).
  - exact (loadDataDone_described main.seriesDescription seriesDescription_object
             main.Series m body Hall).
Qed.

Lemma display_values_keep_the_items_witness :
  main.consoleErrors
    (main.step main.initial (main.SeriesLoaded (Normal (JArray [Browsing.chest]))))
  = main.consoleErrors main.initial.
Proof.
  refine (proj2 (proj2 (proj2 (display_values_keep_the_items main.initial
                                 [Browsing.chest]) _))).
  constructor; [|constructor].
  exists (Some (JString "Chest")). reflexivity.
Defined.

(** X22. Selecting a study that has no study UID (no tag 0020000D) strands
    the page: the study is selected and the page moves to the list of
    series, but the handler throws before it asks for the series, so no api
    call is made, no list changes and no loading flag is raised; the error
    leaves the handler. *)
Theorem study_without_uid_strands_the_page (m : main.Main)
    (fields : gmap string Json) :
  main.nested m ->
  main.offered m (main.ClickItem main.Study (Some (JObject fields))) ->
  fields !! "0020000D" = None ->
  main.panels (main.step m (main.ClickItem main.Study (Some (JObject fields))))
  = [main.ListOf main.Series] /\
  main.selected (main.step m (main.ClickItem main.Study (Some (JObject fields))))
                main.Study = Some (JObject fields) /\
  main.calls (main.step m (main.ClickItem main.Study (Some (JObject fields))))
  = main.calls m /\
  main.items (main.step m (main.ClickItem main.Study (Some (JObject fields))))
  = main.items m /\
  main.loading (main.step m (main.ClickItem main.Study (Some (JObject fields))))
  = main.loading m /\
  exists e,
    main.uncaught (main.step m (main.ClickItem main.Study (Some (JObject fields))))
    = main.uncaught m ++ [e].
Proof.
  intros Hn Hoff Hno.
  split; [exact (panels_after_item m main.Study _ Hn Hoff)|].
  assert (Hhere : main.selected (main.setSelected main.Study (Some (JObject fields)) m)
                                main.Study = Some (JObject fields)).
  { cbn. unfold main.update.
    destruct (decide (main.Study = main.Study)) as [_|Hne]; congruence. }
  assert (Huid : exists e, main.studyUid (Some (JObject fields)) = Throw e).
  { unfold main.studyUid. cbn [getProp]. rewrite Hno. eexists. reflexivity. }
  destruct Huid as [e Huid].
  assert (Hstep : main.step m (main.ClickItem main.Study (Some (JObject fields)))
                  = main.throwFromHandler e
                      (main.setSelected main.Study (Some (JObject fields)) m)).
  { cbn [main.step main.select main.loadLevel]. rewrite Hhere, Huid. reflexivity. }
  rewrite Hstep.
  split; [exact Hhere|].
  repeat split. exists e. reflexivity.
Qed.

Lemma study_without_uid_strands_the_page_witness :
  main.calls (main.step Browsing.atStudies
                (main.ClickItem main.Study (Some (JObject ∅))))
  = main.calls Browsing.atStudies.
Proof.
  refine (proj1 (proj2 (proj2 (study_without_uid_strands_the_page
                                 Browsing.atStudies ∅ _ _ _)))).
  - intros level up Hup. destruct level; inversion Hup; vm_compute; congruence.
  - reflexivity.
  - reflexivity.
Defined.
